(** * MIGS / Mashreq payment services: a shallow embedding

    The development follows the TypeScript sources of the payment back ends:

    - [payment/backend/src/payment/utils/hash.util.ts]      (module [MigsHashUtil])
    - [payment/backend/src/payment/payment.service.ts]      (module [PaymentService])
    - [payment/backend/src/payment/processor/payment-status-sync.processor.ts]
                                                            (module [PaymentStatusSyncProcessor])
    - [payment/backend/src/payment/payment.controller.ts]   (module [PaymentController])
    - the Mashreq services [MashreqService] and [PaymentService]
      (imported by the controller as [src/payment/services/meshreq.service]
      and [src/payment/services/payment.service]) and
      [payment-meshreq/src/webhook/webhook.controller.ts]   (module [Mashreq])

    Conventions.
    - A JavaScript string is a [string]: a sequence of code units, each below
      256.  White space, sorting and UTF-8 encoding are the ECMAScript ones
      restricted to that range.
    - A JavaScript value of type [any] is a [jsval]; a plain object is an
      association list in property order ([Js.obj]).
    - A thrown exception is the [Throw] branch of [Exc].
    - Money (DECIMAL(10,2) columns, DTO numbers with at most two decimal
      places) is an exact count of hundredths in [Z]; binary floating point
      rounding is not modelled.
    - The digest primitives of Node's [crypto] module are the fields of the
      class [Crypto]; every result holds for all of its instances. *)

From Stdlib Require Import ZArith NArith Ascii String List Bool Lia DecimalString.
From stdpp Require Import base decidable option list strings sorting.

Local Open Scope Z_scope.

(* ===================================================================== *)
(** * Exceptions *)
(* ===================================================================== *)

(** The exception classes the services throw or receive.  [AxiosError]
    carries the [code] and [message] properties axios sets. *)
Inductive Exception : Type :=
| BadRequestException (message : string)
| NotFoundException (message : string)
| ServiceUnavailableException (message : string)
| GatewayTimeoutException (message : string)
| Error (message : string)
| TypeError (message : string)
| RangeError (message : string)
| AxiosError (code : string) (message : string).

Global Instance Exception_eq_dec : EqDecision Exception.
Proof. solve_decision. Defined.

Inductive Exc (A : Type) : Type :=
| Ok (a : A)
| Throw (e : Exception).
Arguments Ok {A} a.
Arguments Throw {A} e.

(** Sequencing of statements that may throw: [x ← m; k] is stdpp's bind. *)
Global Instance Exc_bind : MBind Exc := λ A B k m,
  match m with
  | Ok a => k a
  | Throw e => Throw e
  end.
Global Instance Exc_ret : MRet Exc := λ A a, Ok a.

(** [try { body } catch (error) { handler }] *)
Definition tryCatch {A} (body : Exc A) (handler : Exception → Exc A) : Exc A :=
  match body with
  | Ok a => Ok a
  | Throw e => handler e
  end.

Definition error_message (e : Exception) : string :=
  match e with
  | BadRequestException m | NotFoundException m | ServiceUnavailableException m
  | GatewayTimeoutException m | Error m | TypeError m | RangeError m
  | AxiosError _ m => m
  end.

(** [error.code]: only axios errors carry one. *)
Definition error_code (e : Exception) : option string :=
  match e with
  | AxiosError c _ => Some c
  | _ => None
  end.

(** [error.status]: the HTTP status of a Nest [HttpException]. *)
Definition error_status (e : Exception) : option Z :=
  match e with
  | BadRequestException _ => Some 400
  | NotFoundException _ => Some 404
  | ServiceUnavailableException _ => Some 503
  | GatewayTimeoutException _ => Some 504
  | _ => None
  end.

(* ===================================================================== *)
(** * The JavaScript layer *)
(* ===================================================================== *)

Module Js.

(** ** Strings *)

(** WhiteSpace and LineTerminator code units below 256: TAB, LF, VT, FF,
    CR, SP and NBSP. *)
Definition isWhiteSpace (c : ascii) : bool :=
  match N_of_ascii c with
  | 9 | 10 | 11 | 12 | 13 | 32 | 160 => true
  | _ => false
  end%N.

Fixpoint trimStart (s : string) : string :=
  match s with
  | EmptyString => EmptyString
  | String c s' => if isWhiteSpace c then trimStart s' else s
  end.

Fixpoint trimEnd (s : string) : string :=
  match s with
  | EmptyString => EmptyString
  | String c s' =>
      match trimEnd s' with
      | EmptyString => if isWhiteSpace c then EmptyString else String c EmptyString
      | t => String c t
      end
  end.

Fixpoint allWhiteSpace (s : string) : bool :=
  match s with
  | EmptyString => true
  | String c s' => isWhiteSpace c && allWhiteSpace s'
  end.

(** [String.prototype.trim] *)
Definition trim (s : string) : string := trimEnd (trimStart s).

Fixpoint startsWith (p s : string) : bool :=
  match p, s with
  | EmptyString, _ => true
  | String a p', String b s' => if decide (a = b) then startsWith p' s' else false
  | String _ _, EmptyString => false
  end.

(** [String.prototype.includes] *)
Fixpoint includes (p s : string) : bool :=
  startsWith p s ||
  match s with
  | EmptyString => false
  | String _ s' => includes p s'
  end.

(** [s.substring(start, end)] for [start <= end] *)
Definition substring (start stop : nat) (s : string) : string :=
  String.substring start (stop - start) s.

(** [Array.prototype.join] on an array of strings *)
Fixpoint join (sep : string) (l : list string) : string :=
  match l with
  | [] => EmptyString
  | [x] => x
  | x :: rest => x +:+ sep +:+ join sep rest
  end.

Definition isDigit (c : ascii) : bool :=
  let n := N_of_ascii c in ((48 <=? n) && (n <=? 57))%N.

Definition digitValue (c : ascii) : N := (N_of_ascii c - 48)%N.

Fixpoint allDigits (s : string) : bool :=
  match s with
  | EmptyString => true
  | String c s' => isDigit c && allDigits s'
  end.

(** The value of a string of decimal digits, most significant first. *)
Fixpoint digitsValue (acc : N) (s : string) : N :=
  match s with
  | EmptyString => acc
  | String c s' => digitsValue (10 * acc + digitValue c)%N s'
  end.

(** [s.split(sep)] at the first occurrence of a one-character separator:
    the text before it and, when there is one, the text after it. *)
Fixpoint splitFirst (sep : ascii) (s : string) : string * option string :=
  match s with
  | EmptyString => (EmptyString, None)
  | String c s' =>
      if decide (c = sep) then (EmptyString, Some s')
      else let '(a, b) := splitFirst sep s' in (String c a, b)
  end.

(** [s.split(sep)] for a one-character separator. *)
Fixpoint split (sep : ascii) (s : string) : list string :=
  match s with
  | EmptyString => [EmptyString]
  | String c s' =>
      if decide (c = sep) then EmptyString :: split sep s'
      else match split sep s' with
           | [] => [String c EmptyString]
           | w :: ws => String c w :: ws
           end
  end.

(** Decimal text of an integer, as [Number.prototype.toString] prints it. *)
Definition intToString (z : Z) : string :=
  NilZero.string_of_int (Z.to_int z).

(** ** Values *)

(** A number is kept as an exact decimal [mantissa / 10 ^ decimals]; this
    is what [parseInt] and [parseFloat] yield on the digit strings the
    services hand them (up to the precision of a double). *)
Inductive jsval : Type :=
| JUndefined
| JNull
| JString (s : string)
| JNumber (mantissa : N) (decimals : nat).

Global Instance jsval_eq_dec : EqDecision jsval.
Proof. solve_decision. Defined.

(** ToBoolean *)
Definition truthy (v : jsval) : bool :=
  match v with
  | JUndefined | JNull => false
  | JString s => negb (bool_decide (s = EmptyString))
  | JNumber m _ => negb (m =? 0)%N
  end.

(** [a === b] *)
Definition strictEq (a b : jsval) : bool :=
  match a, b with
  | JUndefined, JUndefined => true
  | JNull, JNull => true
  | JString s, JString t => bool_decide (s = t)
  | JNumber m d, JNumber m' d' =>
      (m * 10 ^ N.of_nat d' =? m' * 10 ^ N.of_nat d)%N
  | _, _ => false
  end.

(** Whether [switch (v)] selects one of the string [case] labels: each
    label is compared with [===]. *)
Definition matchesCase (v : jsval) (labels : list string) : bool :=
  existsb (λ label, strictEq v (JString label)) labels.

Fixpoint stripTrailingZeros (s : string) : string :=
  match s with
  | EmptyString => EmptyString
  | String c s' =>
      match stripTrailingZeros s' with
      | EmptyString => if decide (c = "0"%char) then EmptyString else String c EmptyString
      | t => String c t
      end
  end.

(** [s.padStart(width, "0")], with [fuel] bounding the characters added. *)
Fixpoint padZeros (fuel width : nat) (s : string) : string :=
  match fuel with
  | O => s
  | S fuel' => if decide (String.length s < width)%nat
               then padZeros fuel' width (String "0" s) else s
  end.

(** [String(v)] *)
Definition toString (v : jsval) : string :=
  match v with
  | JUndefined => "undefined"
  | JNull => "null"
  | JString s => s
  | JNumber m d =>
      let scale := (10 ^ N.of_nat d)%N in
      let ip := intToString (Z.of_N (m / scale)) in
      let fp := stripTrailingZeros
                  (padZeros d d (intToString (Z.of_N (m mod scale)))) in
      match d, fp with
      | O, _ | _, EmptyString => ip
      | _, _ => ip +:+ "." +:+ fp
      end
  end.

(** ** Objects *)

(** A plain object: its own enumerable string-keyed properties, in
    property order.  An object holds a key once; in a list that repeats a
    key, the first entry is the property. *)
Definition obj (V : Type) : Type := list (string * V).

Fixpoint get {V} (o : obj V) (key : string) : option V :=
  match o with
  | [] => None
  | (k, v) :: rest => if decide (k = key) then Some v else get rest key
  end.

(** [o[key] = v]: overwrite in place, or add as the last property. *)
Fixpoint set {V} (o : obj V) (key : string) (v : V) : obj V :=
  match o with
  | [] => [(key, v)]
  | (k, w) :: rest =>
      if decide (k = key) then (k, v) :: rest else (k, w) :: set rest key v
  end.

(** The rest pattern [{ key, ...others } = o]: [o] without [key]. *)
Definition without {V} (key : string) (o : obj V) : obj V :=
  filter (λ kv, kv.1 ≠ key) o.

(** [Object.keys(o)] *)
Definition keys {V} (o : obj V) : list string := o.*1.

(** [o.key] / [o[key]] on an object of values: [undefined] when absent. *)
Definition prop (o : obj jsval) (key : string) : jsval :=
  default JUndefined (get o key).

(** [Array.prototype.sort()] without a comparator on an array of strings:
    ascending order of code units. *)
Definition sort (l : list string) : list string := merge_sort String.le l.

End Js.

Export Js (jsval(..)).
Abbreviation jsobj := (Js.obj jsval).

(* ===================================================================== *)
(** * Node's [Buffer] and [crypto] *)
(* ===================================================================== *)

Module Node.

(** A [Buffer] is a sequence of octets. *)
Definition Buffer : Type := list ascii.

(** UTF-8 encoding of one code unit below 256. *)
Definition utf8Unit (c : ascii) : Buffer :=
  let n := N_of_ascii c in
  if (n <? 128)%N then [c]
  else [ascii_of_N (N.lor 192 (N.shiftr n 6));
        ascii_of_N (N.lor 128 (N.land n 63))].

(** [Buffer.from(s)] and the ['utf8'] input encoding of [update]. *)
Fixpoint utf8Encode (s : string) : Buffer :=
  match s with
  | EmptyString => []
  | String c s' => utf8Unit c ++ utf8Encode s'
  end.

Definition hexValue (c : ascii) : option N :=
  let n := N_of_ascii c in
  if ((48 <=? n) && (n <=? 57))%N then Some (n - 48)%N
  else if ((65 <=? n) && (n <=? 70))%N then Some (n - 55)%N
  else if ((97 <=? n) && (n <=? 102))%N then Some (n - 87)%N
  else None.

(** [Buffer.from(s, 'hex')]: pairs of hex digits, up to the first pair
    that is not one; an odd last character is dropped. *)
Fixpoint fromHex (s : string) : Buffer :=
  match s with
  | String a (String b rest) =>
      match hexValue a, hexValue b with
      | Some x, Some y => ascii_of_N (16 * x + y) :: fromHex rest
      | _, _ => []
      end
  | _ => []
  end.

Definition hexDigit (n : N) : ascii :=
  if (n <? 10)%N then ascii_of_N (48 + n) else ascii_of_N (87 + n).

Fixpoint hexDigits (count : nat) (d : N) (acc : string) : string :=
  match count with
  | O => acc
  | S count' => hexDigits count' (d / 16)%N (String (hexDigit (d mod 16)%N) acc)
  end.

(** [.digest('hex')] of a digest of [bytes] octets, the digest read as a
    big-endian number: [2 * bytes] lower-case hex digits. *)
Definition digestHex (bytes : nat) (d : N) : string :=
  hexDigits (2 * bytes) (d mod 2 ^ (8 * N.of_nat bytes))%N EmptyString.
Global Arguments digestHex : simpl never.

Definition upperChar (c : ascii) : ascii :=
  let n := N_of_ascii c in
  if ((97 <=? n) && (n <=? 122))%N then ascii_of_N (n - 32) else c.

(** [String.prototype.toUpperCase], on the ASCII letters (the services
    apply it to hex digests). *)
Fixpoint toUpperCase (s : string) : string :=
  match s with
  | EmptyString => EmptyString
  | String c s' => String (upperChar c) (toUpperCase s')
  end.

(** [crypto.timingSafeEqual(a, b)] *)
Definition timingSafeEqual (a b : Buffer) : Exc bool :=
  if decide (length a = length b) then Ok (bool_decide (a = b))
  else Throw (RangeError "Input buffers must have the same byte length").

(** The digest functions of [crypto], each returning the digest as a
    number: [createHash('md5')] (16 octets) and
    [createHmac('sha256', key)] (32 octets). *)
Class Crypto : Type := {
  md5 : Buffer → N;
  hmac_sha256 : Buffer → Buffer → N
}.

End Node.

(* ===================================================================== *)
(** * hash.util.ts *)
(* ===================================================================== *)

Module MigsHashUtil.
Import Node.

(** [enum VpcSecureHashType { MD5 = 'MD5', SHA256 = 'SHA256' }] *)
Inductive VpcSecureHashType : Type := MD5 | SHA256.

(** The string value of an enum member, as it is at run time. *)
Definition hashTypeValue (t : VpcSecureHashType) : jsval :=
  match t with
  | MD5 => JString "MD5"
  | SHA256 => JString "SHA256"
  end.

(** An object of the declared parameter type [Record<string, string |
    null>], as the value it is at run time. *)
Definition ofRecord (parameters : Js.obj (option string)) : jsobj :=
  map (λ '(key, value), (key, from_option JString JNull value)) parameters.

(** A value that is [null], [undefined] or a string of white space only. *)
Definition isBlank (value : jsval) : bool :=
  match value with
  | JNull | JUndefined => true
  | JString s => Js.allWhiteSpace s
  | JNumber _ _ => false
  end.

(** [value.trim()]: a method call on a value that is not a string throws. *)
Definition callTrim (value : jsval) : Exc string :=
  match value with
  | JString s => Ok (Js.trim s)
  | _ => Throw (TypeError "value.trim is not a function")
  end.

(** The body of [Object.keys(parameters).forEach(key => ...)], run over
    the remaining [keys] with the [filteredParams] built so far. *)
Fixpoint filterParams (parameters : jsobj) (keys : list string)
    (filteredParams : Js.obj string) : Exc (Js.obj string) :=
  match keys with
  | [] => Ok filteredParams
  | key :: rest =>
      let value := Js.prop parameters key in
      if bool_decide (key ≠ "vpc_SecureHash")
         && bool_decide (key ≠ "vpc_SecureHashType")
         && negb (Js.strictEq value JNull)
         && negb (Js.strictEq value JUndefined)
      then
        trimmed ← callTrim value;
        if (0 <? String.length trimmed)%nat
        then filterParams parameters rest (Js.set filteredParams key trimmed)
        else filterParams parameters rest filteredParams
      else filterParams parameters rest filteredParams
  end.

(** The loop in closed form, used to reason about it: the test of the
    [if], the entry a property contributes, and whether [trim] is called
    on a value that is not a string. *)
Definition included (key : string) (value : jsval) : bool :=
  bool_decide (key ≠ "vpc_SecureHash")
  && bool_decide (key ≠ "vpc_SecureHashType")
  && negb (Js.strictEq value JNull)
  && negb (Js.strictEq value JUndefined).

Definition keptEntry (entry : string * jsval) : option (string * string) :=
  let '(key, value) := entry in
  match value with
  | JString s =>
      if included key value && (0 <? String.length (Js.trim s))%nat
      then Some (key, Js.trim s) else None
  | _ => None
  end.

Definition trimFails (entry : string * jsval) : bool :=
  let '(key, value) := entry in
  included key value
  && match value with JString _ => false | _ => true end.

(** [filteredParams[key]] for a key of [filteredParams] *)
Definition valueOf (filteredParams : Js.obj string) (key : string) : string :=
  default "undefined" (Js.get filteredParams key).

(** A string value as the filter loop reads it: trimmed. *)
Definition trimValue (value : jsval) : jsval :=
  match value with
  | JString s => JString (Js.trim s)
  | _ => value
  end.

(** The object with every string value trimmed. *)
Definition trimValues (parameters : jsobj) : jsobj :=
  map (λ '(key, value), (key, trimValue value)) parameters.

(** The characters of an upper-case hex string: 0-9 and A-F. *)
Definition isUpperHex (c : ascii) : bool :=
  let n := N_of_ascii c in
  ((48 <=? n) && (n <=? 57) || (65 <=? n) && (n <=? 70))%N.

Fixpoint allUpperHex (s : string) : bool :=
  match s with
  | EmptyString => true
  | String c s' => isUpperHex c && allUpperHex s'
  end.

Section with_crypto.
Context `{crypto : Crypto}.

Definition generateSecureHash (parameters : jsobj) (vpcSecureSecret : string)
    (hashType : jsval) : Exc string :=
  filteredParams ← filterParams parameters (Js.keys parameters) [];
  let sortedKeys := Js.sort (Js.keys filteredParams) in
  if Js.strictEq hashType (hashTypeValue MD5) then
    let valueString := Js.join EmptyString (map (valueOf filteredParams) sortedKeys) in
    let inputString := vpcSecureSecret +:+ valueString in
    Ok (toUpperCase (digestHex 16 (md5 (utf8Encode inputString))))
  else if Js.strictEq hashType (hashTypeValue SHA256) then
    let queryString :=
      Js.join "&" (map (λ key, key +:+ "=" +:+ valueOf filteredParams key)
                       sortedKeys) in
    let secretBytes := fromHex vpcSecureSecret in
    Ok (toUpperCase (digestHex 32 (hmac_sha256 secretBytes (utf8Encode queryString))))
  else Throw (Error ("Unsupported hash type: " +:+ Js.toString hashType)).

(** The default parameter [hashType = VpcSecureHashType.SHA256] applies
    when the argument is [undefined]. *)
Definition verifySecureHash (parameters : jsobj) (vpcSecureSecret : string)
    (hashType : jsval) : Exc bool :=
  let hashType :=
    match hashType with JUndefined => hashTypeValue SHA256 | _ => hashType end in
  let providedHash := Js.prop parameters "vpc_SecureHash" in
  if negb (Js.truthy providedHash) then Ok false
  else
    calculatedHash ← generateSecureHash parameters vpcSecureSecret hashType;
    Ok (Js.strictEq (JString calculatedHash) providedHash).

End with_crypto.

End MigsHashUtil.

(* ===================================================================== *)
(** * payment.service.ts (MIGS) *)
(* ===================================================================== *)

Module PaymentService.
Import Node MigsHashUtil.

(** [models/payment-transaction.model.ts] *)
Inductive TransactionStatus : Type :=
| PENDING | SUCCESS | FAILED | CANCELLED | REFUNDED | PARTIALLY_REFUNDED.

Global Instance TransactionStatus_eq_dec : EqDecision TransactionStatus.
Proof. solve_decision. Defined.

Definition statusValue (s : TransactionStatus) : string :=
  match s with
  | PENDING => "pending"
  | SUCCESS => "success"
  | FAILED => "failed"
  | CANCELLED => "cancelled"
  | REFUNDED => "refunded"
  | PARTIALLY_REFUNDED => "partially_refunded"
  end.

(** A row of [payment_transactions]: the columns the operations below read
    or write.  [amount] and [refundedAmount] count hundredths; the dates
    are milliseconds since the epoch. *)
Record PaymentTransaction : Type := {
  id : string;
  merchantTxnRef : string;
  transactionId : jsval;
  orderInfo : string;
  amount : Z;
  currency : string;
  status : TransactionStatus;
  responseCode : jsval;
  responseMessage : jsval;
  authCode : jsval;
  receiptNo : jsval;
  batchNo : jsval;
  gatewayResponse : option jsobj;
  refundedAmount : Z;
  processedAt : option Z;
  createdAt : Z
}.

(** The table, in row order. *)
Definition Table : Type := list PaymentTransaction.

(** [paymentModel.findByPk(paymentId)] *)
Definition findByPk (paymentId : string) (db : Table) : option PaymentTransaction :=
  List.find (λ t, bool_decide (id t = paymentId)) db.

(** [paymentModel.findOne({ where: { merchantTxnRef: ref } })]: only a
    string can equal the column. *)
Definition findOneByMerchantTxnRef (ref : jsval) (db : Table)
    : option PaymentTransaction :=
  List.find (λ t, bool_decide (JString (merchantTxnRef t) = ref)) db.

(** [instance.update(values)]: the row of that primary key is rewritten. *)
Definition update (instance : PaymentTransaction)
    (values : PaymentTransaction → PaymentTransaction) (db : Table) : Table :=
  map (λ t, if decide (id t = id instance) then values t else t) db.

(** [instance.reload()] *)
Definition reload (instance : PaymentTransaction) (db : Table) : PaymentTransaction :=
  default instance (findByPk (id instance) db).

(** [dto/payment.dto.ts] *)
Record RefundPaymentDto : Type := {
  paymentId : string;
  refund_amount : Z;
  reason : option string
}.

(** [interfaces/payment.interface.ts] *)
Record MigsConfiguration : Type := {
  merchantId : string;
  accessCode : string;
  secureSecret : string;
  gatewayUrl : string;
  config_currency : string;
  returnUrl : string;
  gatewayQueryUrl : string
}.

(** What [Date.now()] and [uuidv4()] return during one call. *)
Record Env : Type := { now : Z; uuid : string }.

(** ** The HTTP exchange with the gateway *)

(** [response.data] as axios delivers it: the body text, or the value it
    parsed from a JSON body (an object, or [null]). *)
Inductive ResponseData : Type :=
| DataString (s : string)
| DataObject (o : jsobj)
| DataNull.

Record AxiosResponse : Type := {
  http_status : Z;
  statusText : string;
  http_data : ResponseData
}.

(** What the network does with one request: an HTTP response, or a
    failure with axios' [code] and [message]. *)
Inductive AxiosOutcome : Type :=
| Responded (response : AxiosResponse)
| Failed (code message : string).

(** The gateway, as seen from the client: URL and form fields in,
    outcome out. *)
Definition Gateway : Type := string → list (string * string) → AxiosOutcome.

(** [axios.post(url, body, { validateStatus })]: a response whose status
    [validateStatus] refuses is thrown as an [AxiosError]. *)
Definition axiosPost (validateStatus : Z → bool) (outcome : AxiosOutcome)
    : Exc AxiosResponse :=
  match outcome with
  | Failed code message => Throw (AxiosError code message)
  | Responded response =>
      if validateStatus (http_status response) then Ok response
      else Throw (AxiosError
                    (if http_status response / 100 =? 4
                     then "ERR_BAD_REQUEST" else "ERR_BAD_RESPONSE")
                    ("Request failed with status code "
                       +:+ Js.intToString (http_status response)))
  end.

(** Percent-decoding of [%XX] escapes (the octets are kept as code units,
    which is exact for ASCII text). *)
Fixpoint percentDecode (s : string) : string :=
  match s with
  | EmptyString => EmptyString
  | String c s' =>
      let keep := String c (percentDecode s') in
      if decide (c = "%"%char) then
        match s' with
        | String a (String b rest) =>
            match hexValue a, hexValue b with
            | Some x, Some y => String (ascii_of_N (16 * x + y)) (percentDecode rest)
            | _, _ => keep
            end
        | _ => keep
        end
      else keep
  end.

Fixpoint plusToSpace (s : string) : string :=
  match s with
  | EmptyString => EmptyString
  | String c s' =>
      String (if decide (c = "+"%char) then " "%char else c) (plusToSpace s')
  end.

Definition formDecode (s : string) : string := percentDecode (plusToSpace s).

(** [new URLSearchParams(init).entries()]: the application/x-www-form-
    urlencoded parser. *)
Definition URLSearchParams (init : string) : list (string * string) :=
  let init := match init with
              | String "?" rest => rest
              | _ => init
              end in
  omap (λ segment,
          if decide (segment = EmptyString) then None
          else let '(name, value) := Js.splitFirst "=" segment in
               Some (formDecode name, formDecode (default EmptyString value)))
       (Js.split "&" init).

(** [/^\d+$/.test(value)] *)
Definition isInteger (value : string) : bool :=
  negb (bool_decide (value = EmptyString)) && Js.allDigits value.

(** [/^\d+\.\d+$/.test(value)], with the two digit groups *)
Definition isDecimal (value : string) : option (string * string) :=
  match Js.splitFirst "." value with
  | (ip, Some fp) => if isInteger ip && isInteger fp then Some (ip, fp) else None
  | _ => None
  end.

(** The loop body of [parseResponse]: numeric-looking values become
    numbers. *)
Definition parseValue (value : string) : jsval :=
  if isInteger value then JNumber (Js.digitsValue 0 value) 0
  else match isDecimal value with
       | Some (ip, fp) => JNumber (Js.digitsValue 0 (ip +:+ fp)) (String.length fp)
       | None => JString value
       end.

Definition parseResponse (responseString : string) : Exc jsobj :=
  Ok (foldl (λ result '(key, value), Js.set result key (parseValue value))
            [] (URLSearchParams responseString)).

(** ** Creating a payment *)

(** [dto/payment.dto.ts]; [dto_amount] counts hundredths. *)
Record CreatePaymentDto : Type := {
  dto_orderInfo : string;
  dto_amount : Z;
  dto_currency : option string;
  dto_customerEmail : option string;
  dto_customerPhone : option string;
  dto_returnUrl : option string
}.

(** [@Min(0.01)] on the [amount] of both DTOs, as the controller's
    [ValidationPipe] enforces it. *)
Definition validCreatePaymentDto (paymentData : CreatePaymentDto) : Prop :=
  1 ≤ dto_amount paymentData.

Definition validRefundPaymentDto (refundData : RefundPaymentDto) : Prop :=
  1 ≤ refund_amount refundData.

(** The columns [createPayment] writes that [PaymentTransaction] leaves
    out; no other operation reads them. *)
Record CreationColumns : Type := {
  customerEmail : option string;
  customerPhone : option string;
  row_returnUrl : string;
  clientIp : option string;
  vpcData : jsobj
}.

(** [interfaces/payment.interface.ts]: what [createPayment] returns, the
    new row being split into [transaction] and [columns]. *)
Record PaymentCreationResponse : Type := {
  paymentUrl : string;
  transaction : PaymentTransaction;
  columns : CreationColumns
}.

(** What one call of [createPayment] draws from outside: the clock, the
    UUID that becomes the row's [id], the one [generateTxnRef] uses, and
    the error, if any, with which the database refuses the values of the
    new row (a text too long for its column, an amount out of range). *)
Record CreateEnv : Type := {
  create_now : Z;
  create_id : string;
  create_uuid : string;
  create_refusal : option string
}.

(** [a || b] on an optional string *)
Definition orElse (a : option string) (b : string) : string :=
  match a with
  | Some s => if decide (s = EmptyString) then b else s
  | None => b
  end.

(** ** URL encoding *)

(** The characters [encodeURIComponent] leaves as they are: letters,
    digits and [- _ . ! ~ * ' ( )]. *)
Definition isUnreserved (c : ascii) : bool :=
  let n := N_of_ascii c in
  ((65 <=? n) && (n <=? 90) || (97 <=? n) && (n <=? 122)
   || (48 <=? n) && (n <=? 57)
   || bool_decide (n ∈ [45; 95; 46; 33; 126; 42; 39; 40; 41]))%N.

Definition upperHexDigit (n : N) : ascii :=
  if (n <? 10)%N then ascii_of_N (48 + n) else ascii_of_N (55 + n).

(** [%XX] for one octet *)
Definition percentEncode (octet : ascii) : string :=
  let n := N_of_ascii octet in
  String "%" (String (upperHexDigit (n / 16)) (String (upperHexDigit (n mod 16))
                                                      EmptyString)).

(** [encodeURIComponent]: every other code unit becomes the escapes of its
    UTF-8 octets. *)
Fixpoint encodeURIComponent (s : string) : string :=
  match s with
  | EmptyString => EmptyString
  | String c s' =>
      (if isUnreserved c then String c EmptyString
       else Js.join EmptyString (map percentEncode (utf8Unit c)))
        +:+ encodeURIComponent s'
  end.

(** A code unit below 128. *)
Definition isAscii (c : ascii) : bool := (N_of_ascii c <? 128)%N.

Fixpoint allAscii (s : string) : bool :=
  match s with
  | EmptyString => true
  | String c s' => isAscii c && allAscii s'
  end.

(** The characters of an encoded component: the unreserved ones and [%]. *)
Definition isEncoded (c : ascii) : bool :=
  isUnreserved c || bool_decide (c = "%"%char).

Fixpoint allEncoded (s : string) : bool :=
  match s with
  | EmptyString => true
  | String c s' => isEncoded c && allEncoded s'
  end.

(** A gateway that never answers with a parsed JSON value: every answer
    is a body text or a network failure. *)
Definition answersWithText (gateway : Gateway) : Prop :=
  ∀ url form,
    match gateway url form with
    | Responded response =>
        match http_data response with
        | DataString _ => True
        | _ => False
        end
    | Failed _ _ => True
    end.

Section with_config.
Context `{crypto : Crypto} (config : MigsConfiguration).

Definition vpcSecureAlgo : VpcSecureHashType := SHA256.

(** [makeApiCall]: the form holds the non-null, non-empty values of
    [data]; the [catch] block rewrites whatever the [try] block threw. *)
Definition makeApiCall (data : jsobj) (gateway : Gateway) : Exc (option jsobj) :=
  let formData :=
    omap (λ '(key, value),
            if negb (bool_decide (value = JNull) || bool_decide (value = JUndefined))
               && negb (Js.strictEq value (JString EmptyString))
            then Some (key, Js.toString value) else None) data in
  tryCatch
    (response ← axiosPost (λ status, status <? 500)
                          (gateway (gatewayQueryUrl config) formData);
     if 400 <=? http_status response then
       Throw (ServiceUnavailableException
                ("Gateway returned error status: "
                   +:+ Js.intToString (http_status response)))
     else
       match http_data response with
       | DataString s =>
           if Js.includes "=" s && (Js.includes "&" s || negb (Js.includes " " s))
           then parsed ← parseResponse s; Ok (Some parsed)
           else Ok (Some [("rawResponse", JString s)])
       | DataObject o => Ok (Some o)
       | DataNull => Ok None
       end)
    (λ error,
       match error with
       | AxiosError code message =>
           if decide (code = "ECONNABORTED") then
             Throw (GatewayTimeoutException "Gateway request timed out")
           else if decide (code = "ENOTFOUND" ∨ code = "ECONNREFUSED") then
             Throw (ServiceUnavailableException "Gateway service is not reachable")
           else
             Throw (ServiceUnavailableException
                      ("Gateway communication failed: " +:+ message))
       | _ =>
           Throw (ServiceUnavailableException
                    "Unexpected error during gateway communication")
       end).

(** [processQueryResponse]: [response] is what [makeApiCall] returned,
    an object or [null]. *)
Definition processQueryResponse (response : option jsobj) : Exc jsobj :=
  match response with
  | None => Throw (ServiceUnavailableException "Empty response received from gateway")
  | Some response =>
      let vpc_SecureHashType := Js.prop response "vpc_SecureHashType" in
      let dataForHash :=
        Js.without "vpc_SecureHashType" (Js.without "vpc_SecureHash" response) in
      if Js.truthy (Js.prop response "vpc_SecureHash") then
        isValidHash ← verifySecureHash dataForHash (secureSecret config)
                                       vpc_SecureHashType;
        if negb isValidHash
        then Throw (ServiceUnavailableException "Response validation failed")
        else Ok response
      else Ok response
  end.

(** ** The transactional operations *)

(** [const transaction = await this.sequelize.transaction(); try { ...;
    await transaction.commit() } catch (error) { await
    transaction.rollback(); throw ... }]: the body's writes are kept when
    it returns and dropped when it throws; [rethrow] is what the [catch]
    block throws. *)
Definition inTransaction {A} (db : Table) (body : Exc (A * Table))
    (rethrow : Exception → Exception) : Exc A * Table :=
  match body with
  | Ok (a, db') => (Ok a, db')
  | Throw error => (Throw (rethrow error), db)
  end.

(** [processPaymentResponse], "Determine transaction status based on
    response code" *)
Definition transactionStatusOf (vpc_TxnResponseCode : jsval) : TransactionStatus :=
  if Js.strictEq vpc_TxnResponseCode (JString "0") then SUCCESS else FAILED.

Definition processPaymentResponse (responseData : jsobj) (env : Env) (db : Table)
    : Exc PaymentTransaction * Table :=
  inTransaction db
    (isValidHash ← verifySecureHash responseData (secureSecret config)
                                    (hashTypeValue vpcSecureAlgo);
     if negb isValidHash then
       Throw (BadRequestException
                "Invalid secure hash - response integrity compromised")
     else
       match findOneByMerchantTxnRef (Js.prop responseData "vpc_MerchTxnRef") db with
       | None =>
           Throw (NotFoundException
                    ("Transaction not found: "
                       +:+ Js.toString (Js.prop responseData "vpc_MerchTxnRef")))
       | Some paymentTransaction =>
           let transactionStatus :=
             transactionStatusOf (Js.prop responseData "vpc_TxnResponseCode") in
           let updateData (t : PaymentTransaction) :=
             {| id := id t; merchantTxnRef := merchantTxnRef t;
                transactionId := Js.prop responseData "vpc_TransactionNo";
                orderInfo := orderInfo t; amount := amount t;
                currency := currency t;
                status := transactionStatus;
                responseCode := Js.prop responseData "vpc_TxnResponseCode";
                responseMessage := Js.prop responseData "vpc_Message";
                authCode := Js.prop responseData "vpc_AuthorizeId";
                receiptNo := Js.prop responseData "vpc_ReceiptNo";
                batchNo := Js.prop responseData "vpc_BatchNo";
                gatewayResponse := Some responseData;
                refundedAmount := refundedAmount t;
                processedAt := Some (now env);
                createdAt := createdAt t |} in
           let db' := update paymentTransaction updateData db in
           Ok (reload paymentTransaction db', db')
       end)
    (λ error, error).

Definition cancelPayment (paymentId : string) (env : Env) (db : Table)
    : Exc PaymentTransaction * Table :=
  inTransaction db
    (match findByPk paymentId db with
     | None => Throw (NotFoundException ("Payment not found: " +:+ paymentId))
     | Some paymentTransaction =>
         if decide (status paymentTransaction ≠ PENDING) then
           Throw (BadRequestException
                    ("Payment cannot be cancelled - current status: "
                       +:+ statusValue (status paymentTransaction)))
         else
           let values (t : PaymentTransaction) :=
             {| id := id t; merchantTxnRef := merchantTxnRef t;
                transactionId := transactionId t;
                orderInfo := orderInfo t; amount := amount t;
                currency := currency t;
                status := CANCELLED;
                responseCode := responseCode t;
                responseMessage := responseMessage t;
                authCode := authCode t; receiptNo := receiptNo t;
                batchNo := batchNo t;
                gatewayResponse := gatewayResponse t;
                refundedAmount := refundedAmount t;
                processedAt := Some (now env);
                createdAt := createdAt t |} in
           let db' := update paymentTransaction values db in
           Ok (reload paymentTransaction db', db')
     end)
    (λ error, error).

(** A two-decimal amount printed as a JavaScript number. *)
Definition amountToString (hundredths : Z) : string :=
  (if hundredths <? 0 then "-" else EmptyString)
    +:+ Js.toString (JNumber (Z.abs_N hundredths) 2).

(** [`REF_${Date.now()}_${uuidv4().substring(0, 8).toUpperCase()}`] *)
Definition generateRefundTxnRef (env : Env) : string :=
  "REF_" +:+ Js.intToString (now env) +:+ "_"
    +:+ toUpperCase (Js.substring 0 8 (uuid env)).

Definition refundPayment (refundData : RefundPaymentDto) (env : Env)
    (gateway : Gateway) (db : Table) : Exc PaymentTransaction * Table :=
  inTransaction db
    (match findByPk (paymentId refundData) db with
     | None =>
         Throw (NotFoundException ("Payment not found: " +:+ paymentId refundData))
     | Some paymentTransaction =>
         if decide (status paymentTransaction ≠ SUCCESS) then
           Throw (BadRequestException
                    ("Payment not eligible for refund - current status: "
                       +:+ statusValue (status paymentTransaction)))
         else
           let availableAmount :=
             amount paymentTransaction - refundedAmount paymentTransaction in
           if refund_amount refundData >? availableAmount then
             Throw (BadRequestException
                      ("Refund amount (" +:+ amountToString (refund_amount refundData)
                         +:+ ") exceeds available amount ("
                         +:+ amountToString availableAmount +:+ ")"))
           else
             let refundTxnRef := generateRefundTxnRef env in
             let vpcData : jsobj :=
               [("vpc_Version", JString "1");
                ("vpc_Command", JString "refund");
                ("vpc_AccessCode", JString (accessCode config));
                ("vpc_MerchTxnRef", JString refundTxnRef);
                ("vpc_Merchant", JString (merchantId config));
                ("vpc_TransactionNo", transactionId paymentTransaction);
                ("vpc_TransNo", transactionId paymentTransaction);
                ("vpc_Amount", JString (Js.intToString (refund_amount refundData)))] in
             secureHash ← generateSecureHash vpcData (secureSecret config)
                                             (hashTypeValue vpcSecureAlgo);
             let vpcData := Js.set vpcData "vpc_SecureHash" (JString secureHash) in
             let vpcData :=
               Js.set vpcData "vpc_SecureHashType" (hashTypeValue vpcSecureAlgo) in
             response ← makeApiCall vpcData gateway;
             (* [processQueryResponse] returns [response] itself *)
             response ← processQueryResponse response;
             if Js.strictEq (Js.prop response "vpc_TxnResponseCode") (JString "0")
             then
               let newRefundedAmount :=
                 refundedAmount paymentTransaction + refund_amount refundData in
               let newStatus :=
                 if newRefundedAmount >=? amount paymentTransaction
                 then REFUNDED else PARTIALLY_REFUNDED in
               let values (t : PaymentTransaction) :=
                 {| id := id t; merchantTxnRef := merchantTxnRef t;
                    transactionId := transactionId t;
                    orderInfo := orderInfo t; amount := amount t;
                    currency := currency t;
                    status := newStatus;
                    responseCode := responseCode t;
                    responseMessage := responseMessage t;
                    authCode := authCode t; receiptNo := receiptNo t;
                    batchNo := batchNo t;
                    gatewayResponse := gatewayResponse t;
                    refundedAmount := newRefundedAmount;
                    processedAt := processedAt t;
                    createdAt := createdAt t |} in
               let db' := update paymentTransaction values db in
               Ok (reload paymentTransaction db', db')
             else Ok (reload paymentTransaction db, db)
     end)
    (λ _, BadRequestException "Refund processing failed").

(** [queryPaymentByTxnRef]; the [catch] block logs and rethrows. *)
Definition queryPaymentByTxnRef (merchantTxnRef : string) (gateway : Gateway)
    (db : Table) : Exc jsobj :=
  if negb (Js.truthy (JString merchantTxnRef)) then
    Throw (BadRequestException
             "Merchant Transaction Reference is required and must be a string")
  else
    let trimmedRef := Js.trim merchantTxnRef in
    if decide (String.length trimmedRef = 0%nat) then
      Throw (BadRequestException "Merchant Transaction Reference cannot be empty")
    else if decide (String.length trimmedRef < 5 ∨ 50 < String.length trimmedRef)%nat
    then
      Throw (BadRequestException "Merchant Transaction Reference has invalid length")
    else
      match findOneByMerchantTxnRef (JString trimmedRef) db with
      | None => Throw (NotFoundException "Merchant Transaction Reference Id is Invalid")
      | Some transaction =>
          let vpcData : jsobj :=
            [("vpc_Version", JString "1");
             ("vpc_Command", JString "queryDR");
             ("vpc_AccessCode", JString (accessCode config));
             ("vpc_MerchTxnRef", JString trimmedRef);
             ("vpc_Merchant", JString (merchantId config));
             ("vpc_Locale", JString "en");
             ("vpc_Gateway", JString "ssl")] in
          secureHash ← generateSecureHash vpcData (secureSecret config)
                                          (hashTypeValue vpcSecureAlgo);
          let vpcData := Js.set vpcData "vpc_SecureHash" (JString secureHash) in
          let vpcData :=
            Js.set vpcData "vpc_SecureHashType" (hashTypeValue vpcSecureAlgo) in
          response ← makeApiCall vpcData gateway;
          processQueryResponse response
      end.


(** [getPaymentStatus] *)
Definition getPaymentStatus (paymentId : string) (db : Table) : Exc PaymentTransaction :=
  match findByPk paymentId db with
  | None => Throw (NotFoundException ("Payment not found: " +:+ paymentId))
  | Some paymentTransaction => Ok paymentTransaction
  end.

(** [buildPaymentUrl]; on strings of code units [encodeURIComponent] does
    not throw, so the [catch] block is never entered. *)
Definition buildPaymentUrl (params : jsobj) : string :=
  let query :=
    Js.join "&"
      (map (λ '(key, value),
              encodeURIComponent key +:+ "=" +:+ encodeURIComponent (Js.toString value))
           (filter (λ '(key, value), value ≠ JNull ∧ value ≠ JUndefined) params)) in
  gatewayUrl config +:+ "?" +:+ query.

(** [`MIGS_${Date.now()}_${uuidv4().substring(0, 8).toUpperCase()}`] *)
Definition generateTxnRef (env : CreateEnv) : string :=
  "MIGS_" +:+ Js.intToString (create_now env) +:+ "_"
    +:+ toUpperCase (Js.substring 0 8 (create_uuid env)).

(** The parameters [createPayment] signs. *)
Definition paymentVpcData (paymentData : CreatePaymentDto) (merchantTxnRef : string)
    : jsobj :=
  [("vpc_Version", JString "1");
   ("vpc_Command", JString "pay");
   ("vpc_AccessCode", JString (accessCode config));
   ("vpc_MerchTxnRef", JString merchantTxnRef);
   ("vpc_Merchant", JString (merchantId config));
   ("vpc_OrderInfo", JString (dto_orderInfo paymentData));
   ("vpc_Amount", JString (Js.intToString (dto_amount paymentData)));
   ("vpc_ReturnURL", JString (returnUrl config));
   ("vpc_Locale", JString "en");
   ("vpc_Gateway", JString "ssl")].

(** [createPayment].  [paymentModel.create] fails on the primary key, on
    the unique index of [merchant_txn_ref] and where the database refuses
    the values; otherwise the row is appended to the table. *)
Definition createPayment (paymentData : CreatePaymentDto) (clientIp : option string)
    (env : CreateEnv) (db : Table) : Exc PaymentCreationResponse * Table :=
  inTransaction db
    (let merchantTxnRef := generateTxnRef env in
     if bool_decide (create_id env ∈ id <$> db)
        || bool_decide (merchantTxnRef ∈ PaymentService.merchantTxnRef <$> db)
     then Throw (Error "Validation error")
     else if create_refusal env is Some message then Throw (Error message)
     else
       let paymentTransaction :=
         {| id := create_id env;
            merchantTxnRef := merchantTxnRef;
            transactionId := JNull;
            orderInfo := dto_orderInfo paymentData;
            amount := dto_amount paymentData;
            currency := orElse (dto_currency paymentData) (config_currency config);
            status := PENDING;
            responseCode := JNull;
            responseMessage := JNull;
            authCode := JNull;
            receiptNo := JNull;
            batchNo := JNull;
            gatewayResponse := None;
            refundedAmount := 0;
            processedAt := None;
            createdAt := create_now env |} in
       let vpcData := paymentVpcData paymentData merchantTxnRef in
       secureHash ← generateSecureHash vpcData (secureSecret config)
                                       (hashTypeValue vpcSecureAlgo);
       let vpcData := Js.set vpcData "vpc_SecureHash" (JString secureHash) in
       let vpcData :=
         Js.set vpcData "vpc_SecureHashType" (hashTypeValue vpcSecureAlgo) in
       let paymentUrl := buildPaymentUrl vpcData in
       Ok ({| paymentUrl := paymentUrl;
              transaction := paymentTransaction;
              columns :=
                {| customerEmail := dto_customerEmail paymentData;
                   customerPhone := dto_customerPhone paymentData;
                   row_returnUrl :=
                     orElse (dto_returnUrl paymentData) (returnUrl config);
                   clientIp := clientIp;
                   vpcData := vpcData |} |},
           db ++ [paymentTransaction]))
    (λ error, error).

End with_config.

End PaymentService.

(* ===================================================================== *)
(** * payment-status-sync.processor.ts *)
(* ===================================================================== *)

Module PaymentStatusSyncProcessor.
Import Node PaymentService.

(** [job.data] *)
Record JobData : Type := {
  triggeredBy : option string;
  batchSize : option nat
}.

(** [interfaces/payment.interface.ts] *)
Record SyncError : Type := {
  error_merchantTxnRef : string;
  error : string;
  retryable : bool
}.

(** The object [handlePaymentStatusSync] returns ([processingTime], a
    difference of two clock readings, is left out). *)
Record SyncResult : Type := {
  processedCount : nat;
  updatedCount : nat;
  errorCount : nat;
  skippedCount : nat;
  errors : list SyncError
}.

Definition mapGatewayStatusToLocal (responseCode : jsval) : option TransactionStatus :=
  if Js.matchesCase responseCode ["0"] then Some SUCCESS
  else if Js.matchesCase responseCode ["1"; "2"; "3"; "4"; "5"; "6"; "7"]
  then Some FAILED
  else None.

(** The response codes that have a [case] in [mapGatewayStatusToLocal]. *)
Definition recognizedCodes : list jsval :=
  JString <$> ["0"; "1"; "2"; "3"; "4"; "5"; "6"; "7"].

Definition isRetryableError (e : Exception) : bool :=
  bool_decide (error_code e = Some "ECONNRESET")
  || bool_decide (error_code e = Some "ETIMEDOUT")
  || Js.includes "timeout" (error_message e)
  || match error_status e with
     | Some status => 500 <=? status
     | None => false
     end.

(** [order: [['createdAt', 'ASC']]] *)
Definition createdAtAsc (a b : PaymentTransaction) : Prop :=
  createdAt a ≤ createdAt b.

Global Instance createdAtAsc_dec : RelDecision createdAtAsc.
Proof. intros a b. unfold createdAtAsc. apply _. Defined.

(** [paymentModel.findAll({ where: { status: PENDING, createdAt: { [Op.lt]:
    fiveMinutesAgo } }, limit: batchSize, order: [['createdAt', 'ASC']] })] *)
Definition findAllPending (fiveMinutesAgo : Z) (limit : nat) (db : Table)
    : list PaymentTransaction :=
  take limit
    (merge_sort createdAtAsc
       (filter (λ t, status t = PENDING ∧ createdAt t < fiveMinutesAgo) db)).

Section with_config.
Context `{crypto : Crypto} (config : MigsConfiguration).

(** One turn of [for (const transaction of pendingTransactions)]:
    [transaction] is the instance read by [findAll]. *)
Definition syncOne (env : Env) (gateway : Gateway)
    (acc : SyncResult * Table) (transaction : PaymentTransaction)
    : SyncResult * Table :=
  let '(r, db) := acc in
  let processedCount := S (processedCount r) in
  match queryPaymentByTxnRef config (merchantTxnRef transaction) gateway db with
  | Ok gatewayResponse =>
      let gatewayStatus :=
        mapGatewayStatusToLocal (Js.prop gatewayResponse "vpc_TxnResponseCode") in
      match gatewayStatus with
      | Some newStatus =>
          if decide (newStatus ≠ status transaction) then
            let values (t : PaymentTransaction) :=
              {| id := id t; merchantTxnRef := merchantTxnRef t;
                 transactionId := Js.prop gatewayResponse "vpc_TransactionNo";
                 orderInfo := orderInfo t; amount := amount t;
                 currency := currency t;
                 status := newStatus;
                 responseCode := Js.prop gatewayResponse "vpc_TxnResponseCode";
                 responseMessage := Js.prop gatewayResponse "vpc_Message";
                 authCode := Js.prop gatewayResponse "vpc_AuthorizeId";
                 receiptNo := Js.prop gatewayResponse "vpc_ReceiptNo";
                 batchNo := batchNo t;
                 gatewayResponse := PaymentService.gatewayResponse t;
                 refundedAmount := refundedAmount t;
                 processedAt := Some (now env);
                 createdAt := createdAt t |} in
            ({| processedCount := processedCount;
                updatedCount := S (updatedCount r);
                errorCount := errorCount r;
                skippedCount := skippedCount r;
                errors := errors r |},
             update transaction values db)
          else
            ({| processedCount := processedCount;
                updatedCount := updatedCount r;
                errorCount := errorCount r;
                skippedCount := S (skippedCount r);
                errors := errors r |}, db)
      | None =>
          ({| processedCount := processedCount;
              updatedCount := updatedCount r;
              errorCount := errorCount r;
              skippedCount := S (skippedCount r);
              errors := errors r |}, db)
      end
  | Throw e =>
      ({| processedCount := processedCount;
          updatedCount := updatedCount r;
          errorCount := S (errorCount r);
          skippedCount := skippedCount r;
          errors := errors r ++
                    [{| error_merchantTxnRef := merchantTxnRef transaction;
                        error := error_message e;
                        retryable := isRetryableError e |}] |}, db)
  end.

(** [handlePaymentStatusSync]: one run of the worker at clock [now env]. *)
Definition handlePaymentStatusSync (job : JobData) (env : Env)
    (gateway : Gateway) (db : Table) : SyncResult * Table :=
  let fiveMinutesAgo := now env - 5 * 60 * 1000 in
  let batchSize := match batchSize job with
                   | Some (S n) => S n
                   | _ => 50%nat
                   end in
  let pendingTransactions := findAllPending fiveMinutesAgo batchSize db in
  foldl (syncOne env gateway)
        ({| processedCount := 0; updatedCount := 0; errorCount := 0;
            skippedCount := 0; errors := [] |}, db)
        pendingTransactions.

End with_config.

End PaymentStatusSyncProcessor.

(* ===================================================================== *)
(** * payment.controller.ts *)
(* ===================================================================== *)

Module PaymentController.
Import Node PaymentService.

(** What a handler throws: an exception of the service layer, or the
    controller's own [InternalServerErrorException]. *)
Inductive Raised : Type :=
| Service (e : Exception)
| InternalServerErrorException (message : string).

Section with_config.
Context `{crypto : Crypto} (config : MigsConfiguration).

(** [handleCallback]: the target of the 302 redirect.  [FRONTEND_URL] is
    the environment variable of that name. *)
Definition handleCallback (FRONTEND_URL : option string) (responseData : jsobj)
    (env : Env) (db : Table) : string * Table :=
  let frontendUrl := orElse FRONTEND_URL "http://localhost:5173" in
  match processPaymentResponse config responseData env db with
  | (Ok transaction, db') =>
      (if decide (status transaction = SUCCESS)
       then frontendUrl +:+ "/payment/success?ref=" +:+ merchantTxnRef transaction
              +:+ "&id=" +:+ id transaction
       else frontendUrl +:+ "/payment/failure?ref=" +:+ merchantTxnRef transaction
              +:+ "&id=" +:+ id transaction,
       db')
  | (Throw error, db') => (frontendUrl +:+ "/payment/error", db')
  end.

(** The [catch] block of [queryPayment] *)
Definition rethrowQueryError (error : Exception) : Raised :=
  match error with
  | BadRequestException _ | NotFoundException _ | ServiceUnavailableException _ =>
      Service error
  | _ =>
      if Js.includes "timeout" (error_message error) then
        Service (GatewayTimeoutException "Gateway request timed out")
      else if Js.includes "Gateway" (error_message error) then
        Service (ServiceUnavailableException "Gateway service temporarily unavailable")
      else InternalServerErrorException "Payment query failed due to internal error"
  end.

(** [queryPayment]: the [data] of the reply, or what the handler throws. *)
Definition queryPayment (merchantTxnRef : string) (gateway : Gateway) (db : Table)
    : jsobj + Raised :=
  let body :=
    if negb (Js.truthy (JString merchantTxnRef))
       || bool_decide (String.length (Js.trim merchantTxnRef) = 0%nat)
    then Throw (BadRequestException "Merchant transaction reference cannot be empty")
    else queryPaymentByTxnRef config (Js.trim merchantTxnRef) gateway db in
  match body with
  | Ok result => inl result
  | Throw error => inr (rethrowQueryError error)
  end.

End with_config.

End PaymentController.

(* ===================================================================== *)
(** * The Mashreq integration: meshreq.service.ts, payment.service.ts,
      webhook.controller.ts *)
(* ===================================================================== *)

Module Mashreq.
Import Node.

(** [database/models/transaction.model.ts] *)
Inductive TransactionStatus : Type :=
| PENDING | PROCESSING | SUCCESS | FAILED | CANCELLED | REFUNDED.

Global Instance TransactionStatus_eq_dec : EqDecision TransactionStatus.
Proof. solve_decision. Defined.

(** A row of [transactions]: the columns [updateTransactionStatus] reads
    or writes, and the order reference. *)
Record Transaction : Type := {
  id : string;
  order_id : string;
  mashreq_transaction_id : option string;
  status : TransactionStatus;
  mashreq_response : option jsobj
}.

(** [database/models/webhook-logs.model.ts] *)
Record WebhookLog : Type := {
  transaction_id : jsval;
  payload : jsobj;
  signature : string;
  processed : bool
}.

Record Database : Type := {
  transactions : list Transaction;
  webhook_logs : list WebhookLog
}.

(** The body of a webhook reply. *)
Inductive WebhookReply : Type :=
| ReplyOk
| ReplyError (message : string).

(** [transactionModel.findOne({ where: { mashreq_transaction_id:
    transactionId } })] *)
Definition findOneByMashreqId (transactionId : jsval) (rows : list Transaction)
    : option Transaction :=
  List.find
    (λ t, bool_decide (JString <$> mashreq_transaction_id t = Some transactionId))
    rows.

(** [PaymentService.updateTransactionStatus] *)
Definition updateTransactionStatus (transactionId : jsval)
    (status : TransactionStatus) (webhookData : option jsobj)
    (rows : list Transaction) : option Transaction * list Transaction :=
  match findOneByMashreqId transactionId rows with
  | None => (None, rows)
  | Some transaction =>
      let values (t : Transaction) :=
        {| id := id t; order_id := order_id t;
           mashreq_transaction_id := mashreq_transaction_id t;
           status := status;
           mashreq_response :=
             match webhookData with
             | Some w => Some w
             | None => mashreq_response transaction
             end |} in
      (Some (values transaction),
       map (λ t, if decide (id t = id transaction) then values t else t) rows)
  end.

(** The [switch (payload.status)] of [handleMashreqWebhook] *)
Definition internalStatusOf (status : jsval) : TransactionStatus :=
  if Js.matchesCase status ["payment.succeeded"; "transfer.completed"; "bill.paid"]
  then SUCCESS
  else if Js.matchesCase status ["payment.failed"; "transfer.failed"; "bill.failed"]
  then FAILED
  else if Js.matchesCase status ["payment.cancelled"] then CANCELLED
  else if Js.matchesCase status ["payment.refunded"] then REFUNDED
  else PENDING.

(** The status values that have a [case] in that [switch]. *)
Definition recognizedStatuses : list jsval :=
  JString <$> ["payment.succeeded"; "transfer.completed"; "bill.paid";
               "payment.failed"; "transfer.failed"; "bill.failed";
               "payment.cancelled"; "payment.refunded"].

Section with_config.
Context `{crypto : Crypto} (MASHREQ_WEBHOOK_SECRET : string).

(** [MashreqService.verifyWebhookSignature] *)
Definition verifyWebhookSignature (payload signature : string) : Exc bool :=
  let secret := MASHREQ_WEBHOOK_SECRET in
  let expectedSignature :=
    digestHex 32 (hmac_sha256 (utf8Encode secret) (utf8Encode payload)) in
  timingSafeEqual (utf8Encode signature) (utf8Encode expectedSignature).

(** [WebhookController.handleMashreqWebhook]; [rawBody] is the text of
    [req.rawBody], absent when the middleware did not capture it. *)
Definition handleMashreqWebhook (rawBody : option string) (signature : string)
    (payload : jsobj) (db : Database) : Exc WebhookReply * Database :=
  match rawBody with
  | None => (Ok (ReplyError "Missing raw body"), db)
  | Some rawBodys =>
      match verifyWebhookSignature rawBodys signature with
      | Throw e => (Throw e, db)
      | Ok false => (Ok (ReplyError "Invalid signature"), db)
      | Ok true =>
          let logs :=
            webhook_logs db ++
            [{| transaction_id := Js.prop payload "transaction_id";
                payload := payload;
                signature := signature;
                processed := false |}] in
          let internalStatus := internalStatusOf (Js.prop payload "status") in
          let '(_, rows) :=
            updateTransactionStatus (Js.prop payload "transaction_id")
                                    internalStatus (Some payload)
                                    (transactions db) in
          let logs :=
            map (λ l, if decide (transaction_id l = Js.prop payload "transaction_id")
                      then {| transaction_id := transaction_id l;
                              payload := Mashreq.payload l;
                              signature := Mashreq.signature l;
                              processed := true |}
                      else l) logs in
          (Ok ReplyOk, {| transactions := rows; webhook_logs := logs |})
      end
  end.

End with_config.

End Mashreq.

(* ===================================================================== *)
(** * The MIGS service as a state machine *)
(* ===================================================================== *)

Module Lifecycle.
Import Node PaymentService PaymentStatusSyncProcessor.

(** The entry points that write to [payment_transactions], with what
    each call receives from its caller, the clock and the network. *)
Inductive Operation : Type :=
| ProcessPaymentResponse (responseData : jsobj) (env : Env)
| CancelPayment (paymentId : string) (env : Env)
| RefundPayment (refundData : RefundPaymentDto) (env : Env) (gateway : Gateway)
| SyncPendingPayments (job : JobData) (env : Env) (gateway : Gateway).

Section with_config.
Context `{crypto : Crypto} (config : MigsConfiguration).

(** The table after one call, whether it returned or threw. *)
Definition apply (op : Operation) (db : Table) : Table :=
  match op with
  | ProcessPaymentResponse responseData env =>
      (processPaymentResponse config responseData env db).2
  | CancelPayment paymentId env => (cancelPayment paymentId env db).2
  | RefundPayment refundData env gateway =>
      (refundPayment config refundData env gateway db).2
  | SyncPendingPayments job env gateway =>
      (handlePaymentStatusSync config job env gateway db).2
  end.

Definition run (ops : list Operation) (db : Table) : Table :=
  foldl (λ db op, apply op db) db ops.

End with_config.

(** The primary key constraint on [id]. *)
Definition primaryKey (db : Table) : Prop := NoDup (id <$> db).

(** [refundedAmount <= amount] on every row. *)
Definition refundsWithinAmount (db : Table) : Prop :=
  Forall (λ t, refundedAmount t ≤ amount t) db.

(** What the invariant asks of a call that turns [db] into [db']: the
    key constraint is kept, and with it the bound on refunded amounts. *)
Definition preserved (db db' : Table) : Prop :=
  (primaryKey db → primaryKey db')
  ∧ (primaryKey db → refundsWithinAmount db → refundsWithinAmount db').


(** What may happen to a row under the service's operations: the columns
    set at creation stay, and a row that is (still) pending has not been
    written at all. *)
Definition evolves (t t' : PaymentTransaction) : Prop :=
  id t' = id t
  ∧ merchantTxnRef t' = merchantTxnRef t
  ∧ orderInfo t' = orderInfo t
  ∧ amount t' = amount t
  ∧ currency t' = currency t
  ∧ createdAt t' = createdAt t
  ∧ (status t' = PENDING → t' = t).

(** The unique index on [merchant_txn_ref]. *)
Definition uniqueTxnRef (db : Table) : Prop := NoDup (merchantTxnRef <$> db).

(** Keys are unique and every refunded amount lies between zero and the
    amount of its payment. *)
Definition consistent (db : Table) : Prop :=
  primaryKey db ∧ uniqueTxnRef db
  ∧ Forall (λ t, 0 ≤ refundedAmount t ≤ amount t) db.

(** A row in a status other than pending and success. *)
Definition settled (t : PaymentTransaction) : Prop :=
  status t ≠ PENDING ∧ status t ≠ SUCCESS.

(** An operation other than the gateway's callback. *)
Definition notCallback (op : Operation) : Prop :=
  match op with
  | ProcessPaymentResponse _ _ => False
  | _ => True
  end.

(** A refund request that passed the controller's validation; the other
    operations carry no validated amount. *)
Definition validOperation (op : Operation) : Prop :=
  match op with
  | RefundPayment refundData _ _ => validRefundPaymentDto refundData
  | _ => True
  end.

(** A call of [createPayment], or one of the operations above. *)
Inductive Step : Type :=
| CreatePayment (paymentData : CreatePaymentDto) (clientIp : option string)
    (env : CreateEnv)
| Operate (op : Operation).

Definition validStep (step : Step) : Prop :=
  match step with
  | CreatePayment paymentData _ _ => validCreatePaymentDto paymentData
  | Operate op => validOperation op
  end.

Section with_config_steps.
Context `{crypto : Crypto} (config : MigsConfiguration).

Definition applyStep (step : Step) (db : Table) : Table :=
  match step with
  | CreatePayment paymentData clientIp env =>
      (createPayment config paymentData clientIp env db).2
  | Operate op => apply config op db
  end.

Definition runSteps (steps : list Step) (db : Table) : Table :=
  foldl (λ db step, applyStep step db) db steps.

End with_config_steps.

End Lifecycle.

(* ===================================================================== *)
(** * Concrete data for the scenarios *)
(* ===================================================================== *)

Module Sample.
Import Node PaymentService PaymentStatusSyncProcessor.

(** An instance of [Crypto] to run the services on concrete inputs.  Its
    digests are sums of octets, not the MD5 and HMAC-SHA256 ones; they are
    used where a statement holds for every instance and one is needed. *)
Definition octetSum (b : Buffer) : N :=
  foldr (λ c acc, (N_of_ascii c + 31 * acc)%N) 7%N b.

Definition crypto : Crypto :=
  {| md5 := octetSum;
     hmac_sha256 := λ key message, octetSum (key ++ message) |}.

Definition config : MigsConfiguration :=
  {| merchantId := "TESTMERCHANT";
     accessCode := "ACCESS01";
     secureSecret := "0A1B2C3D";
     gatewayUrl := "https://migs.example/vpcpay";
     config_currency := "AED";
     returnUrl := "https://merchant.example/payment/callback";
     gatewayQueryUrl := "https://migs.example/vpcdps" |}.

(** Order#1 for 100.00 AED, created at time 0. *)
Definition transaction (status : TransactionStatus) (refundedAmount : Z)
    : PaymentTransaction :=
  {| id := "7d9f0c1e-0001";
     merchantTxnRef := "MIGS_1700000000000_AB12CD34";
     transactionId := JString "2000000123";
     orderInfo := "Order#1";
     amount := 10000;
     currency := "AED";
     status := status;
     responseCode := JString "0";
     responseMessage := JString "Approved";
     authCode := JNull;
     receiptNo := JNull;
     batchNo := JNull;
     gatewayResponse := None;
     refundedAmount := refundedAmount;
     processedAt := Some 60000;
     createdAt := 0 |}.

(** The same order before any gateway response. *)
Definition pendingTransaction : PaymentTransaction :=
  {| id := "7d9f0c1e-0001";
     merchantTxnRef := "MIGS_1700000000000_AB12CD34";
     transactionId := JNull;
     orderInfo := "Order#1";
     amount := 10000;
     currency := "AED";
     status := PENDING;
     responseCode := JNull;
     responseMessage := JNull;
     authCode := JNull;
     receiptNo := JNull;
     batchNo := JNull;
     gatewayResponse := None;
     refundedAmount := 0;
     processedAt := None;
     createdAt := 0 |}.

(** Six minutes after the order was created. *)
Definition env : Env := {| now := 360000; uuid := "3f2a9c4e-77aa-4b1c-9a57-0123456789ab" |}.

(** The callback parameters of an approved payment, before signing. *)
Definition approvedCallback : jsobj :=
  [("vpc_TxnResponseCode", JString "0");
   ("vpc_TransactionNo", JString "2000000123");
   ("vpc_MerchTxnRef", JString "MIGS_1700000000000_AB12CD34");
   ("vpc_OrderInfo", JString "Order#1");
   ("vpc_Amount", JString "10000");
   ("vpc_Command", JString "pay");
   ("vpc_Version", JString "1");
   ("vpc_Message", JString "Approved")].

Definition respond (status : Z) (body : ResponseData) : Gateway :=
  λ _ _, Responded {| http_status := status; statusText := EmptyString; http_data := body |}.

(** A gateway that answers every request with HTTP 200 and the
    form-encoded body of an approved transaction. *)
Definition approvingGateway : Gateway :=
  respond 200
    (DataString
       "vpc_TxnResponseCode=0&vpc_Message=Approved&vpc_TransactionNo=2000000123&vpc_MerchTxnRef=MIGS_1700000000000_AB12CD34").

(** A gateway whose answer axios has parsed from JSON, the response code
    being the string ["0"]. *)
Definition approvingJsonGateway : Gateway :=
  respond 200
    (DataObject [("vpc_TxnResponseCode", JString "0");
                 ("vpc_Message", JString "Approved")]).

Definition job : JobData := {| triggeredBy := None; batchSize := None |}.

(** A refund request for the sample order. *)
Definition refund (hundredths : Z) : RefundPaymentDto :=
  {| paymentId := "7d9f0c1e-0001"; refund_amount := hundredths; reason := None |}.

(** Two parameter objects with the same properties in different order. *)
Definition queryParams : jsobj :=
  [("vpc_Version", JString "1");
   ("vpc_Command", JString "queryDR");
   ("vpc_MerchTxnRef", JString " MIGS_1700000000000_AB12CD34 ")].

Definition queryParamsReordered : jsobj :=
  [("vpc_Command", JString "queryDR");
   ("vpc_MerchTxnRef", JString " MIGS_1700000000000_AB12CD34 ");
   ("vpc_Version", JString "1")].

(** A Mashreq webhook with a status the controller has no case for. *)
Definition webhookSecret : string := "whsec_test".

Definition quoted (s : string) : string :=
  String "034"%char s +:+ String "034"%char EmptyString.

Definition webhookBody : string :=
  "{" +:+ quoted "transaction_id" +:+ ":" +:+ quoted "MSQ-1001" +:+ ","
      +:+ quoted "status" +:+ ":" +:+ quoted "payment.processing" +:+ "}".

Definition webhookPayload : jsobj :=
  [("transaction_id", JString "MSQ-1001");
   ("status", JString "payment.processing")].

Definition webhookSignature : string :=
  digestHex 32 (hmac_sha256 (Crypto := crypto) (utf8Encode webhookSecret)
                            (utf8Encode webhookBody)).

Definition mashreqTransaction : Mashreq.Transaction :=
  {| Mashreq.id := "c0ffee-01";
     Mashreq.order_id := "ORD-1";
     Mashreq.mashreq_transaction_id := Some "MSQ-1001";
     Mashreq.status := Mashreq.SUCCESS;
     Mashreq.mashreq_response := None |}.

Definition mashreqDatabase : Mashreq.Database :=
  {| Mashreq.transactions := [mashreqTransaction];
     Mashreq.webhook_logs := [] |}.

(** The approved callback with the signature the sample digests give it. *)
Definition signedCallback : jsobj :=
  match MigsHashUtil.generateSecureHash (crypto := crypto) approvedCallback
          (secureSecret config) (MigsHashUtil.hashTypeValue MigsHashUtil.SHA256)
  with
  | Ok secureHash => Js.set approvedCallback "vpc_SecureHash" (JString secureHash)
  | Throw _ => approvedCallback
  end.

(** A gateway that refuses the connection, and one that does not answer
    within axios' [timeout]. *)
Definition unreachableGateway : Gateway :=
  λ _ _, Failed "ECONNREFUSED" "connect ECONNREFUSED 10.0.0.1:443".

Definition timingOutGateway : Gateway :=
  λ _ _, Failed "ECONNABORTED" "timeout of 30000ms exceeded".

(** A request for a payment of 100.00 AED, and what its creation draws
    from outside. *)
Definition payment : CreatePaymentDto :=
  {| dto_orderInfo := "Order#1";
     dto_amount := 10000;
     dto_currency := Some "AED";
     dto_customerEmail := None;
     dto_customerPhone := None;
     dto_returnUrl := Some "https://shop.example/done" |}.

Definition createEnv : CreateEnv :=
  {| create_now := 1700000000000;
     create_id := "7d9f0c1e-0001";
     create_uuid := "ab12cd34-77aa-4b1c-9a57-0123456789ab";
     create_refusal := None |}.

End Sample.

(* ===================================================================== *)
(** * Properties of the JavaScript layer *)
(* ===================================================================== *)

Section js_facts.
Context {V : Type}.
Implicit Types (o : Js.obj V) (k : string) (v : V).

Lemma get_set_eq o k v : Js.get (Js.set o k v) k = Some v.
Proof.
  induction o as [|[k' w] o IH]; simpl.
  - by rewrite decide_True.
  - destruct (decide (k' = k)) as [->|Hne]; simpl.
    + by rewrite decide_True.
    + by rewrite decide_False.
Qed.

Lemma get_set_ne o k k' v : k ≠ k' → Js.get (Js.set o k v) k' = Js.get o k'.
Proof.
  intros Hne. induction o as [|[k0 w] o IH]; simpl.
  - by rewrite decide_False.
  - destruct (decide (k0 = k)) as [->|Hk0]; simpl.
    + by rewrite !decide_False.
    + destruct (decide (k0 = k')); auto.
Qed.

Lemma set_fresh o k v : k ∉ Js.keys o → Js.set o k v = o ++ [(k, v)].
Proof.
  unfold Js.keys. induction o as [|[k0 w] o IH]; simpl; intros Hk; [done|].
  apply not_elem_of_cons in Hk as [Hne Hk].
  rewrite decide_False by done. by rewrite IH.
Qed.

Lemma keys_set_elem o k v : k ∈ Js.keys o → Js.keys (Js.set o k v) = Js.keys o.
Proof.
  unfold Js.keys. induction o as [|[k0 w] o IH]; simpl; intros Hk.
  - by apply elem_of_nil in Hk.
  - destruct (decide (k0 = k)) as [->|Hne]; simpl; [done|].
    apply elem_of_cons in Hk as [->|Hk]; [done|]. f_equal. by apply IH.
Qed.

Lemma get_None o k : Js.get o k = None ↔ k ∉ Js.keys o.
Proof.
  unfold Js.keys. induction o as [|[k0 w] o IH]; simpl.
  - split; [intros _; apply not_elem_of_nil | done].
  - rewrite not_elem_of_cons. destruct (decide (k0 = k)) as [->|Hne].
    + split; [done | by intros []].
    + rewrite IH. split; [intros ?; split; [congruence|done] | by intros [_ ?]].
Qed.

Lemma get_elem_of o k v : NoDup (Js.keys o) → (k, v) ∈ o → Js.get o k = Some v.
Proof.
  unfold Js.keys. induction o as [|[k0 w] o IH]; simpl; intros Hnd Hin.
  - by apply elem_of_nil in Hin.
  - apply NoDup_cons in Hnd as [Hk0 Hnd].
    apply elem_of_cons in Hin as [Heq|Hin].
    + simplify_eq. by rewrite decide_True.
    + rewrite decide_False; [by apply IH|].
      intros ->. apply Hk0. apply list_elem_of_fmap. by exists (k, v).
Qed.

Lemma get_Some_elem_of o k v : Js.get o k = Some v → (k, v) ∈ o.
Proof.
  induction o as [|[k0 w] o IH]; simpl; [done|].
  destruct (decide (k0 = k)) as [->|Hne]; intros Hg.
  - simplify_eq. left.
  - right. by apply IH.
Qed.

Lemma get_Permutation o o' k :
  NoDup (Js.keys o) → o ≡ₚ o' → Js.get o k = Js.get o' k.
Proof.
  intros Hnd Hp.
  assert (NoDup (Js.keys o')) as Hnd' by (unfold Js.keys in *; by rewrite <-Hp).
  destruct (Js.get o k) as [v|] eqn:Hg.
  - symmetry. apply get_elem_of; [done|]. rewrite <-Hp. by apply get_Some_elem_of.
  - symmetry. apply get_None. apply get_None in Hg.
    unfold Js.keys in *. by rewrite <-Hp.
Qed.

Lemma get_insert_ne o1 o2 k k' v :
  k ≠ k' → Js.get (o1 ++ (k, v) :: o2) k' = Js.get (o1 ++ o2) k'.
Proof.
  intros Hne. induction o1 as [|[k0 w] o1 IH]; simpl.
  - by rewrite decide_False.
  - by rewrite IH.
Qed.

Lemma get_insert_eq o1 o2 k v :
  k ∉ Js.keys o1 → Js.get (o1 ++ (k, v) :: o2) k = Some v.
Proof.
  unfold Js.keys. induction o1 as [|[k0 w] o1 IH]; simpl; intros Hk.
  - by rewrite decide_True.
  - apply not_elem_of_cons in Hk as [Hne Hk]. rewrite decide_False by done. auto.
Qed.

End js_facts.

(* ===================================================================== *)
(** * Properties of the secure hash *)
(* ===================================================================== *)

Section hash_facts.
Import Node MigsHashUtil.

Lemma prop_set_eq (o : jsobj) k v : Js.prop (Js.set o k v) k = v.
Proof. unfold Js.prop. by rewrite get_set_eq. Qed.

Lemma prop_set_ne (o : jsobj) k k' v :
  k ≠ k' → Js.prop (Js.set o k v) k' = Js.prop o k'.
Proof. intros. unfold Js.prop. by rewrite get_set_ne. Qed.

Lemma filterParams_app parameters keys1 keys2 acc :
  filterParams parameters (keys1 ++ keys2) acc
  = (acc' ← filterParams parameters keys1 acc; filterParams parameters keys2 acc').
Proof.
  revert acc. induction keys1 as [|key keys1 IH]; intros acc; simpl; [done|].
  destruct (_ && _); [|done].
  destruct (callTrim _) as [trimmed|e]; simpl; [|done].
  by destruct (0 <? _)%nat.
Qed.

Lemma filterParams_ext parameters parameters' keys acc :
  (∀ key, key ∈ keys → key ≠ "vpc_SecureHash" →
          Js.prop parameters key = Js.prop parameters' key) →
  filterParams parameters keys acc = filterParams parameters' keys acc.
Proof.
  revert acc. induction keys as [|key keys IH]; intros acc Hext; simpl; [done|].
  assert (∀ acc, filterParams parameters keys acc = filterParams parameters' keys acc)
    as IH' by (intros; apply IH; intros; apply Hext; [by right|done]).
  destruct (decide (key = "vpc_SecureHash")) as [->|Hne]; [by simpl|].
  rewrite (Hext key) by (done || left).
  destruct (_ && _); [|done].
  destruct (callTrim _) as [trimmed|e]; simpl; [|done].
  by destruct (0 <? _)%nat.
Qed.

(** A key whose value is blank leaves [filteredParams] as it is. *)
Lemma filterParams_blank parameters key keys acc :
  isBlank (Js.prop parameters key) = true →
  filterParams parameters (key :: keys) acc = filterParams parameters keys acc.
Proof.
  intros Hb. simpl. destruct (Js.prop parameters key) as [| |s|]; simpl in *;
    try done; rewrite ?andb_false_r; try done.
  destruct (_ && _); [|done]. simpl.
  assert (Js.trim s = EmptyString) as ->; [|done].
  unfold Js.trim. clear -Hb. induction s as [|c s IH]; simpl in *; [done|].
  apply andb_prop in Hb as [-> Hs]. auto.
Qed.

Lemma toUpperCase_length s : String.length (toUpperCase s) = String.length s.
Proof. induction s; simpl; auto. Qed.

Lemma hexDigits_length count d acc :
  String.length (hexDigits count d acc) = (count + String.length acc)%nat.
Proof.
  revert d acc. induction count as [|count IH]; intros d acc; simpl; [done|].
  rewrite IH. simpl. lia.
Qed.

Lemma digestHex_length bytes d :
  String.length (digestHex bytes d) = (2 * bytes)%nat.
Proof. unfold digestHex. rewrite hexDigits_length. simpl. lia. Qed.

Lemma prop_ofRecord parameters key :
  match Js.prop (ofRecord parameters) key with
  | JNumber _ _ => False
  | _ => True
  end.
Proof.
  unfold Js.prop, ofRecord.
  induction parameters as [|[k [v|]] parameters IH]; simpl; [done|..];
    by case_decide.
Qed.

(** On an object of the declared type the filter loop runs to its end. *)
Lemma filterParams_ofRecord parameters keys acc :
  ∃ filteredParams,
    filterParams (ofRecord parameters) keys acc = Ok filteredParams.
Proof.
  revert acc. induction keys as [|key keys IH]; intros acc; simpl; [by eexists|].
  pose proof (prop_ofRecord parameters key) as Hty.
  destruct (Js.prop _ key) as [| |s|]; [..|done]; simpl;
    rewrite ?andb_false_r, ?andb_false_l; simpl; repeat case_match; auto.
Qed.

Context `{crypto : Crypto}.

(** The hash does not depend on the [vpc_SecureHash] property. *)
Lemma generateSecureHash_set_secureHash parameters secret hashType h :
  generateSecureHash (Js.set parameters "vpc_SecureHash" h) secret hashType
  = generateSecureHash parameters secret hashType.
Proof.
  unfold generateSecureHash.
  assert (filterParams (Js.set parameters "vpc_SecureHash" h)
            (Js.keys (Js.set parameters "vpc_SecureHash" h)) []
          = filterParams parameters (Js.keys parameters) []) as ->; [|done].
  destruct (decide ("vpc_SecureHash" ∈ Js.keys parameters)) as [Hin|Hnin].
  - rewrite keys_set_elem by done.
    apply filterParams_ext. intros key _ Hne. by apply prop_set_ne.
  - rewrite set_fresh by done. unfold Js.keys at 1. rewrite fmap_app.
    rewrite filterParams_app.
    rewrite <-(set_fresh _ _ _ Hnin).
    rewrite (filterParams_ext _ parameters)
      by (intros key _ Hne; by apply prop_set_ne).
    by destruct (filterParams parameters _ _).
Qed.

Lemma generateSecureHash_nonempty parameters secret hashType h :
  generateSecureHash parameters secret hashType = Ok h → h ≠ EmptyString.
Proof.
  unfold generateSecureHash.
  destruct (filterParams _ _ _) as [f|]; cbn; [|done].
  destruct (Js.strictEq _ _); [|destruct (Js.strictEq _ _); [|done]];
    intros Heq ->;
    apply (f_equal (λ r, match r with Ok x => String.length x | Throw _ => 0%nat end))
      in Heq; cbv beta iota in Heq;
    rewrite toUpperCase_length, digestHex_length in Heq; done.
Qed.

(** A response that carries the hash computed over it verifies. *)
Lemma verifySecureHash_signed parameters secret (hashType : VpcSecureHashType) h :
  generateSecureHash parameters secret (hashTypeValue hashType) = Ok h →
  verifySecureHash (Js.set parameters "vpc_SecureHash" (JString h)) secret
                   (hashTypeValue hashType) = Ok true.
Proof.
  intros Hgen. unfold verifySecureHash.
  rewrite prop_set_eq, generateSecureHash_set_secureHash.
  assert (Js.truthy (JString h) = true) as ->.
  { simpl. rewrite bool_decide_false; [done|]. by eapply generateSecureHash_nonempty. }
  assert (match hashTypeValue hashType with
          | JUndefined => hashTypeValue SHA256
          | _ => hashTypeValue hashType
          end = hashTypeValue hashType) as -> by (by destruct hashType).
  cbn. rewrite Hgen. cbn. by rewrite bool_decide_true.
Qed.

(** C4. Signature round trip: for every parameter map of the declared type
    [Record<string, string | null>], every secret and each of the two hash
    types, [generateSecureHash] returns a hash, and the map with that hash
    attached as [vpc_SecureHash] passes [verifySecureHash] under the same
    secret and hash type. *)
Theorem sign_then_verify (parameters : Js.obj (option string)) (secret : string)
    (hashType : VpcSecureHashType) :
  ∃ h, generateSecureHash (ofRecord parameters) secret (hashTypeValue hashType) = Ok h
       ∧ verifySecureHash (Js.set (ofRecord parameters) "vpc_SecureHash" (JString h))
                          secret (hashTypeValue hashType) = Ok true.
Proof.
  destruct (filterParams_ofRecord parameters (Js.keys (ofRecord parameters)) [])
    as [f Hf].
  assert (∃ h, generateSecureHash (ofRecord parameters) secret
                 (hashTypeValue hashType) = Ok h) as [h Hh].
  { unfold generateSecureHash. rewrite Hf. destruct hashType; cbn; by eexists. }
  exists h. split; [done|]. by apply verifySecureHash_signed.
Qed.

End hash_facts.

Section hash_invariance.
Import Node MigsHashUtil.

Lemma existsb_Permutation {A} (f : A → bool) (l l' : list A) :
  l ≡ₚ l' → existsb f l = existsb f l'.
Proof.
  intros Hp. induction Hp as [|x l l' _ IH|x y l|l l' l'' _ IH1 _ IH2]; simpl.
  - done.
  - by rewrite IH.
  - by destruct (f x), (f y).
  - by rewrite IH1.
Qed.

Lemma keptEntry_key entry e : keptEntry entry = Some e → e.1 = entry.1.
Proof.
  destruct entry as [k [| |s|]]; simpl; try done.
  case_match; [|done]. by intros [= <-].
Qed.

Lemma omap_keptEntry_cons entry (o : jsobj) :
  omap keptEntry (entry :: o)
  = match keptEntry entry with
    | Some e => e :: omap keptEntry o
    | None => omap keptEntry o
    end.
Proof. done. Qed.

Lemma keys_omap_keptEntry (o : jsobj) key :
  key ∈ Js.keys (omap keptEntry o) → key ∈ Js.keys o.
Proof.
  unfold Js.keys. induction o as [|entry o IH]; [done|].
  rewrite omap_keptEntry_cons, fmap_cons.
  destruct (keptEntry entry) as [e|] eqn:He.
  - rewrite fmap_cons, (keptEntry_key _ _ He).
    intros [->|Hin]%elem_of_cons; [left|right; auto].
  - intros; right; auto.
Qed.

Lemma NoDup_keys_omap_keptEntry (o : jsobj) :
  NoDup (Js.keys o) → NoDup (Js.keys (omap keptEntry o)).
Proof.
  unfold Js.keys. induction o as [|entry o IH]; [done|].
  rewrite omap_keptEntry_cons, fmap_cons.
  intros [Hk Hnd]%NoDup_cons.
  destruct (keptEntry entry) as [e|] eqn:He; [|auto].
  rewrite fmap_cons, (keptEntry_key _ _ He).
  apply NoDup_cons. split; [|auto]. intros Hin. apply Hk.
  by apply keys_omap_keptEntry.
Qed.

(** The filter loop over the properties [todo] of an object without
    duplicate keys, started from [acc]. *)
Lemma filterParams_closed (parameters todo : jsobj) (acc : Js.obj string) :
  NoDup (Js.keys parameters) →
  todo ⊆ parameters →
  NoDup (Js.keys todo) →
  (∀ key, key ∈ Js.keys todo → key ∉ Js.keys acc) →
  filterParams parameters (Js.keys todo) acc
  = if existsb trimFails todo
    then Throw (TypeError "value.trim is not a function")
    else Ok (acc ++ omap keptEntry todo).
Proof.
  intros Hnd. revert acc.
  induction todo as [|[key value] todo IH]; intros acc Hsub Hndt Hfresh.
  { simpl. by rewrite app_nil_r. }
  apply NoDup_cons in Hndt as [Hkey Hndt].
  assert (todo ⊆ parameters) as Hsub' by (intros e He; apply Hsub; by right).
  assert (Js.prop parameters key = value) as Hprop.
  { unfold Js.prop. rewrite (get_elem_of _ _ value); [done|done|]. apply Hsub. left. }
  assert (∀ acc', (∀ k, k ∈ Js.keys todo → k ∉ Js.keys acc') →
            filterParams parameters (Js.keys todo) acc'
            = if existsb trimFails todo
              then Throw (TypeError "value.trim is not a function")
              else Ok (acc' ++ omap keptEntry todo)) as IH' by auto.
  assert (∀ k, k ∈ Js.keys todo → k ∉ Js.keys acc) as Hfresh'.
  { intros k Hk. apply Hfresh. by right. }
  change (Js.keys ((key, value) :: todo)) with (key :: Js.keys todo).
  cbn [filterParams existsb omap list_omap trimFails keptEntry].
  rewrite Hprop. fold (included key value).
  destruct (included key value) eqn:Hinc; simpl.
  - destruct value as [| |s|]; simpl; try done.
    destruct (0 <? String.length (Js.trim s))%nat eqn:Hlen; simpl.
    + rewrite IH'.
      * rewrite set_fresh by (apply Hfresh; left).
        destruct (existsb _ _); [done|]. by rewrite <-app_assoc.
      * intros k Hk. rewrite set_fresh by (apply Hfresh; left).
        unfold Js.keys. rewrite fmap_app. simpl.
        rewrite elem_of_app, list_elem_of_singleton.
        intros [Hin| ->]; [by eapply Hfresh'|done].
    + by rewrite IH'.
  - rewrite IH' by done. destruct value; simpl; try done.
Qed.

Lemma filterParams_all (parameters : jsobj) :
  NoDup (Js.keys parameters) →
  filterParams parameters (Js.keys parameters) []
  = if existsb trimFails parameters
    then Throw (TypeError "value.trim is not a function")
    else Ok (omap keptEntry parameters).
Proof.
  intros Hnd. rewrite filterParams_closed; try done.
  intros key _. apply not_elem_of_nil.
Qed.

Lemma sort_Permutation (l l' : list string) : l ≡ₚ l' → Js.sort l = Js.sort l'.
Proof.
  intros Hp. unfold Js.sort.
  apply (Sorted_unique String.le); try apply Sorted_merge_sort; try apply _.
  by rewrite !merge_sort_Permutation.
Qed.

Context `{crypto : Crypto}.

Lemma generateSecureHash_Permutation (parameters parameters' : jsobj)
    (secret : string) (hashType : jsval) :
  NoDup (Js.keys parameters) → parameters ≡ₚ parameters' →
  generateSecureHash parameters' secret hashType
  = generateSecureHash parameters secret hashType.
Proof.
  intros Hnd Hp.
  assert (NoDup (Js.keys parameters')) as Hnd'
    by (unfold Js.keys in *; by rewrite <-Hp).
  unfold generateSecureHash. rewrite !filterParams_all by done.
  rewrite <-(existsb_Permutation _ _ _ Hp).
  destruct (existsb trimFails parameters); [done|]. cbn.
  assert (omap keptEntry parameters ≡ₚ omap keptEntry parameters') as Hf
    by (by rewrite Hp).
  assert (Js.sort (Js.keys (omap keptEntry parameters'))
          = Js.sort (Js.keys (omap keptEntry parameters))) as ->.
  { apply sort_Permutation. unfold Js.keys. by rewrite Hf. }
  assert (∀ key, valueOf (omap keptEntry parameters') key
                 = valueOf (omap keptEntry parameters) key) as Hval.
  { intros key. unfold valueOf. f_equal. symmetry.
    apply get_Permutation; [|done]. by apply NoDup_keys_omap_keptEntry. }
  rewrite (map_ext _ _ (Hval)).
  rewrite (map_ext (λ key, key +:+ "=" +:+ valueOf (omap keptEntry parameters') key)
                   (λ key, key +:+ "=" +:+ valueOf (omap keptEntry parameters) key))
    by (intros key; by rewrite Hval).
  done.
Qed.

Lemma generateSecureHash_insert_blank (before after : jsobj) (key : string)
    (value : jsval) (secret : string) (hashType : jsval) :
  key ∉ Js.keys (before ++ after) → isBlank value = true →
  generateSecureHash (before ++ (key, value) :: after) secret hashType
  = generateSecureHash (before ++ after) secret hashType.
Proof.
  intros Hkey Hblank. unfold generateSecureHash.
  assert (filterParams (before ++ (key, value) :: after)
            (Js.keys (before ++ (key, value) :: after)) []
          = filterParams (before ++ after) (Js.keys (before ++ after)) [])
    as ->; [|done].
  unfold Js.keys in *. rewrite !fmap_app, fmap_cons in *.
  change ((key, value).1) with key.
  apply not_elem_of_app in Hkey as [Hb Ha].
  assert (∀ keys acc, key ∉ keys →
            filterParams (before ++ (key, value) :: after) keys acc
            = filterParams (before ++ after) keys acc) as Hext.
  { intros keys acc Hk. apply filterParams_ext. intros k Hin _.
    unfold Js.prop. rewrite get_insert_ne; [done|]. by intros ->. }
  assert (∀ acc, filterParams (before ++ (key, value) :: after)
                   (key :: after.*1) acc
                 = filterParams (before ++ after) after.*1 acc) as Hskip.
  { intros acc. rewrite filterParams_blank, Hext; [done|done|].
    unfold Js.prop. by rewrite get_insert_eq. }
  rewrite !filterParams_app, Hext by done.
  destruct (filterParams (before ++ after) before.*1 []) as [acc|e];
    cbn [mbind Exc_bind]; [apply Hskip|done].
Qed.

(** C8. Key filtering: for either hash type, the hash of a parameter
    object (no key twice) is the same for every reordering of its
    properties, and it does not change when a property with a new key and
    a null, undefined or white-space-only value is inserted anywhere. *)
Theorem generateSecureHash_order_and_blanks (secret : string)
    (hashType : VpcSecureHashType) :
  (∀ parameters parameters' : jsobj,
      NoDup (Js.keys parameters) → parameters ≡ₚ parameters' →
      generateSecureHash parameters' secret (hashTypeValue hashType)
      = generateSecureHash parameters secret (hashTypeValue hashType))
  ∧ (∀ (before after : jsobj) (key : string) (value : jsval),
      key ∉ Js.keys (before ++ after) → isBlank value = true →
      generateSecureHash (before ++ (key, value) :: after) secret
                         (hashTypeValue hashType)
      = generateSecureHash (before ++ after) secret (hashTypeValue hashType)).
Proof.
  split.
  - intros. by apply generateSecureHash_Permutation.
  - intros. by apply generateSecureHash_insert_blank.
Qed.

End hash_invariance.

(* ===================================================================== *)
(** * The gateway exchange and the response code tables *)
(* ===================================================================== *)

Section gateway_facts.
Import Node PaymentService PaymentStatusSyncProcessor.

Ltac not_in_list :=
  let Hin := fresh "Hin" in
  intros Hin;
  repeat (apply elem_of_cons in Hin as [Hin|Hin]; [by simplify_eq|]);
  by apply elem_of_nil in Hin.

(** C5, as the specification states it, fails: for the response code ["8"] the
    worker has no status (it leaves the transaction alone) where
    [processPaymentResponse] sets [failed]. *)
Lemma code_8_worker_none_callback_failed :
  mapGatewayStatusToLocal (JString "8") = None
  ∧ transactionStatusOf (JString "8") = FAILED.
Proof. split; reflexivity. Qed.

(** C5, amended. On the response codes the worker recognizes (the strings
    "0" to "7") its status is the one [processPaymentResponse] sets:
    success for "0", failed for the others.  For every other value the
    worker has no status, whereas [processPaymentResponse] sets failed. *)
Theorem mapGatewayStatusToLocal_vs_callback (responseCode : jsval) :
  mapGatewayStatusToLocal responseCode
  = if bool_decide (responseCode ∈ recognizedCodes)
    then Some (transactionStatusOf responseCode)
    else None.
Proof.
  unfold recognizedCodes.
  destruct responseCode as [| |s|m d];
    try (rewrite bool_decide_false by not_in_list; reflexivity).
  destruct (decide (s ∈ ["0"; "1"; "2"; "3"; "4"; "5"; "6"; "7"])) as [Hin|Hnin].
  - repeat (apply elem_of_cons in Hin as [->|Hin]; [reflexivity|]).
    by apply elem_of_nil in Hin.
  - rewrite bool_decide_false.
    2:{ intros Hin. apply Hnin. apply list_elem_of_fmap in Hin as (x & [= ->] & Hx).
        done. }
    unfold mapGatewayStatusToLocal, Js.matchesCase. simpl.
    rewrite !bool_decide_false; [done|intros ->; apply Hnin; repeat constructor..].
Qed.

(** C7, as the specification states it, fails: on HTTP 404 [makeApiCall] throws. *)
Lemma makeApiCall_throws_on_404 :
  makeApiCall Sample.config
    [("vpc_Command", JString "queryDR")]
    (Sample.respond 404 (DataString "vpc_TxnResponseCode=7&vpc_Message=Declined"))
  = Throw (ServiceUnavailableException
             "Unexpected error during gateway communication").
Proof. reflexivity. Qed.

(** C7, amended. [makeApiCall] throws a [ServiceUnavailableException]
    whenever the gateway answers with an HTTP status of 400 or above, the
    4xx range included; only for a status below 400 is the response body
    handed to the caller as data. *)
Theorem makeApiCall_by_status (config : MigsConfiguration) (data : jsobj)
    (response : AxiosResponse) :
  if 400 <=? http_status response then
    ∃ message,
      makeApiCall config data (λ _ _, Responded response)
      = Throw (ServiceUnavailableException message)
  else
    makeApiCall config data (λ _ _, Responded response)
    = match http_data response with
      | DataString s =>
          if Js.includes "=" s && (Js.includes "&" s || negb (Js.includes " " s))
          then parsed ← parseResponse s; Ok (Some parsed)
          else Ok (Some [("rawResponse", JString s)])
      | DataObject o => Ok (Some o)
      | DataNull => Ok None
      end.
Proof.
  unfold makeApiCall, axiosPost.
  destruct (Z.leb_spec 400 (http_status response)) as [H4|H4].
  - destruct (Z.ltb_spec (http_status response) 500) as [H5|H5].
    + cbn [mbind Exc_bind tryCatch].
      rewrite (proj2 (Z.leb_le _ _)) by done. by eexists.
    + assert (5 ≤ http_status response / 100) by (apply Z.div_le_lower_bound; lia).
      rewrite (proj2 (Z.eqb_neq _ _)) by lia. by eexists.
  - rewrite (proj2 (Z.ltb_lt _ _)) by lia. cbn [mbind Exc_bind tryCatch].
    rewrite (proj2 (Z.leb_gt _ _)) by done.
    destruct (http_data response) as [s| |]; try reflexivity.
    destruct (_ && _); reflexivity.
Qed.

(** A response code read from a form-encoded body is never one the worker
    recognizes: a code made of digits has become a number. *)
Lemma mapGatewayStatusToLocal_parseValue (value : string) :
  mapGatewayStatusToLocal (parseValue value) = None.
Proof.
  unfold parseValue. destruct (isInteger value) eqn:Hint; [done|].
  destruct (isDecimal value) as [[ip fp]|]; [done|].
  destruct (decide (value ∈ ["0"; "1"; "2"; "3"; "4"; "5"; "6"; "7"])) as [Hin|Hnin].
  - repeat (apply elem_of_cons in Hin as [->|Hin]; [done|]).
    by apply elem_of_nil in Hin.
  - unfold mapGatewayStatusToLocal, Js.matchesCase. simpl.
    rewrite !bool_decide_false; [done|intros ->; apply Hnin; repeat constructor..].
Qed.

Lemma parseResponse_code_unrecognized (responseString : string) :
  (parsed ← parseResponse responseString;
   Ok (mapGatewayStatusToLocal (Js.prop parsed "vpc_TxnResponseCode"))) = Ok None.
Proof.
  unfold parseResponse. cbn [mbind Exc_bind]. f_equal.
  assert (∀ entries (result : jsobj),
            mapGatewayStatusToLocal (Js.prop result "vpc_TxnResponseCode") = None →
            mapGatewayStatusToLocal
              (Js.prop (foldl (λ result '(key, value),
                                 Js.set result key (parseValue value))
                              result entries) "vpc_TxnResponseCode") = None) as Hfold.
  { induction entries as [|[key value] entries IH]; intros result Hresult; [done|].
    cbn [foldl]. apply IH.
    destruct (decide (key = "vpc_TxnResponseCode")) as [->|Hne].
    - rewrite prop_set_eq. apply mapGatewayStatusToLocal_parseValue.
    - by rewrite prop_set_ne. }
  by apply Hfold.
Qed.

End gateway_facts.

(* ===================================================================== *)
(** * The Mashreq webhook *)
(* ===================================================================== *)

Section mashreq_facts.
Import Node Mashreq.

Lemma hexDigit_ascii m : (m < 16)%N → (N_of_ascii (hexDigit m) < 128)%N.
Proof.
  intros Hm. unfold hexDigit.
  destruct (N.ltb_spec m 10); rewrite N_ascii_embedding; lia.
Qed.

Lemma utf8Encode_hexDigits count d acc :
  length (utf8Encode (hexDigits count d acc))
  = (count + length (utf8Encode acc))%nat.
Proof.
  revert d acc. induction count as [|count IH]; intros d acc; [done|].
  cbn [hexDigits]. rewrite IH. cbn [utf8Encode]. unfold utf8Unit.
  rewrite (proj2 (N.ltb_lt _ _)).
  - simpl. lia.
  - apply hexDigit_ascii. by apply N.mod_lt.
Qed.

Lemma utf8Encode_digestHex bytes d :
  length (utf8Encode (digestHex bytes d)) = (2 * bytes)%nat.
Proof. unfold digestHex. rewrite utf8Encode_hexDigits. simpl. lia. Qed.

Lemma matchesCase_unrecognized (v : jsval) (labels : list string) :
  v ∉ JString <$> labels → Js.matchesCase v labels = false.
Proof.
  unfold Js.matchesCase. induction labels as [|l labels IH]; [done|].
  rewrite fmap_cons, not_elem_of_cons. intros [Hne Hnin]. simpl.
  rewrite IH by done. destruct v; simpl; try done.
  rewrite bool_decide_false; [done|congruence].
Qed.

Lemma internalStatusOf_unrecognized (status : jsval) :
  status ∉ recognizedStatuses → internalStatusOf status = PENDING.
Proof.
  unfold recognizedStatuses, internalStatusOf. intros Hnin.
  rewrite !matchesCase_unrecognized; [done|..];
    intros Hin; apply Hnin;
    repeat (apply elem_of_cons in Hin as [->|Hin]; [repeat constructor|]);
    by apply elem_of_nil in Hin.
Qed.

Lemma find_map_stable {A} (P : A → bool) (f : A → A) (l : list A) :
  (∀ x, P (f x) = P x) → List.find P (map f l) = f <$> List.find P l.
Proof.
  intros HP. induction l as [|x l IH]; simpl; [done|].
  rewrite HP. by destruct (P x).
Qed.

Context `{crypto : Crypto} (MASHREQ_WEBHOOK_SECRET : string).

(** C10. [verifyWebhookSignature] returns a boolean exactly when the
    signature header is 64 bytes long, the byte length of the hex-encoded
    HMAC-SHA256 digest; for a signature of any other byte length
    [crypto.timingSafeEqual] throws a RangeError, it does not return
    false. *)
Theorem verifyWebhookSignature_by_length (payload signature : string) :
  let expectedSignature :=
    digestHex 32 (hmac_sha256 (utf8Encode MASHREQ_WEBHOOK_SECRET)
                              (utf8Encode payload)) in
  String.length expectedSignature = 64%nat
  ∧ length (utf8Encode expectedSignature) = 64%nat
  ∧ verifyWebhookSignature MASHREQ_WEBHOOK_SECRET payload signature
    = if decide (length (utf8Encode signature) = 64%nat)
      then Ok (bool_decide (utf8Encode signature = utf8Encode expectedSignature))
      else Throw (RangeError "Input buffers must have the same byte length").
Proof.
  intros expectedSignature. split; [apply digestHex_length|].
  split; [apply utf8Encode_digestHex|].
  unfold verifyWebhookSignature, timingSafeEqual.
  fold expectedSignature.
  pose proof (utf8Encode_digestHex 32
    (hmac_sha256 (utf8Encode MASHREQ_WEBHOOK_SECRET) (utf8Encode payload))) as Hlen.
  fold expectedSignature in Hlen. rewrite Hlen. reflexivity.
Qed.

(** C9. When the raw body is present and the signature verifies, a
    webhook whose [status] is none of the eight recognized values is
    mapped to [pending], and that status is written to the transaction
    the payload's [transaction_id] refers to: afterwards the lookup by
    that id finds the transaction with status [pending] and the payload
    as its [mashreq_response]. *)
Theorem handleMashreqWebhook_unrecognized_status
    (rawBody signature : string) (payload : jsobj) (db : Database)
    (transaction : Transaction) :
  verifyWebhookSignature MASHREQ_WEBHOOK_SECRET rawBody signature = Ok true →
  Js.prop payload "status" ∉ recognizedStatuses →
  findOneByMashreqId (Js.prop payload "transaction_id") (transactions db)
    = Some transaction →
  internalStatusOf (Js.prop payload "status") = PENDING
  ∧ ∃ db',
      handleMashreqWebhook MASHREQ_WEBHOOK_SECRET (Some rawBody) signature payload db
        = (Ok ReplyOk, db')
      ∧ findOneByMashreqId (Js.prop payload "transaction_id") (transactions db')
        = Some {| id := id transaction;
                  order_id := order_id transaction;
                  mashreq_transaction_id := mashreq_transaction_id transaction;
                  status := PENDING;
                  mashreq_response := Some payload |}.
Proof.
  intros Hsig Hstatus Hfind.
  pose proof (internalStatusOf_unrecognized _ Hstatus) as Hpending.
  split; [done|].
  unfold handleMashreqWebhook. rewrite Hsig, Hpending.
  unfold updateTransactionStatus. rewrite Hfind.
  eexists. split; [reflexivity|]. cbn [transactions].
  unfold findOneByMashreqId in *.
  rewrite find_map_stable.
  - rewrite Hfind. cbn. by rewrite decide_True.
  - intros t. by destruct (decide (id t = id transaction)).
Qed.

End mashreq_facts.

(* ===================================================================== *)
(** * The refund invariant *)
(* ===================================================================== *)

Section refund_facts.
Import Node MigsHashUtil PaymentService PaymentStatusSyncProcessor Lifecycle.

Lemma findByPk_Some paymentId db t :
  findByPk paymentId db = Some t → t ∈ db ∧ id t = paymentId.
Proof.
  unfold findByPk. intros Hfind. apply find_some in Hfind as [Hin Hid].
  split; [by apply list_elem_of_In|]. by apply bool_decide_eq_true in Hid.
Qed.

Lemma primaryKey_unique db t t' :
  primaryKey db → t ∈ db → t' ∈ db → id t = id t' → t = t'.
Proof.
  unfold primaryKey. induction db as [|x db IH]; intros Hnd Ht Ht' Hid.
  { by apply elem_of_nil in Ht. }
  rewrite fmap_cons in Hnd. apply NoDup_cons in Hnd as [Hx Hnd].
  apply elem_of_cons in Ht as [->|Ht]; apply elem_of_cons in Ht' as [->|Ht'];
    [done| | |by apply IH].
  - exfalso. apply Hx. rewrite Hid. by apply list_elem_of_fmap_2.
  - exfalso. apply Hx. rewrite <-Hid. by apply list_elem_of_fmap_2.
Qed.

Lemma primaryKey_update instance values db :
  (∀ t, id (values t) = id t) →
  primaryKey db → primaryKey (update instance values db).
Proof.
  intros Hid. unfold primaryKey, update.
  assert (id <$> map (λ t, if decide (id t = id instance) then values t else t) db
          = id <$> db) as ->; [|done].
  induction db as [|x db IH]; [done|].
  rewrite map_cons, !fmap_cons, IH. f_equal. case_decide; auto.
Qed.

Lemma refundsWithinAmount_update instance values db :
  (∀ t, t ∈ db → id t = id instance →
        refundedAmount (values t) ≤ amount (values t)) →
  refundsWithinAmount db → refundsWithinAmount (update instance values db).
Proof.
  unfold refundsWithinAmount, update. intros Hvalues Hdb.
  apply Forall_forall. intros t' Hin.
  apply list_elem_of_In, in_map_iff in Hin as (t & <- & Hin%list_elem_of_In).
  case_decide; [by apply Hvalues|].
  by apply (proj1 (Forall_forall _ _) Hdb).
Qed.

Context `{crypto : Crypto} (config : MigsConfiguration).

Lemma preserved_refl db : preserved db db.
Proof. by split. Qed.

Lemma preserved_update instance values db :
  (∀ t, id (values t) = id t) →
  (∀ t, primaryKey db → t ∈ db → id t = id instance →
        refundedAmount t ≤ amount t →
        refundedAmount (values t) ≤ amount (values t)) →
  preserved db (update instance values db).
Proof.
  intros Hid Hvalues. split; [by apply primaryKey_update|].
  intros Hpk Hdb. apply refundsWithinAmount_update; [|done].
  intros t Hin Ht. apply Hvalues; try done.
  by apply (proj1 (Forall_forall _ _) Hdb).
Qed.

Lemma inTransaction_preserved {A} db (body : Exc (A * Table)) rethrow :
  (∀ a db', body = Ok (a, db') → preserved db db') →
  preserved db (inTransaction db body rethrow).2.
Proof.
  intros Hbody. destruct body as [[a db']|e]; simpl; [by eapply Hbody|].
  apply preserved_refl.
Qed.

Lemma processPaymentResponse_preserved responseData env db :
  preserved db (processPaymentResponse config responseData env db).2.
Proof.
  apply inTransaction_preserved. intros t db'.
  destruct (verifySecureHash _ _ _) as [[]|]; cbn [mbind Exc_bind negb]; try done.
  destruct (findOneByMerchantTxnRef _ _); [|done].
  intros [= _ <-]. by apply preserved_update.
Qed.

Lemma cancelPayment_preserved paymentId env db :
  preserved db (cancelPayment paymentId env db).2.
Proof.
  apply inTransaction_preserved. intros t db'.
  destruct (findByPk _ _); [|done]. case_decide; [done|].
  intros [= _ <-]. by apply preserved_update.
Qed.

Lemma refundPayment_preserved refundData env gateway db :
  preserved db (refundPayment config refundData env gateway db).2.
Proof.
  apply inTransaction_preserved. intros t db'.
  destruct (findByPk _ _) as [instance|] eqn:Hfind; [|done].
  apply findByPk_Some in Hfind as [Hin Hid].
  case_decide; [done|]. cbv zeta.
  destruct (Z.gtb_spec (refund_amount refundData)
              (amount instance - refundedAmount instance)) as [|Havail]; [done|].
  destruct (generateSecureHash _ _ _) as [h|]; cbn [mbind Exc_bind]; [|done].
  destruct (makeApiCall _ _ _) as [response|]; cbn [mbind Exc_bind]; [|done].
  destruct (processQueryResponse _ _) as [response'|]; cbn [mbind Exc_bind]; [|done].
  destruct (Js.strictEq _ _); intros [= _ <-]; [|apply preserved_refl].
  apply preserved_update; [done|].
  intros row Hpk Hrow Hrid _.
  assert (row = instance) as -> by (by eapply primaryKey_unique).
  simpl. lia.
Qed.

Lemma syncOne_preserved env gateway r db transaction :
  preserved db (syncOne config env gateway (r, db) transaction).2.
Proof.
  unfold syncOne.
  destruct (queryPaymentByTxnRef _ _ _ _) as [gatewayResponse|];
    [|apply preserved_refl].
  destruct (mapGatewayStatusToLocal _); [|apply preserved_refl].
  case_decide; [|apply preserved_refl].
  by apply preserved_update.
Qed.

Lemma preserved_trans db1 db2 db3 :
  preserved db1 db2 → preserved db2 db3 → preserved db1 db3.
Proof. intros [H1 H2] [H3 H4]. split; auto. Qed.

Lemma foldl_syncOne_preserved env gateway pending r db0 db :
  preserved db0 db →
  preserved db0 (foldl (syncOne config env gateway) (r, db) pending).2.
Proof.
  revert r db. induction pending as [|transaction pending IH]; intros r db Hdb;
    [done|].
  cbn [foldl].
  pose proof (syncOne_preserved env gateway r db transaction) as Hstep.
  destruct (syncOne config env gateway (r, db) transaction) as [r' db'].
  apply IH. by eapply preserved_trans.
Qed.

Lemma handlePaymentStatusSync_preserved job env gateway db :
  preserved db (handlePaymentStatusSync config job env gateway db).2.
Proof. apply foldl_syncOne_preserved, preserved_refl. Qed.

Lemma apply_preserved op db : preserved db (apply config op db).
Proof.
  destruct op; simpl.
  - apply processPaymentResponse_preserved.
  - apply cancelPayment_preserved.
  - apply refundPayment_preserved.
  - apply handlePaymentStatusSync_preserved.
Qed.

Lemma run_preserved ops db : preserved db (run config ops db).
Proof.
  unfold run. revert db. induction ops as [|op ops IH]; intros db;
    [apply preserved_refl|].
  cbn [foldl]. eapply preserved_trans; [apply apply_preserved|apply IH].
Qed.

(** C3. Monotonic refund invariant: on a table that satisfies its primary
    key constraint and has [refundedAmount <= amount] on every row, every
    sequence of service calls (refunds, callbacks, cancellations, worker
    runs, whatever the gateway answers) leaves [refundedAmount <= amount]
    on every row; and a refund whose amount exceeds [amount -
    refundedAmount] of the transaction it names fails with the
    BadRequestException (HTTP 400) of the validation failure and leaves
    the table as it was. *)
Theorem refund_within_amount :
  (∀ (ops : list Operation) (db : Table),
      primaryKey db → refundsWithinAmount db →
      refundsWithinAmount (run config ops db))
  ∧ (∀ (refundData : RefundPaymentDto) (env : Env) (gateway : Gateway)
       (db : Table) (t : PaymentTransaction),
      findByPk (paymentId refundData) db = Some t →
      refund_amount refundData > amount t - refundedAmount t →
      refundPayment config refundData env gateway db
      = (Throw (BadRequestException "Refund processing failed"), db)).
Proof.
  split.
  - intros ops db Hpk Hdb. by apply (run_preserved ops db).
  - intros refundData env gateway db t Hfind Hexceeds.
    unfold refundPayment. rewrite Hfind.
    case_decide; [done|].
    by rewrite (proj2 (Z.gtb_gt _ _)).
Qed.

End refund_facts.

(* ===================================================================== *)
(** * Where the services depart from the specification *)
(* ===================================================================== *)

Section departures.
Import Node MigsHashUtil PaymentService PaymentStatusSyncProcessor.
Context `{crypto : Crypto}.

(** C1. A callback for a refunded transaction is not rejected.  The
    sample order is fully refunded ([refunded], 100.00 of 100.00); the
    approved callback for it, signed with the configured secret, makes
    [processPaymentResponse] return normally and write [success] over
    [refunded]. *)
Theorem processPaymentResponse_overwrites_refunded :
  ∃ (h : string) (t' : PaymentTransaction),
    generateSecureHash Sample.approvedCallback (secureSecret Sample.config)
                       (hashTypeValue SHA256) = Ok h
    ∧ processPaymentResponse Sample.config
        (Js.set Sample.approvedCallback "vpc_SecureHash" (JString h))
        Sample.env [Sample.transaction REFUNDED 10000]
      = (Ok t', [t'])
    ∧ status t' = SUCCESS
    ∧ refundedAmount t' = 10000.
Proof.
  assert (∃ h, generateSecureHash Sample.approvedCallback
                 (secureSecret Sample.config) (hashTypeValue SHA256) = Ok h)
    as [h Hgen] by (eexists; reflexivity).
  exists h. eexists. split; [exact Hgen|].
  unfold processPaymentResponse, vpcSecureAlgo.
  rewrite (verifySecureHash_signed _ _ SHA256 _ Hgen).
  cbn [mbind Exc_bind negb].
  split; [|split]; reflexivity.
Qed.

(** C2. The second of two partial refunds is refused.  On the sample
    order (100.00, [success]) with a gateway that approves, a refund of
    40.00 leaves [partially_refunded] with 40.00 refunded; the refund of
    the remaining 60.00 then fails and changes nothing. *)
Theorem refundPayment_refuses_partially_refunded :
  refundPayment Sample.config (Sample.refund 4000) Sample.env
                Sample.approvingJsonGateway [Sample.transaction SUCCESS 0]
  = (Ok (Sample.transaction PARTIALLY_REFUNDED 4000),
     [Sample.transaction PARTIALLY_REFUNDED 4000])
  ∧ refundPayment Sample.config (Sample.refund 6000) Sample.env
                  Sample.approvingJsonGateway
                  [Sample.transaction PARTIALLY_REFUNDED 4000]
    = (Throw (BadRequestException "Refund processing failed"),
       [Sample.transaction PARTIALLY_REFUNDED 4000]).
Proof. split; reflexivity. Qed.

(** C6. A stale pending transaction is not reconciled.  The sample order
    is [pending] and six minutes old; the gateway answers the query with
    the form-encoded body of an approved transaction.  [parseResponse]
    turns the response code "0" into the number 0, which no [case] of
    [mapGatewayStatusToLocal] equals, so the run counts the transaction
    as skipped and leaves it [pending].  The same holds of every
    form-encoded answer: the code [parseResponse] yields is never one the
    worker recognizes. *)
Theorem handlePaymentStatusSync_skips_approved :
  handlePaymentStatusSync Sample.config Sample.job Sample.env
                          Sample.approvingGateway [Sample.pendingTransaction]
  = ({| processedCount := 1; updatedCount := 0; errorCount := 0;
        skippedCount := 1; errors := [] |},
     [Sample.pendingTransaction])
  ∧ (parsed ← parseResponse "vpc_TxnResponseCode=0&vpc_Message=Approved";
     Ok (Js.prop parsed "vpc_TxnResponseCode")) = Ok (JNumber 0 0)
  ∧ mapGatewayStatusToLocal (JNumber 0 0) = None
  ∧ mapGatewayStatusToLocal (JString "0") = Some SUCCESS
  ∧ ∀ responseString,
      (parsed ← parseResponse responseString;
       Ok (mapGatewayStatusToLocal (Js.prop parsed "vpc_TxnResponseCode")))
      = Ok None.
Proof.
  repeat split; try reflexivity. apply parseResponse_code_unrecognized.
Qed.

End departures.

(* ===================================================================== *)
(** * The theorems with hypotheses, at concrete inputs *)
(* ===================================================================== *)

Section instances.
Import Node MigsHashUtil PaymentService PaymentStatusSyncProcessor Lifecycle.

Lemma generateSecureHash_order_and_blanks_sample :
  (NoDup (Js.keys Sample.queryParams)
   ∧ Sample.queryParams ≡ₚ Sample.queryParamsReordered
   ∧ generateSecureHash (crypto := Sample.crypto) Sample.queryParamsReordered
                        "0A1B2C3D" (hashTypeValue SHA256)
     = generateSecureHash (crypto := Sample.crypto) Sample.queryParams
                          "0A1B2C3D" (hashTypeValue SHA256))
  ∧ (("vpc_Locale"
        ∉ Js.keys (Sample.queryParams ++ [("vpc_Gateway", JString "ssl")]))
     ∧ isBlank (JString "  ") = true
     ∧ generateSecureHash (crypto := Sample.crypto)
         (Sample.queryParams
            ++ (("vpc_Locale", JString "  ") :: [("vpc_Gateway", JString "ssl")]))
         "0A1B2C3D" (hashTypeValue SHA256)
       = generateSecureHash (crypto := Sample.crypto)
           (Sample.queryParams ++ [("vpc_Gateway", JString "ssl")])
           "0A1B2C3D" (hashTypeValue SHA256)).
Proof.
  destruct (generateSecureHash_order_and_blanks (crypto := Sample.crypto)
              "0A1B2C3D" SHA256) as [Horder Hblank].
  assert (NoDup (Js.keys Sample.queryParams)) as Hnd
    by (apply (bool_decide_unpack _); vm_compute; exact I).
  assert (Sample.queryParams ≡ₚ Sample.queryParamsReordered) as Hperm
    by apply Permutation_cons_append.
  assert ("vpc_Locale" ∉ Js.keys (Sample.queryParams ++ [("vpc_Gateway", JString "ssl")]))
    as Hfresh by (apply (bool_decide_unpack _); vm_compute; exact I).
  split; [split; [exact Hnd|split; [exact Hperm|]]|split; [exact Hfresh|split; [reflexivity|]]].
  - exact (Horder _ _ Hnd Hperm).
  - exact (Hblank Sample.queryParams [("vpc_Gateway", JString "ssl")]
                  "vpc_Locale" (JString "  ") Hfresh eq_refl).
Defined.

Lemma refund_within_amount_sample :
  (primaryKey [Sample.transaction SUCCESS 0]
   ∧ refundsWithinAmount [Sample.transaction SUCCESS 0]
   ∧ refundsWithinAmount
       (run (crypto := Sample.crypto) Sample.config
            [RefundPayment (Sample.refund 4000) Sample.env Sample.approvingJsonGateway;
             RefundPayment (Sample.refund 7000) Sample.env Sample.approvingJsonGateway;
             CancelPayment "7d9f0c1e-0001" Sample.env]
            [Sample.transaction SUCCESS 0]))
  ∧ (findByPk (paymentId (Sample.refund 7000))
              [Sample.transaction PARTIALLY_REFUNDED 4000]
     = Some (Sample.transaction PARTIALLY_REFUNDED 4000)
     ∧ refund_amount (Sample.refund 7000)
       > amount (Sample.transaction PARTIALLY_REFUNDED 4000)
         - refundedAmount (Sample.transaction PARTIALLY_REFUNDED 4000)
     ∧ refundPayment (crypto := Sample.crypto) Sample.config (Sample.refund 7000)
         Sample.env Sample.approvingJsonGateway
         [Sample.transaction PARTIALLY_REFUNDED 4000]
       = (Throw (BadRequestException "Refund processing failed"),
          [Sample.transaction PARTIALLY_REFUNDED 4000])).
Proof.
  destruct (refund_within_amount (crypto := Sample.crypto) Sample.config)
    as [Hrun Hexceeds].
  assert (primaryKey [Sample.transaction SUCCESS 0]) as Hpk
    by (apply (bool_decide_unpack _); vm_compute; exact I).
  assert (refundsWithinAmount [Sample.transaction SUCCESS 0]) as Hdb
    by (repeat constructor; simpl; lia).
  split; [split; [exact Hpk|split; [exact Hdb|]]|split; [reflexivity|split; [reflexivity|]]].
  - exact (Hrun _ _ Hpk Hdb).
  - exact (Hexceeds (Sample.refund 7000) Sample.env Sample.approvingJsonGateway
                    [Sample.transaction PARTIALLY_REFUNDED 4000]
                    (Sample.transaction PARTIALLY_REFUNDED 4000) eq_refl eq_refl).
Defined.

Lemma handleMashreqWebhook_unrecognized_status_sample :
  Mashreq.verifyWebhookSignature (crypto := Sample.crypto) Sample.webhookSecret
    Sample.webhookBody Sample.webhookSignature = Ok true
  ∧ (Js.prop Sample.webhookPayload "status" ∉ Mashreq.recognizedStatuses)
  ∧ Mashreq.findOneByMashreqId (Js.prop Sample.webhookPayload "transaction_id")
      (Mashreq.transactions Sample.mashreqDatabase)
    = Some Sample.mashreqTransaction
  ∧ Mashreq.internalStatusOf (Js.prop Sample.webhookPayload "status")
    = Mashreq.PENDING
  ∧ ∃ db',
      Mashreq.handleMashreqWebhook (crypto := Sample.crypto) Sample.webhookSecret
        (Some Sample.webhookBody) Sample.webhookSignature Sample.webhookPayload
        Sample.mashreqDatabase
      = (Ok Mashreq.ReplyOk, db')
      ∧ Mashreq.findOneByMashreqId (Js.prop Sample.webhookPayload "transaction_id")
          (Mashreq.transactions db')
        = Some {| Mashreq.id := Mashreq.id Sample.mashreqTransaction;
                  Mashreq.order_id := Mashreq.order_id Sample.mashreqTransaction;
                  Mashreq.mashreq_transaction_id :=
                    Mashreq.mashreq_transaction_id Sample.mashreqTransaction;
                  Mashreq.status := Mashreq.PENDING;
                  Mashreq.mashreq_response := Some Sample.webhookPayload |}.
Proof.
  assert (Mashreq.verifyWebhookSignature (crypto := Sample.crypto)
            Sample.webhookSecret Sample.webhookBody Sample.webhookSignature
          = Ok true) as Hsig by (vm_compute; reflexivity).
  assert (Js.prop Sample.webhookPayload "status" ∉ Mashreq.recognizedStatuses)
    as Hstatus by (apply (bool_decide_unpack _); vm_compute; exact I).
  split; [exact Hsig|split; [exact Hstatus|split; [reflexivity|]]].
  exact (handleMashreqWebhook_unrecognized_status (crypto := Sample.crypto)
           Sample.webhookSecret Sample.webhookBody Sample.webhookSignature
           Sample.webhookPayload Sample.mashreqDatabase Sample.mashreqTransaction
           Hsig Hstatus eq_refl).
Defined.

End instances.

(* ===================================================================== *)
(** * Further properties: the rows through the life of the service *)
(* ===================================================================== *)

Section lifecycle_facts.
Import Node MigsHashUtil PaymentService PaymentStatusSyncProcessor Lifecycle.

Lemma evolves_refl t : evolves t t.
Proof. by repeat split. Qed.

Lemma evolves_trans t1 t2 t3 : evolves t1 t2 → evolves t2 t3 → evolves t1 t3.
Proof.
  intros (?&?&?&?&?&?&H12) (?&?&?&?&?&?&H23).
  repeat split; try congruence.
  intros Hp. specialize (H23 Hp). subst t3. auto.
Qed.

Lemma Forall2_evolves_refl db : Forall2 evolves db db.
Proof. induction db; constructor; auto using evolves_refl. Qed.

Lemma Forall2_evolves_trans db1 db2 db3 :
  Forall2 evolves db1 db2 → Forall2 evolves db2 db3 → Forall2 evolves db1 db3.
Proof.
  intros H12. revert db3. induction H12; intros db3 H23; inversion H23; subst;
    constructor; eauto using evolves_trans.
Qed.

Lemma Forall2_evolves_update instance values db :
  (∀ t, evolves t (values t)) →
  Forall2 evolves db (update instance values db).
Proof.
  intros Hvalues. unfold update. induction db as [|t db IH]; simpl; constructor;
    [|done].
  case_decide; auto using evolves_refl.
Qed.

Lemma inTransaction_evolves {A} db (body : Exc (A * Table)) rethrow :
  (∀ a db', body = Ok (a, db') → Forall2 evolves db db') →
  Forall2 evolves db (inTransaction db body rethrow).2.
Proof.
  intros Hbody. destruct body as [[a db']|e]; simpl; [by eapply Hbody|].
  apply Forall2_evolves_refl.
Qed.

Lemma mapGatewayStatusToLocal_Some responseCode newStatus :
  mapGatewayStatusToLocal responseCode = Some newStatus →
  newStatus = SUCCESS ∨ newStatus = FAILED.
Proof.
  unfold mapGatewayStatusToLocal. repeat case_match; naive_solver.
Qed.

Context `{crypto : Crypto} (config : MigsConfiguration).

Lemma processPaymentResponse_evolves responseData env db :
  Forall2 evolves db (processPaymentResponse config responseData env db).2.
Proof.
  apply inTransaction_evolves. intros t db'.
  destruct (verifySecureHash _ _ _) as [[]|]; cbn [mbind Exc_bind negb]; try done.
  destruct (findOneByMerchantTxnRef _ _); [|done].
  intros [= _ <-]. apply Forall2_evolves_update.
  intros row. repeat split. unfold transactionStatusOf. simpl. by case_match.
Qed.

Lemma cancelPayment_evolves paymentId env db :
  Forall2 evolves db (cancelPayment paymentId env db).2.
Proof.
  apply inTransaction_evolves. intros t db'.
  destruct (findByPk _ _); [|done]. case_decide; [done|].
  intros [= _ <-]. apply Forall2_evolves_update. intros row. by repeat split.
Qed.

Lemma refundPayment_evolves refundData env gateway db :
  Forall2 evolves db (refundPayment config refundData env gateway db).2.
Proof.
  apply inTransaction_evolves. intros t db'.
  destruct (findByPk _ _) as [instance|]; [|done].
  case_decide; [done|]. cbv zeta.
  destruct (_ >? _); [done|].
  destruct (generateSecureHash _ _ _) as [h|]; cbn [mbind Exc_bind]; [|done].
  destruct (makeApiCall _ _ _) as [response|]; cbn [mbind Exc_bind]; [|done].
  destruct (processQueryResponse _ _) as [response'|]; cbn [mbind Exc_bind]; [|done].
  destruct (Js.strictEq _ _); intros [= _ <-]; [|apply Forall2_evolves_refl].
  apply Forall2_evolves_update. intros row. repeat split. simpl. by case_match.
Qed.

Lemma syncOne_evolves env gateway r db transaction :
  Forall2 evolves db (syncOne config env gateway (r, db) transaction).2.
Proof.
  unfold syncOne.
  destruct (queryPaymentByTxnRef _ _ _ _) as [gatewayResponse|];
    [|apply Forall2_evolves_refl].
  destruct (mapGatewayStatusToLocal _) as [newStatus|] eqn:Hmap;
    [|apply Forall2_evolves_refl].
  case_decide; [|apply Forall2_evolves_refl].
  apply Forall2_evolves_update. intros row. repeat split. simpl.
  apply mapGatewayStatusToLocal_Some in Hmap as [-> | ->]; done.
Qed.

Lemma foldl_syncOne_evolves env gateway pending r db0 db :
  Forall2 evolves db0 db →
  Forall2 evolves db0 (foldl (syncOne config env gateway) (r, db) pending).2.
Proof.
  revert r db. induction pending as [|transaction pending IH]; intros r db Hdb;
    [done|].
  cbn [foldl].
  pose proof (syncOne_evolves env gateway r db transaction) as Hstep.
  destruct (syncOne config env gateway (r, db) transaction) as [r' db'].
  apply IH. by eapply Forall2_evolves_trans.
Qed.

Lemma apply_evolves op db : Forall2 evolves db (apply config op db).
Proof.
  destruct op; simpl.
  - apply processPaymentResponse_evolves.
  - apply cancelPayment_evolves.
  - apply refundPayment_evolves.
  - apply foldl_syncOne_evolves, Forall2_evolves_refl.
Qed.

(** X1. Through any sequence of callbacks, cancellations, refunds and
    worker runs the table keeps its rows, in place: none is added, removed
    or moved; [id], [merchantTxnRef], [orderInfo], [amount], [currency] and
    [createdAt] of a row never change; and a row that is pending at the end
    has not been written at all (no operation sets a status back to
    pending). *)
Theorem run_evolves (ops : list Operation) (db : Table) :
  Forall2 evolves db (run config ops db).
Proof.
  unfold run. revert db. induction ops as [|op ops IH]; intros db;
    [apply Forall2_evolves_refl|].
  cbn [foldl]. eapply Forall2_evolves_trans; [apply apply_evolves|apply IH].
Qed.

End lifecycle_facts.

(* ===================================================================== *)
(** * Further properties: cancel, callback and refund *)
(* ===================================================================== *)

Section operation_facts.
Import Node MigsHashUtil PaymentService PaymentStatusSyncProcessor Lifecycle.

Lemma findByPk_update paymentId instance values db :
  (∀ t, id (values t) = id t) →
  findByPk paymentId (update instance values db)
  = (λ t, if decide (id t = id instance) then values t else t)
      <$> findByPk paymentId db.
Proof.
  intros Hid. unfold findByPk, update. apply find_map_stable.
  intros t. case_decide; [by rewrite Hid|done].
Qed.

Lemma findOneByMerchantTxnRef_update ref instance values db :
  (∀ t, merchantTxnRef (values t) = merchantTxnRef t) →
  findOneByMerchantTxnRef ref (update instance values db)
  = (λ t, if decide (id t = id instance) then values t else t)
      <$> findOneByMerchantTxnRef ref db.
Proof.
  intros Href. unfold findOneByMerchantTxnRef, update. apply find_map_stable.
  intros t. case_decide; [by rewrite Href|done].
Qed.

Lemma findByPk_update_other paymentId instance values db :
  (∀ t, id (values t) = id t) → paymentId ≠ id instance →
  findByPk paymentId (update instance values db) = findByPk paymentId db.
Proof.
  intros Hid Hne. rewrite findByPk_update by done.
  destruct (findByPk paymentId db) as [t|] eqn:Hfind; [|done].
  apply findByPk_Some in Hfind as [_ <-]. simpl. by rewrite decide_False.
Qed.

Lemma findByPk_elem_of t db : t ∈ db → is_Some (findByPk (id t) db).
Proof.
  intros Hin. unfold findByPk.
  destruct (List.find _ db) as [r|] eqn:Hfind; [by eexists|].
  apply list_elem_of_In in Hin.
  pose proof (find_none _ _ Hfind _ Hin) as Hnone. simpl in Hnone.
  by rewrite bool_decide_true in Hnone.
Qed.

Lemma update_id_idempotent instance values db :
  (∀ t, id (values t) = id t) → (∀ t, values (values t) = values t) →
  update instance values (update instance values db) = update instance values db.
Proof.
  intros Hid Hidem. unfold update. rewrite map_map. apply map_ext. intros t.
  destruct (decide (id t = id instance)) as [Ht|Ht].
  - rewrite decide_True by (by rewrite Hid). apply Hidem.
  - by rewrite decide_False.
Qed.

Lemma Forall2_update_elem (R : PaymentTransaction → PaymentTransaction → Prop)
    instance values db :
  (∀ t, R t t) →
  (∀ t, t ∈ db → id t = id instance → R t (values t)) →
  Forall2 R db (update instance values db).
Proof.
  intros Hrefl Hvalues. unfold update. induction db as [|t db IH]; simpl;
    constructor.
  - case_decide; [apply Hvalues; [left|done]|apply Hrefl].
  - apply IH. intros t' Hin. apply Hvalues. by right.
Qed.

(** [findByPk] returns a row of the id asked for. *)
Lemma findByPk_id paymentId db t :
  findByPk paymentId db = Some t → id t = paymentId.
Proof. intros Hfind. by apply findByPk_Some in Hfind as [_ ?]. Qed.

(** X2. [cancelPayment] succeeds exactly on a pending transaction: the row
    becomes cancelled with [processedAt] set to the time of the call, and no
    other payment id sees a change.  On any other status it throws a
    BadRequestException naming the status, on an unknown id a
    NotFoundException, and the table is left as it was.  A cancelled
    payment cannot be cancelled again. *)
Theorem cancelPayment_outcomes (paymentId : string) (env env' : Env) (db : Table) :
  match findByPk paymentId db with
  | None =>
      cancelPayment paymentId env db
      = (Throw (NotFoundException ("Payment not found: " +:+ paymentId)), db)
  | Some t =>
      if decide (status t = PENDING) then
        let cancelled :=
          {| id := id t; merchantTxnRef := merchantTxnRef t;
             transactionId := transactionId t; orderInfo := orderInfo t;
             amount := amount t; currency := currency t; status := CANCELLED;
             responseCode := responseCode t; responseMessage := responseMessage t;
             authCode := authCode t; receiptNo := receiptNo t; batchNo := batchNo t;
             gatewayResponse := gatewayResponse t;
             refundedAmount := refundedAmount t;
             processedAt := Some (now env); createdAt := createdAt t |} in
        ∃ db',
          cancelPayment paymentId env db = (Ok cancelled, db')
          ∧ findByPk paymentId db' = Some cancelled
          ∧ (∀ other, other ≠ paymentId → findByPk other db' = findByPk other db)
          ∧ cancelPayment paymentId env' db'
            = (Throw (BadRequestException
                        "Payment cannot be cancelled - current status: cancelled"),
               db')
      else
        cancelPayment paymentId env db
        = (Throw (BadRequestException
                    ("Payment cannot be cancelled - current status: "
                       +:+ statusValue (status t))), db)
  end.
Proof.
  destruct (findByPk paymentId db) as [t|] eqn:Hfind.
  2:{ unfold cancelPayment. by rewrite Hfind. }
  pose proof (findByPk_id _ _ _ Hfind) as Hid.
  destruct (decide (status t = PENDING)) as [Hp|Hp].
  - cbv zeta. eexists.
    assert (∀ db', findByPk paymentId db' = findByPk (id t) db') as Hpid
      by (intros; by rewrite Hid).
    split; [|split; [|split]].
    + unfold cancelPayment. rewrite Hfind.
      destruct (decide (status t ≠ PENDING)) as [Hn|_]; [by destruct Hn|].
      cbv zeta. unfold inTransaction. f_equal. f_equal. unfold reload.
      rewrite <-Hpid, findByPk_update, Hfind by done. simpl.
      by rewrite decide_True.
    + rewrite findByPk_update, Hfind by done. simpl. by rewrite decide_True.
    + intros other Hother. apply findByPk_update_other; [done|congruence].
    + unfold cancelPayment at 1. rewrite findByPk_update, Hfind by done. simpl.
      destruct (decide (id t = id t)) as [_|?]; [|done]. reflexivity.
  - unfold cancelPayment. rewrite Hfind. by rewrite decide_True.
Qed.

Context `{crypto : Crypto} (config : MigsConfiguration).

Lemma verifySecureHash_unsigned parameters secret hashType :
  Js.truthy (Js.prop parameters "vpc_SecureHash") = false →
  verifySecureHash parameters secret hashType = Ok false.
Proof. intros Hh. unfold verifySecureHash. by rewrite Hh. Qed.

(** X3. [processPaymentResponse] writes to the table only when the
    response carries a secure hash that [verifySecureHash] accepts: if
    the table differs afterwards, the hash verified; and a response whose
    [vpc_SecureHash] is absent, null or empty is refused with a
    BadRequestException, whether or not its transaction exists, the table
    being left as it was. *)
Theorem processPaymentResponse_integrity (responseData : jsobj) (env : Env)
    (db : Table) :
  ((processPaymentResponse config responseData env db).2 ≠ db →
   verifySecureHash responseData (secureSecret config) (hashTypeValue SHA256)
   = Ok true)
  ∧ (Js.truthy (Js.prop responseData "vpc_SecureHash") = false →
     processPaymentResponse config responseData env db
     = (Throw (BadRequestException
                 "Invalid secure hash - response integrity compromised"), db)).
Proof.
  split.
  - unfold processPaymentResponse, vpcSecureAlgo.
    destruct (verifySecureHash _ _ _) as [[]|]; cbn [mbind Exc_bind negb];
      simpl; done.
  - intros Hh. unfold processPaymentResponse.
    by rewrite verifySecureHash_unsigned.
Qed.

(** X4. A callback may be replayed: processing the same response a second
    time (same clock reading) returns the same record and leaves the table
    exactly as the first processing left it. *)
Theorem processPaymentResponse_replay (responseData : jsobj) (env : Env)
    (db : Table) :
  processPaymentResponse config responseData env
    (processPaymentResponse config responseData env db).2
  = processPaymentResponse config responseData env db.
Proof.
  unfold processPaymentResponse.
  destruct (verifySecureHash _ _ _) as [[]|]; cbn [mbind Exc_bind negb]; try done.
  destruct (findOneByMerchantTxnRef _ db) as [t|] eqn:Hfind; cbv zeta;
    cbn [inTransaction snd]; [|by rewrite Hfind].
  rewrite findOneByMerchantTxnRef_update, Hfind by done. cbn [fmap option_fmap option_map].
  rewrite decide_True by done.
  set (updateData := λ t0 : PaymentTransaction, _).
  assert (update (updateData t) updateData (update t updateData db)
          = update t updateData db) as Hsame.
  { change (update (updateData t) updateData (update t updateData db))
      with (update t updateData (update t updateData db)).
    by apply update_id_idempotent. }
  assert (is_Some (findByPk (id t) (update t updateData db))) as [r Hr].
  { rewrite findByPk_update by done.
    destruct (findByPk_elem_of t db) as [r' ->]; [|by eexists].
    apply list_elem_of_In. by apply find_some in Hfind as [? _]. }
  cbn [inTransaction]. subst updateData. cbv beta in Hsame. cbv beta.
  rewrite Hsame. unfold reload. cbn [id]. by rewrite Hr.
Qed.

End operation_facts.

(* ===================================================================== *)
(** * Further properties: the answers of the gateway *)
(* ===================================================================== *)

Section answer_facts.
Import Node MigsHashUtil PaymentService PaymentStatusSyncProcessor Lifecycle.

Lemma get_without_eq {V} (o : Js.obj V) key : Js.get (Js.without key o) key = None.
Proof.
  unfold Js.without, Js.obj. induction o as [|[k v] o IH]; [done|].
  rewrite filter_cons. case_decide as Hk; simpl in *; [|done].
  by rewrite decide_False.
Qed.

Lemma get_without_ne {V} (o : Js.obj V) key key' :
  key ≠ key' → Js.get (Js.without key o) key' = Js.get o key'.
Proof.
  intros Hne. unfold Js.without, Js.obj. induction o as [|[k v] o IH]; [done|].
  rewrite filter_cons. case_decide as Hk; simpl in *.
  - by rewrite IH.
  - rewrite IH. subst k. by rewrite decide_False.
Qed.

Lemma keys_set_NoDup {V} (o : Js.obj V) key v :
  NoDup (Js.keys o) → NoDup (Js.keys (Js.set o key v)).
Proof.
  intros Hnd. destruct (decide (key ∈ Js.keys o)) as [Hin|Hnin].
  - by rewrite keys_set_elem.
  - rewrite set_fresh by done. unfold Js.keys in *. rewrite fmap_app.
    apply NoDup_app. split; [done|]. split; [|apply NoDup_singleton].
    intros k Hk ->%list_elem_of_singleton. done.
Qed.

(** What holds of [undefined] and of every coerced value holds of every
    property of a parsed response. *)
Lemma parseResponse_prop (P : jsval → Prop) responseString parsed key :
  P JUndefined → (∀ value, P (parseValue value)) →
  parseResponse responseString = Ok parsed → P (Js.prop parsed key).
Proof.
  intros Hundef Hvalue [= <-].
  assert (∀ entries (result : jsobj),
            P (Js.prop result key) →
            P (Js.prop (foldl (λ result '(key, value),
                                 Js.set result key (parseValue value))
                              result entries) key)) as Hfold.
  { induction entries as [|[k value] entries IH]; intros result Hresult; [done|].
    cbn [foldl]. apply IH.
    destruct (decide (k = key)) as [->|Hne].
    - by rewrite prop_set_eq.
    - by rewrite prop_set_ne. }
  by apply Hfold.
Qed.

Lemma parseResponse_keys responseString parsed :
  parseResponse responseString = Ok parsed → NoDup (Js.keys parsed).
Proof.
  intros [= <-].
  assert (∀ entries (result : jsobj),
            NoDup (Js.keys result) →
            NoDup (Js.keys (foldl (λ result '(key, value),
                                     Js.set result key (parseValue value))
                                  result entries))) as Hfold.
  { induction entries as [|[k value] entries IH]; intros result Hresult; [done|].
    cbn [foldl]. apply IH. by apply keys_set_NoDup. }
  apply Hfold. apply NoDup_nil_2.
Qed.

Lemma isInteger_digits value :
  isInteger value = false → value ≠ "0".
Proof. by intros Hint ->. Qed.

(** X5. The object [parseResponse] returns has no key twice, and none of
    its properties is a numeric-looking string: a value of the body made of
    digits, or of digits with a decimal point, has become a number, so a
    property is [undefined], a number, or a string matching neither
    pattern. *)
Theorem parseResponse_coerces (responseString : string) (key : string) :
  ∃ parsed,
    parseResponse responseString = Ok parsed
    ∧ NoDup (Js.keys parsed)
    ∧ match Js.prop parsed key with
      | JUndefined | JNumber _ _ => True
      | JString value => isInteger value = false ∧ isDecimal value = None
      | JNull => False
      end.
Proof.
  eexists. split; [reflexivity|]. split; [by eapply parseResponse_keys|].
  eapply (parseResponse_prop
            (λ v, match v with
                  | JUndefined | JNumber _ _ => True
                  | JString value => isInteger value = false ∧ isDecimal value = None
                  | JNull => False
                  end)); [done| |reflexivity].
  intros value. unfold parseValue.
  destruct (isInteger value) eqn:Hint; [done|].
  by destruct (isDecimal value) as [[ip fp]|] eqn:Hdec.
Qed.

Lemma parseValue_not_approved value :
  Js.strictEq (parseValue value) (JString "0") = false.
Proof.
  unfold parseValue. destruct (isInteger value) eqn:Hint; [done|].
  destruct (isDecimal value) as [[ip fp]|]; [done|]. simpl.
  apply bool_decide_eq_false. by intros ->.
Qed.

Context `{crypto : Crypto} (config : MigsConfiguration).

Lemma processQueryResponse_Some (r : jsobj) :
  processQueryResponse config (Some r)
  = if Js.truthy (Js.prop r "vpc_SecureHash")
    then Throw (ServiceUnavailableException "Response validation failed")
    else Ok r.
Proof.
  unfold processQueryResponse.
  destruct (Js.truthy (Js.prop r "vpc_SecureHash")); [|done].
  rewrite verifySecureHash_unsigned; [done|].
  unfold Js.prop. rewrite get_without_ne by done. by rewrite get_without_eq.
Qed.

(** X6. [processQueryResponse] never accepts a response that carries a
    secure hash: the hash is taken out of the object before
    [verifySecureHash] looks for it, so verification fails and the call
    throws ServiceUnavailableException("Response validation failed").  A
    response without a hash (absent, null, empty or zero) is returned as it
    is, and a null response is refused as empty. *)
Theorem processQueryResponse_outcomes (response : option jsobj) :
  processQueryResponse config response
  = match response with
    | None =>
        Throw (ServiceUnavailableException "Empty response received from gateway")
    | Some r =>
        if Js.truthy (Js.prop r "vpc_SecureHash")
        then Throw (ServiceUnavailableException "Response validation failed")
        else Ok r
    end.
Proof.
  destruct response as [r|]; [apply processQueryResponse_Some|done].
Qed.

Lemma makeApiCall_error_kinds (data : jsobj) (gateway : Gateway) (e : Exception) :
  makeApiCall config data gateway = Throw e →
  (∃ message, e = ServiceUnavailableException message)
  ∨ e = GatewayTimeoutException "Gateway request timed out".
Proof.
  unfold makeApiCall, axiosPost.
  destruct (gateway (gatewayQueryUrl config) _) as [response|code message];
    cbn [mbind Exc_bind tryCatch].
  - destruct (http_status response <? 500); cbn [mbind Exc_bind tryCatch].
    + destruct (400 <=? http_status response); cbn [tryCatch];
        [intros [= <-]; left; by eexists|].
      destruct (http_data response) as [s| |]; [|done..].
      by destruct (_ && _).
    + destruct (http_status response / 100 =? 4); cbn [tryCatch];
        intros [= <-]; left; by eexists.
  - repeat case_decide; intros [= <-]; (by right) || (left; by eexists).
Qed.

(** X7. Whatever goes wrong in the exchange with the gateway, [makeApiCall]
    throws either a ServiceUnavailableException or the
    GatewayTimeoutException of an aborted request; both carry a status of
    500 or more, so the reconciliation worker classifies every error of the
    exchange as retryable. *)
Theorem makeApiCall_throws (data : jsobj) (gateway : Gateway) (e : Exception) :
  makeApiCall config data gateway = Throw e →
  ((∃ message, e = ServiceUnavailableException message)
   ∨ e = GatewayTimeoutException "Gateway request timed out")
  ∧ isRetryableError e = true.
Proof.
  intros Hthrow. split; [by eapply makeApiCall_error_kinds|].
  apply makeApiCall_error_kinds in Hthrow as [[message ->]| ->];
    unfold isRetryableError; simpl; by rewrite ?orb_true_r.
Qed.

End answer_facts.


(* ===================================================================== *)
(** * Further properties: refunds *)
(* ===================================================================== *)

Section refund_more_facts.
Import Node MigsHashUtil PaymentService PaymentStatusSyncProcessor Lifecycle.

(** Where no value is a number, the filter loop runs to its end. *)
Lemma filterParams_no_number parameters keys acc :
  (∀ key, key ∈ keys →
          match Js.prop parameters key with JNumber _ _ => False | _ => True end) →
  ∃ filteredParams, filterParams parameters keys acc = Ok filteredParams.
Proof.
  revert acc. induction keys as [|key keys IH]; intros acc Hty; simpl; [by eexists|].
  assert (∀ acc, ∃ f, filterParams parameters keys acc = Ok f) as IH'
    by (intros; apply IH; intros; apply Hty; by right).
  pose proof (Hty key ltac:(left)) as Hkey.
  destruct (Js.prop _ key) as [| |s|]; [..|done]; simpl;
    rewrite ?andb_false_r, ?andb_false_l; simpl; repeat case_match; auto.
Qed.

Context `{crypto : Crypto} (config : MigsConfiguration).

Lemma generateSecureHash_no_number parameters secret :
  (∀ key, key ∈ Js.keys parameters →
          match Js.prop parameters key with JNumber _ _ => False | _ => True end) →
  ∃ h, generateSecureHash parameters secret (hashTypeValue SHA256) = Ok h.
Proof.
  intros Hty. unfold generateSecureHash.
  destruct (filterParams_no_number parameters (Js.keys parameters) [] Hty)
    as [f ->].
  cbn. by eexists.
Qed.

Lemma makeApiCall_text (data : jsobj) (gateway : Gateway) (answer : option jsobj) :
  answersWithText gateway →
  makeApiCall config data gateway = Ok answer →
  ∃ r, answer = Some r
       ∧ Js.strictEq (Js.prop r "vpc_TxnResponseCode") (JString "0") = false
       ∧ mapGatewayStatusToLocal (Js.prop r "vpc_TxnResponseCode") = None.
Proof.
  intros Htext. unfold makeApiCall, axiosPost.
  match goal with |- context [gateway ?u ?f] => specialize (Htext u f) end.
  destruct (gateway (gatewayQueryUrl config) _) as [response|code message];
    cbn [mbind Exc_bind tryCatch].
  2:{ repeat case_decide; done. }
  destruct (http_status response <? 500); cbn [mbind Exc_bind tryCatch].
  2:{ by destruct (http_status response / 100 =? 4). }
  destruct (400 <=? http_status response); cbn [tryCatch]; [done|].
  destruct (http_data response) as [s| |]; [|done..].
  destruct (_ && _).
  - destruct (parseResponse s) as [parsed|] eqn:Hparse; cbn; [|done].
    intros [= <-]. eexists. split; [done|]. split.
    + eapply (parseResponse_prop (λ v, Js.strictEq v (JString "0") = false));
        [done|apply parseValue_not_approved|done].
    + eapply (parseResponse_prop (λ v, mapGatewayStatusToLocal v = None));
        [done|apply mapGatewayStatusToLocal_parseValue|done].
  - cbn. intros [= <-]. eexists. by split.
Qed.


(** X8. [refundPayment] reports every failure the same way: whatever is
    thrown inside (unknown payment, wrong status, amount above what is
    left, gateway unreachable or timed out, response refused), the caller
    gets BadRequestException("Refund processing failed") and the table is
    as before.  In particular a refund of a payment that does not exist or
    whose status is not success is always refused, whatever the gateway
    would answer. *)
Theorem refundPayment_refusals (refundData : RefundPaymentDto) (env : Env)
    (gateway : Gateway) (db : Table) :
  (∀ e, (refundPayment config refundData env gateway db).1 = Throw e →
        refundPayment config refundData env gateway db
        = (Throw (BadRequestException "Refund processing failed"), db))
  ∧ (match findByPk (paymentId refundData) db with
     | Some t => status t ≠ SUCCESS
     | None => True
     end →
     refundPayment config refundData env gateway db
     = (Throw (BadRequestException "Refund processing failed"), db)).
Proof.
  split.
  - intros e. unfold refundPayment, inTransaction.
    by destruct (match findByPk _ _ with Some _ => _ | None => _ end) as [[]|].
  - unfold refundPayment.
    destruct (findByPk _ _) as [t|]; [|done]. intros Hstatus.
    by rewrite decide_True.
Qed.


(** X10. Against a gateway that answers in text (the form-encoded bodies
    of the VPC protocol, or any other body that is not JSON), no refund is
    ever recorded: the response code is parsed into a number and never
    equals the string "0", so whatever [refundPayment] returns, the table
    is as before. *)
Theorem refundPayment_text_gateway (refundData : RefundPaymentDto) (env : Env)
    (gateway : Gateway) (db : Table) :
  answersWithText gateway →
  (refundPayment config refundData env gateway db).2 = db.
Proof.
  intros Htext. unfold refundPayment.
  destruct (findByPk _ _) as [t|]; [|done].
  case_decide; [done|]. cbv zeta.
  destruct (_ >? _); [done|].
  destruct (generateSecureHash _ _ _) as [h|]; cbn [mbind Exc_bind]; [|done].
  destruct (makeApiCall _ _ _) as [answer|] eqn:Hcall; cbn [mbind Exc_bind];
    [|done].
  apply (makeApiCall_text _ _ _ Htext) in Hcall as (r & -> & Hcode & _).
  rewrite processQueryResponse_Some.
  destruct (Js.truthy _); cbn [mbind Exc_bind]; [done|].
  by rewrite Hcode.
Qed.

End refund_more_facts.

(* ===================================================================== *)
(** * Further properties: the reconciliation worker *)
(* ===================================================================== *)

Section worker_facts.
Import Node MigsHashUtil PaymentService PaymentStatusSyncProcessor Lifecycle.

Lemma findAllPending_elem fiveMinutesAgo limit db t :
  t ∈ findAllPending fiveMinutesAgo limit db →
  t ∈ db ∧ status t = PENDING ∧ createdAt t < fiveMinutesAgo.
Proof.
  unfold findAllPending. intros Hin.
  apply subseteq_take in Hin. rewrite merge_sort_Permutation in Hin.
  apply list_elem_of_filter in Hin as [[? ?] ?]. done.
Qed.

Global Instance createdAtAsc_total : Total createdAtAsc.
Proof. intros a b. unfold createdAtAsc. lia. Qed.

Global Instance createdAtAsc_trans : Transitive createdAtAsc.
Proof. intros a b c. unfold createdAtAsc. lia. Qed.

Lemma StronglySorted_take {A} (R : relation A) n l :
  StronglySorted R l → StronglySorted R (take n l).
Proof.
  intros Hl. revert n. induction Hl as [|x l Hl IH Hx]; intros [|n]; simpl;
    try constructor; auto.
  apply Forall_forall. intros y Hy. apply subseteq_take in Hy.
  by apply (proj1 (Forall_forall _ _) Hx).
Qed.

Context `{crypto : Crypto} (config : MigsConfiguration).

(** The counters after one turn of the loop. *)
Lemma syncOne_counts env gateway r db transaction :
  let r' := (syncOne config env gateway (r, db) transaction).1 in
  processedCount r' = S (processedCount r)
  ∧ (updatedCount r' + errorCount r' + skippedCount r'
     = S (updatedCount r + errorCount r + skippedCount r))%nat
  ∧ (length (errors r') + errorCount r = length (errors r) + errorCount r')%nat.
Proof.
  unfold syncOne.
  destruct (queryPaymentByTxnRef _ _ _ _) as [gatewayResponse|e].
  - destruct (mapGatewayStatusToLocal _) as [newStatus|]; [case_decide|];
      simpl; lia.
  - simpl. rewrite length_app. simpl. lia.
Qed.

Lemma foldl_syncOne_counts env gateway pending r db :
  let r' := (foldl (syncOne config env gateway) (r, db) pending).1 in
  processedCount r' = (length pending + processedCount r)%nat
  ∧ (updatedCount r' + errorCount r' + skippedCount r'
     = length pending + (updatedCount r + errorCount r + skippedCount r))%nat
  ∧ (length (errors r') + errorCount r = length (errors r) + errorCount r')%nat.
Proof.
  revert r db. induction pending as [|transaction pending IH]; intros r db;
    [simpl; lia|].
  cbn [foldl].
  pose proof (syncOne_counts env gateway r db transaction) as Hstep.
  destruct (syncOne config env gateway (r, db) transaction) as [r1 db1].
  specialize (IH r1 db1). cbv zeta in *. simpl in Hstep. simpl. lia.
Qed.

(** X11. One run of the worker selects stale pending transactions only,
    oldest first and at most the batch size (50 when the job names none),
    and accounts for each exactly once: every selected transaction is
    counted as updated, as skipped or as an error, and there is one error
    record for each error counted. *)
Theorem handlePaymentStatusSync_counts (job : JobData) (env : Env)
    (gateway : Gateway) (db : Table) :
  let limit := match batchSize job with Some (S n) => S n | _ => 50%nat end in
  let selected := findAllPending (now env - 5 * 60 * 1000) limit db in
  let r := (handlePaymentStatusSync config job env gateway db).1 in
  Forall (λ t, t ∈ db ∧ status t = PENDING ∧ createdAt t < now env - 300000)
         selected
  ∧ StronglySorted createdAtAsc selected
  ∧ (length selected ≤ limit)%nat
  ∧ processedCount r = length selected
  ∧ (updatedCount r + errorCount r + skippedCount r = processedCount r)%nat
  ∧ length (errors r) = errorCount r.
Proof.
  intros limit selected r.
  split; [|split; [|split]].
  - apply Forall_forall. intros t Ht. by apply findAllPending_elem in Ht.
  - apply StronglySorted_take, StronglySorted_merge_sort; apply _.
  - unfold selected, findAllPending. rewrite length_take. lia.
  - pose proof (foldl_syncOne_counts env gateway selected
                  {| processedCount := 0; updatedCount := 0; errorCount := 0;
                     skippedCount := 0; errors := [] |} db) as Hcounts.
    cbv zeta in Hcounts. simpl in Hcounts.
    unfold r, handlePaymentStatusSync. fold limit. fold selected. lia.
Qed.

Lemma queryPaymentByTxnRef_text merchantTxnRef gateway db r :
  answersWithText gateway →
  queryPaymentByTxnRef config merchantTxnRef gateway db = Ok r →
  mapGatewayStatusToLocal (Js.prop r "vpc_TxnResponseCode") = None.
Proof.
  intros Htext. unfold queryPaymentByTxnRef.
  destruct (negb _); [done|]. cbv zeta.
  case_decide; [done|]. case_decide; [done|].
  destruct (findOneByMerchantTxnRef _ _); [|done].
  destruct (generateSecureHash _ _ _) as [h|]; cbn [mbind Exc_bind]; [|done].
  destruct (makeApiCall _ _ _) as [answer|] eqn:Hcall; cbn [mbind Exc_bind];
    [|done].
  apply (makeApiCall_text _ _ _ _ Htext) in Hcall as (r' & -> & _ & Hcode).
  rewrite processQueryResponse_Some. destruct (Js.truthy _); [done|].
  by intros [= <-].
Qed.

Lemma foldl_syncOne_text env gateway pending r db :
  answersWithText gateway →
  let result := foldl (syncOne config env gateway) (r, db) pending in
  result.2 = db ∧ updatedCount result.1 = updatedCount r.
Proof.
  intros Htext. revert r. induction pending as [|transaction pending IH];
    intros r; [done|].
  cbn [foldl].
  assert (∃ r1, syncOne config env gateway (r, db) transaction = (r1, db)
                ∧ updatedCount r1 = updatedCount r) as (r1 & -> & <-).
  { unfold syncOne.
    destruct (queryPaymentByTxnRef _ _ _ _) as [gatewayResponse|e] eqn:Hq;
      [|by eexists].
    rewrite (queryPaymentByTxnRef_text _ _ _ _ Htext Hq). by eexists. }
  apply IH.
Qed.

(** X12. Against a gateway that answers in text, a run of the worker
    changes nothing: no transaction is ever counted as updated and the
    table after the run is the table before it, however many runs
    follow. *)
Theorem handlePaymentStatusSync_text_gateway (job : JobData) (env : Env)
    (gateway : Gateway) (db : Table) :
  answersWithText gateway →
  (handlePaymentStatusSync config job env gateway db).2 = db
  ∧ updatedCount (handlePaymentStatusSync config job env gateway db).1 = 0%nat.
Proof.
  intros Htext. unfold handlePaymentStatusSync.
  by apply foldl_syncOne_text.
Qed.

Lemma update_untouched (eligible : PaymentTransaction → Prop) instance values
    (db0 db : Table) :
  (∀ t, id (values t) = id t) →
  (∀ t, t ∈ db0 → id t = id instance → eligible t) →
  Forall2 (λ t t', id t' = id t ∧ (¬ eligible t → t' = t)) db0 db →
  Forall2 (λ t t', id t' = id t ∧ (¬ eligible t → t' = t)) db0
          (update instance values db).
Proof.
  intros Hid Hsame Hdb. revert Hsame. unfold update.
  induction Hdb as [|t t' db0' db' [Ht' Ht] Hdb IHdb]; intros Hsame; simpl;
    constructor.
  - case_decide as Hrow; [|done]. split; [by rewrite Hid|].
    intros Hne. exfalso. apply Hne. apply Hsame; [left|congruence].
  - apply IHdb. intros t0 Ht0. apply Hsame. by right.
Qed.

(** The rows a run may write are those of the selected transactions. *)
Lemma foldl_syncOne_untouched env gateway (eligible : PaymentTransaction → Prop)
    pending r db0 db :
  primaryKey db0 →
  (∀ t, t ∈ pending → t ∈ db0 ∧ eligible t) →
  Forall2 (λ t t', id t' = id t ∧ (¬ eligible t → t' = t)) db0 db →
  Forall2 (λ t t', id t' = id t ∧ (¬ eligible t → t' = t)) db0
          (foldl (syncOne config env gateway) (r, db) pending).2.
Proof.
  intros Hpk. revert r db.
  induction pending as [|transaction pending IH]; intros r db Hpending Hdb;
    [done|].
  cbn [foldl].
  assert (Forall2 (λ t t', id t' = id t ∧ (¬ eligible t → t' = t)) db0
            (syncOne config env gateway (r, db) transaction).2) as Hstep.
  { destruct (Hpending transaction ltac:(left)) as [Hin Hel].
    unfold syncOne.
    destruct (queryPaymentByTxnRef _ _ _ _) as [gatewayResponse|]; [|done].
    destruct (mapGatewayStatusToLocal _) as [newStatus|]; [|done].
    case_decide; [|done]. cbn [snd].
    apply update_untouched; [done| |done].
    intros t Ht Hid.
    by rewrite (primaryKey_unique db0 t transaction Hpk Ht Hin Hid). }
  destruct (syncOne config env gateway (r, db) transaction) as [r1 db1].
  apply IH; [|done]. intros t Ht. apply Hpending. by right.
Qed.

(** X13. A run of the worker writes only to transactions that are pending
    and were created more than five minutes before it: on a table that
    satisfies the primary key constraint, every row that is not pending, or
    is younger, is the same after the run as before. *)
Theorem handlePaymentStatusSync_untouched (job : JobData) (env : Env)
    (gateway : Gateway) (db : Table) :
  primaryKey db →
  Forall2 (λ t t', status t ≠ PENDING ∨ now env - 300000 ≤ createdAt t → t' = t)
          db (handlePaymentStatusSync config job env gateway db).2.
Proof.
  intros Hpk. unfold handlePaymentStatusSync.
  eapply Forall2_impl.
  - apply (foldl_syncOne_untouched env gateway
             (λ t, status t = PENDING ∧ createdAt t < now env - 5 * 60 * 1000));
      [done| |].
    + intros t Ht. apply findAllPending_elem in Ht as (? & ? & ?). done.
    + clear. induction db; constructor; auto.
  - intros t t' [_ Hkeep] Hcase. apply Hkeep. intros [Hp Hold].
    destruct Hcase as [Hs|Hyoung]; [done|lia].
Qed.

End worker_facts.

(* ===================================================================== *)
(** * Further properties: the worker's counter of updates *)
(* ===================================================================== *)

Section worker_update_facts.
Import Node MigsHashUtil PaymentService PaymentStatusSyncProcessor Lifecycle.
Context `{crypto : Crypto} (config : MigsConfiguration).

Lemma syncOne_updates env gateway r db transaction :
  let result := syncOne config env gateway (r, db) transaction in
  (updatedCount r ≤ updatedCount result.1)%nat
  ∧ (updatedCount result.1 = updatedCount r → result.2 = db).
Proof.
  unfold syncOne.
  destruct (queryPaymentByTxnRef _ _ _ _) as [gatewayResponse|e]; [|by simpl].
  destruct (mapGatewayStatusToLocal _) as [newStatus|]; [|by simpl].
  case_decide; simpl; [|done]. split; lia.
Qed.

Lemma foldl_syncOne_updates env gateway pending r db :
  let result := foldl (syncOne config env gateway) (r, db) pending in
  (updatedCount r ≤ updatedCount result.1)%nat
  ∧ (updatedCount result.1 = updatedCount r → result.2 = db).
Proof.
  revert r db. induction pending as [|transaction pending IH]; intros r db;
    [by simpl|].
  cbn [foldl].
  pose proof (syncOne_updates env gateway r db transaction) as [Hle Hsame].
  destruct (syncOne config env gateway (r, db) transaction) as [r1 db1].
  destruct (IH r1 db1) as [Hle' Hsame']. cbn [fst snd] in *.
  split; [lia|]. intros Hcount.
  rewrite Hsame' by lia. apply Hsame. lia.
Qed.

(** X14. The counter of updates is faithful to the table: a run of the
    worker that reports no updated transaction has left the table exactly
    as it was. *)
Theorem handlePaymentStatusSync_updates (job : JobData) (env : Env)
    (gateway : Gateway) (db : Table) :
  updatedCount (handlePaymentStatusSync config job env gateway db).1 = 0%nat →
  (handlePaymentStatusSync config job env gateway db).2 = db.
Proof.
  unfold handlePaymentStatusSync. intros Hcount.
  by apply foldl_syncOne_updates.
Qed.

End worker_update_facts.

(* ===================================================================== *)
(** * Further properties: the form of the secure hash *)
(* ===================================================================== *)

Section hash_more_facts.
Import Node MigsHashUtil.

Lemma Ok_inj {A} (a b : A) : Ok a = Ok b → a = b.
Proof. congruence. Qed.

Lemma isUpperHex_hexDigit m :
  (m < 16)%N → isUpperHex (upperChar (hexDigit m)) = true.
Proof.
  intros Hm.
  destruct m as [|p]; [reflexivity|].
  do 4 (destruct p as [p|p|]; try reflexivity); lia.
Qed.

Lemma allUpperHex_hexDigits count d acc :
  allUpperHex (toUpperCase acc) = true →
  allUpperHex (toUpperCase (hexDigits count d acc)) = true.
Proof.
  revert d acc. induction count as [|count IH]; intros d acc Hacc; [done|].
  cbn [hexDigits]. apply IH. cbn [toUpperCase allUpperHex].
  rewrite isUpperHex_hexDigit, Hacc; [done|]. apply N.mod_lt. lia.
Qed.

Lemma allUpperHex_digestHex bytes d :
  allUpperHex (toUpperCase (digestHex bytes d)) = true.
Proof. unfold digestHex. by apply allUpperHex_hexDigits. Qed.

Lemma trimStart_head s :
  match Js.trimStart s with
  | EmptyString => True
  | String c _ => Js.isWhiteSpace c = false
  end.
Proof.
  induction s as [|c s IH]; [done|]. simpl.
  destruct (Js.isWhiteSpace c) eqn:Hc; [done|]. by rewrite Hc.
Qed.

Lemma trimEnd_idempotent s : Js.trimEnd (Js.trimEnd s) = Js.trimEnd s.
Proof.
  induction s as [|c s IH]; [done|]. cbn [Js.trimEnd].
  destruct (Js.trimEnd s) as [|c' t] eqn:Ht.
  - destruct (Js.isWhiteSpace c) eqn:Hc; [done|]. simpl. by rewrite Hc.
  - cbn [Js.trimEnd]. cbn [Js.trimEnd] in IH. by rewrite IH.
Qed.

Lemma trimStart_trimEnd c s :
  Js.isWhiteSpace c = false →
  Js.trimStart (Js.trimEnd (String c s)) = Js.trimEnd (String c s).
Proof.
  intros Hc. cbn [Js.trimEnd].
  destruct (Js.trimEnd s); rewrite ?Hc; simpl; by rewrite Hc.
Qed.

Lemma trim_idempotent s : Js.trim (Js.trim s) = Js.trim s.
Proof.
  unfold Js.trim. pose proof (trimStart_head s) as Hhead.
  destruct (Js.trimStart s) as [|c t]; [done|].
  by rewrite trimStart_trimEnd, trimEnd_idempotent.
Qed.

Lemma prop_trimValues parameters key :
  Js.prop (trimValues parameters) key = trimValue (Js.prop parameters key).
Proof.
  unfold Js.prop, trimValues. induction parameters as [|[k v] o IH]; [done|].
  simpl. by case_decide.
Qed.

Lemma keys_trimValues parameters :
  Js.keys (trimValues parameters) = Js.keys parameters.
Proof.
  unfold Js.keys, trimValues. induction parameters as [|[k v] o IH]; [done|].
  simpl. by f_equal.
Qed.

Lemma filterParams_trimValues parameters keys acc :
  filterParams (trimValues parameters) keys acc = filterParams parameters keys acc.
Proof.
  revert acc. induction keys as [|key keys IH]; intros acc; [done|].
  cbn [filterParams]. rewrite prop_trimValues.
  destruct (Js.prop parameters key) as [| |s|m d]; cbn [trimValue];
    try by rewrite ?IH.
  cbn [callTrim Js.strictEq]. rewrite trim_idempotent.
  destruct (_ && _); [|done]. cbn [mbind Exc_bind].
  by rewrite !IH.
Qed.

Context `{crypto : Crypto}.

(** X15. The secure hash is a string of upper-case hex digits, 32 of them
    for MD5 and 64 for SHA256; so [verifySecureHash] accepts only a
    [vpc_SecureHash] that is such a string, and refuses the same digest
    written in lower case. *)
Theorem secureHash_format (parameters : jsobj) (secret : string)
    (hashType : jsval) :
  (∀ h, generateSecureHash parameters secret hashType = Ok h →
        allUpperHex h = true
        ∧ String.length h
          = (if Js.strictEq hashType (JString "MD5") then 32 else 64)%nat)
  ∧ (verifySecureHash parameters secret hashType = Ok true →
     ∃ h, Js.prop parameters "vpc_SecureHash" = JString h
          ∧ allUpperHex h = true
          ∧ (String.length h = 32 ∨ String.length h = 64)%nat).
Proof.
  assert (∀ hashType h,
            generateSecureHash parameters secret hashType = Ok h →
            allUpperHex h = true
            ∧ String.length h
              = (if Js.strictEq hashType (JString "MD5") then 32 else 64)%nat)
    as Hformat.
  { clear hashType. intros hashType h. unfold generateSecureHash.
    destruct (filterParams _ _ _) as [f|]; cbn [mbind Exc_bind]; [|done].
    change (hashTypeValue MD5) with (JString "MD5").
    destruct (Js.strictEq hashType (JString "MD5")).
    - intros <-%Ok_inj. split; [apply allUpperHex_digestHex|].
      by rewrite toUpperCase_length, digestHex_length.
    - destruct (Js.strictEq hashType _); [|done].
      intros <-%Ok_inj. split; [apply allUpperHex_digestHex|].
      by rewrite toUpperCase_length, digestHex_length. }
  split; [apply Hformat|].
  unfold verifySecureHash. destruct (negb _); [done|].
  destruct (generateSecureHash _ _ _) as [h|] eqn:Hh; cbn [mbind Exc_bind];
    [|done].
  apply Hformat in Hh as [Hhex Hlength].
  destruct (Js.prop parameters "vpc_SecureHash") as [| |provided|];
    cbn [Js.strictEq]; try done.
  intros Heq%Ok_inj. apply bool_decide_eq_true in Heq as <-.
  exists h. split; [done|]. split; [done|].
  destruct (Js.strictEq _ _); auto.
Qed.
(** X16. The secure hash does not see white space around a value: the
    parameters with every string value trimmed have the same hash, so a
    signature stays valid when values gain or lose leading or trailing
    white space. *)
Theorem generateSecureHash_trimValues (parameters : jsobj) (secret : string)
    (hashType : jsval) :
  generateSecureHash (trimValues parameters) secret hashType
  = generateSecureHash parameters secret hashType.
Proof.
  unfold generateSecureHash. by rewrite keys_trimValues, filterParams_trimValues.
Qed.

End hash_more_facts.

(* ===================================================================== *)
(** * Further properties: creating a payment *)
(* ===================================================================== *)

Section creation_facts.
Import Node MigsHashUtil PaymentService PaymentStatusSyncProcessor Lifecycle.

Lemma find_app_first {A} (P : A → bool) (l l' : list A) :
  List.find P (l ++ l')
  = match List.find P l with
    | Some x => Some x
    | None => List.find P l'
    end.
Proof. induction l as [|x l IH]; [done|]. simpl. by destruct (P x). Qed.

Lemma filterParams_ext_type parameters parameters' keys acc :
  (∀ key, key ∈ keys → key ≠ "vpc_SecureHashType" →
          Js.prop parameters key = Js.prop parameters' key) →
  filterParams parameters keys acc = filterParams parameters' keys acc.
Proof.
  revert acc. induction keys as [|key keys IH]; intros acc Hext; simpl; [done|].
  assert (∀ acc, filterParams parameters keys acc = filterParams parameters' keys acc)
    as IH' by (intros; apply IH; intros; apply Hext; [by right|done]).
  destruct (decide (key = "vpc_SecureHashType")) as [->|Hne]; [by simpl|].
  rewrite (Hext key) by (done || left).
  destruct (_ && _); [|done].
  destruct (callTrim _) as [trimmed|e]; simpl; [|done].
  by destruct (0 <? _)%nat.
Qed.

Context `{crypto : Crypto} (config : MigsConfiguration).

Lemma generateSecureHash_set_secureHashType parameters secret hashType v :
  generateSecureHash (Js.set parameters "vpc_SecureHashType" v) secret hashType
  = generateSecureHash parameters secret hashType.
Proof.
  unfold generateSecureHash.
  assert (filterParams (Js.set parameters "vpc_SecureHashType" v)
            (Js.keys (Js.set parameters "vpc_SecureHashType" v)) []
          = filterParams parameters (Js.keys parameters) []) as ->; [|done].
  destruct (decide ("vpc_SecureHashType" ∈ Js.keys parameters)) as [Hin|Hnin].
  - rewrite keys_set_elem by done.
    apply filterParams_ext_type. intros key _ Hne. by apply prop_set_ne.
  - rewrite set_fresh by done. unfold Js.keys at 1. rewrite fmap_app.
    rewrite filterParams_app.
    rewrite <-(set_fresh _ _ _ Hnin).
    rewrite (filterParams_ext_type _ parameters)
      by (intros key _ Hne; by apply prop_set_ne).
    by destruct (filterParams parameters _ _).
Qed.

(** X17. What a successful [createPayment] has done: the table has gained
    exactly one row, the returned one, whose [id] and [merchantTxnRef] were
    not in use and which [getPaymentStatus] now finds; the row is pending
    with nothing refunded, the requested amount and no gateway response;
    the parameters stored for the gateway carry the row's reference and a
    secure hash that [verifySecureHash] accepts under the configured
    secret; the return URL sent to the gateway is the configured one,
    whatever the request asked for; and the payment URL is built from
    exactly these parameters. *)
Theorem createPayment_created (paymentData : CreatePaymentDto)
    (clientIp : option string) (env : CreateEnv) (db db' : Table)
    (r : PaymentCreationResponse) :
  createPayment config paymentData clientIp env db = (Ok r, db') →
  let t := transaction r in
  let sent := vpcData (columns r) in
  db' = db ++ [t]
  ∧ (id t ∉ id <$> db)
  ∧ (merchantTxnRef t ∉ merchantTxnRef <$> db)
  ∧ getPaymentStatus (id t) db' = Ok t
  ∧ status t = PENDING
  ∧ refundedAmount t = 0
  ∧ amount t = dto_amount paymentData
  ∧ gatewayResponse t = None
  ∧ Js.prop sent "vpc_MerchTxnRef" = JString (merchantTxnRef t)
  ∧ Js.prop sent "vpc_ReturnURL" = JString (returnUrl config)
  ∧ verifySecureHash sent (secureSecret config) (Js.prop sent "vpc_SecureHashType")
    = Ok true
  ∧ paymentUrl r = buildPaymentUrl config sent.
Proof.
  unfold createPayment.
  destruct (bool_decide (create_id env ∈ id <$> db)) eqn:Hid; [done|].
  destruct (bool_decide (generateTxnRef env ∈ PaymentService.merchantTxnRef <$> db))
    eqn:Href; [done|].
  apply bool_decide_eq_false in Hid, Href.
  cbn [orb]. destruct (create_refusal env); [done|]. cbv zeta.
  destruct (generateSecureHash _ _ _) as [h|] eqn:Hh; cbn [mbind Exc_bind];
    [|done].
  assert (let sent :=
            Js.set (Js.set (paymentVpcData config paymentData (generateTxnRef env))
                           "vpc_SecureHash" (JString h))
                   "vpc_SecureHashType" (hashTypeValue vpcSecureAlgo) in
          verifySecureHash sent (secureSecret config)
                           (Js.prop sent "vpc_SecureHashType") = Ok true)
    as Hverify.
  { cbv zeta. rewrite prop_set_eq. unfold verifySecureHash.
    rewrite prop_set_ne, prop_set_eq by done.
    rewrite generateSecureHash_set_secureHashType,
      generateSecureHash_set_secureHash.
    assert (Js.truthy (JString h) = true) as ->.
    { simpl. rewrite bool_decide_false; [done|].
      by eapply generateSecureHash_nonempty. }
    unfold vpcSecureAlgo in *. cbn [negb hashTypeValue] in *.
    rewrite Hh. cbn [mbind Exc_bind]. cbn [Js.strictEq].
    by rewrite bool_decide_true. }
  unfold inTransaction. intros [= <- <-].
  cbn [transaction columns vpcData paymentUrl].
  split; [done|]. split; [done|]. split; [done|]. split.
  { unfold getPaymentStatus, findByPk. cbn [id].
    rewrite find_app_first.
    destruct (List.find _ db) as [t|] eqn:Hfind.
    + apply find_some in Hfind as [Hin Ht]. apply bool_decide_eq_true in Ht.
      destruct Hid. rewrite <-Ht. apply list_elem_of_fmap. exists t. split; [done|].
      by apply list_elem_of_In.
    + simpl. by rewrite bool_decide_true. }
  do 6 (split; [done|]). split; [exact Hverify|done].
Qed.

End creation_facts.

(* ===================================================================== *)
(** * Further properties: sequences of operations *)
(* ===================================================================== *)

Section run_facts.
Import Node MigsHashUtil PaymentService PaymentStatusSyncProcessor Lifecycle.

Lemma Forall2_refl_rel {A} (R : A → A → Prop) l : (∀ x, R x x) → Forall2 R l l.
Proof. intros HR. induction l; constructor; auto. Qed.

Lemma Forall2_trans_rel {A} (R : A → A → Prop) l1 l2 l3 :
  (∀ x y z, R x y → R y z → R x z) →
  Forall2 R l1 l2 → Forall2 R l2 l3 → Forall2 R l1 l3.
Proof.
  intros HR H12. revert l3. induction H12; intros l3 H23; inversion H23; subst;
    constructor; eauto.
Qed.

Lemma inTransaction_Forall2 {A} (R : PaymentTransaction → PaymentTransaction → Prop)
    db (body : Exc (A * Table)) rethrow :
  (∀ t, R t t) →
  (∀ a db', body = Ok (a, db') → Forall2 R db db') →
  Forall2 R db (inTransaction db body rethrow).2.
Proof.
  intros HR Hbody. destruct body as [[a db']|e]; simpl; [by eapply Hbody|].
  by apply Forall2_refl_rel.
Qed.

Context `{crypto : Crypto} (config : MigsConfiguration).

Lemma foldl_syncOne_Forall2 (R : PaymentTransaction → PaymentTransaction → Prop)
    env gateway pending r db0 db :
  (∀ x y z, R x y → R y z → R x z) →
  (∀ r db t, Forall2 R db (syncOne config env gateway (r, db) t).2) →
  Forall2 R db0 db →
  Forall2 R db0 (foldl (syncOne config env gateway) (r, db) pending).2.
Proof.
  intros Htrans Hstep. revert r db.
  induction pending as [|transaction pending IH]; intros r db Hdb; [done|].
  cbn [foldl]. specialize (Hstep r db transaction).
  destruct (syncOne config env gateway (r, db) transaction) as [r' db'].
  apply IH. by eapply Forall2_trans_rel.
Qed.

Lemma run_Forall2 (R : PaymentTransaction → PaymentTransaction → Prop)
    (P : Operation → Prop) :
  (∀ t, R t t) → (∀ x y z, R x y → R y z → R x z) →
  (∀ op db, primaryKey db → P op → Forall2 R db (apply config op db)) →
  ∀ ops db, primaryKey db → Forall P ops → Forall2 R db (run config ops db).
Proof.
  intros Hrefl Htrans Hstep ops. unfold run.
  induction ops as [|op ops IH]; intros db Hpk Hops;
    [by apply Forall2_refl_rel|].
  apply Forall_cons in Hops as [Hop Hops]. cbn [foldl].
  eapply Forall2_trans_rel; [done|by apply Hstep|].
  apply IH; [|done]. by apply (apply_preserved config op db).
Qed.

(** ** Refunded amounts only grow *)

Lemma apply_refunded_monotone op db :
  primaryKey db → validOperation op →
  Forall2 (λ t t', refundedAmount t ≤ refundedAmount t') db (apply config op db).
Proof.
  intros Hpk Hvalid. destruct op as [responseData env|paymentId env
                                     |refundData env gateway|job env gateway];
    cbn [apply].
  - apply inTransaction_Forall2; [done|]. intros t db'.
    destruct (verifySecureHash _ _ _) as [[]|]; cbn [mbind Exc_bind negb]; try done.
    destruct (findOneByMerchantTxnRef _ _); [|done].
    intros [= _ <-]. by apply Forall2_update_elem.
  - apply inTransaction_Forall2; [done|]. intros t db'.
    destruct (findByPk _ _); [|done]. case_decide; [done|].
    intros [= _ <-]. by apply Forall2_update_elem.
  - apply inTransaction_Forall2; [done|]. intros t db'.
    destruct (findByPk _ _) as [instance|] eqn:Hfind; [|done].
    apply findByPk_Some in Hfind as [Hin _].
    case_decide; [done|]. cbv zeta.
    destruct (_ >? _); [done|].
    destruct (generateSecureHash _ _ _) as [h|]; cbn [mbind Exc_bind]; [|done].
    destruct (makeApiCall _ _ _) as [response|]; cbn [mbind Exc_bind]; [|done].
    destruct (processQueryResponse _ _) as [response'|]; cbn [mbind Exc_bind];
      [|done].
    destruct (Js.strictEq _ _); intros [= _ <-]; [|by apply Forall2_refl_rel].
    apply Forall2_update_elem; [done|]. intros row Hrow Hid. cbn [refundedAmount].
    rewrite (primaryKey_unique db row instance Hpk Hrow Hin Hid).
    unfold validOperation, validRefundPaymentDto in Hvalid. lia.
  - unfold handlePaymentStatusSync.
    apply foldl_syncOne_Forall2; [intros; lia| |by apply Forall2_refl_rel].
    intros r db1 t. unfold syncOne.
    destruct (queryPaymentByTxnRef _ _ _ _) as [gatewayResponse|];
      [|by apply Forall2_refl_rel].
    destruct (mapGatewayStatusToLocal _) as [newStatus|];
      [|by apply Forall2_refl_rel].
    case_decide; [|by apply Forall2_refl_rel].
    by apply Forall2_update_elem.
Qed.

(** X18. Refunded amounts only grow: through any sequence of callbacks,
    cancellations, validated refunds (amount at least 0.01) and worker
    runs on a table with unique ids, no row's [refundedAmount] ever
    decreases. *)
Theorem run_refunded_monotone (ops : list Operation) (db : Table) :
  primaryKey db → Forall validOperation ops →
  Forall2 (λ t t', refundedAmount t ≤ refundedAmount t') db (run config ops db).
Proof.
  apply (run_Forall2 (λ t t', refundedAmount t ≤ refundedAmount t'));
    [done|intros; lia|apply apply_refunded_monotone].
Qed.

(** ** Settled rows *)

Lemma update_found_untouched (eligible : PaymentTransaction → Prop) paymentId
    instance values db :
  primaryKey db → findByPk paymentId db = Some instance → eligible instance →
  (∀ t, id (values t) = id t) →
  Forall2 (λ t t', id t' = id t ∧ (¬ eligible t → t' = t)) db
          (update instance values db).
Proof.
  intros Hpk Hfind Hel Hid. apply findByPk_Some in Hfind as [Hin _].
  apply update_untouched; [done| |by apply Forall2_refl_rel].
  intros t Ht Hsame. by rewrite (primaryKey_unique db t instance Hpk Ht Hin Hsame).
Qed.

Lemma apply_settled op db :
  primaryKey db → notCallback op →
  Forall2 (λ t t', id t' = id t ∧ (settled t → t' = t)) db (apply config op db).
Proof.
  intros Hpk Hop.
  eapply (Forall2_impl
            (λ t t', id t' = id t
                     ∧ (¬ (status t = PENDING ∨ status t = SUCCESS) → t' = t))).
  2:{ intros t t' [Hid Hkeep]. split; [done|]. intros [Hp Hs]. apply Hkeep.
      by intros [?|?]. }
  destruct op as [responseData env|paymentId env
                 |refundData env gateway|job env gateway];
    [done|..]; cbn [apply].
  - apply inTransaction_Forall2; [done|]. intros t db'.
    destruct (findByPk _ _) as [instance|] eqn:Hfind; [|done].
    destruct (decide (status instance ≠ PENDING)) as [|Hp]; [done|].
    intros [= _ <-]. eapply update_found_untouched; [done..| |done].
    left. by destruct (decide (status instance = PENDING)).
  - apply inTransaction_Forall2; [done|]. intros t db'.
    destruct (findByPk _ _) as [instance|] eqn:Hfind; [|done].
    destruct (decide (status instance ≠ SUCCESS)) as [|Hs]; [done|]. cbv zeta.
    destruct (_ >? _); [done|].
    destruct (generateSecureHash _ _ _) as [h|]; cbn [mbind Exc_bind]; [|done].
    destruct (makeApiCall _ _ _) as [response|]; cbn [mbind Exc_bind]; [|done].
    destruct (processQueryResponse _ _) as [response'|]; cbn [mbind Exc_bind];
      [|done].
    destruct (Js.strictEq _ _); intros [= _ <-]; [|by apply Forall2_refl_rel].
    eapply update_found_untouched; [done..| |done].
    right. by destruct (decide (status instance = SUCCESS)).
  - unfold handlePaymentStatusSync.
    eapply Forall2_impl.
    + apply (foldl_syncOne_untouched config env gateway
               (λ t, status t = PENDING ∧ createdAt t < now env - 5 * 60 * 1000));
        [done| |by apply Forall2_refl_rel].
      intros t Ht. apply findAllPending_elem in Ht as (? & ? & ?). done.
    + intros t t' [Hid Hkeep]. split; [done|]. intros Hn. apply Hkeep.
      intros [Hp _]. apply Hn. by left.
Qed.

(** X19. Cancellations, refunds and worker runs act on pending and
    successful payments only: on a table with unique ids, a row that is
    failed, cancelled, refunded or partially refunded is the same after any
    sequence of these operations.  Only a gateway callback can change such
    a row. *)
Theorem run_settled (ops : list Operation) (db : Table) :
  primaryKey db → Forall notCallback ops →
  Forall2 (λ t t', settled t → t' = t) db (run config ops db).
Proof.
  intros Hpk Hops.
  eapply Forall2_impl.
  - apply (run_Forall2 (λ t t', id t' = id t ∧ (settled t → t' = t)) notCallback);
      [done| |apply apply_settled|done..].
    intros x y z [Hxy Hkeep] [Hyz Hkeep']. split; [congruence|].
    intros Hx. specialize (Hkeep Hx). subst y. auto.
  - by intros t t' [_ ?].
Qed.

(** ** Creation and the operations together *)

Lemma Forall2_fmap_eq {A B} (f : A → B) (R : A → A → Prop) l l' :
  (∀ x y, R x y → f y = f x) → Forall2 R l l' → f <$> l' = f <$> l.
Proof.
  intros Hf Hl. induction Hl as [|x y l l' Hxy Hl IH]; [done|].
  cbn. by rewrite (Hf _ _ Hxy), IH.
Qed.

Lemma apply_consistent op db :
  validOperation op → consistent db → consistent (apply config op db).
Proof.
  intros Hvalid (Hpk & Href & Hamounts).
  pose proof (apply_preserved config op db) as [Hpk' Hwithin].
  pose proof (apply_evolves config op db) as Hevolves.
  pose proof (apply_refunded_monotone op db Hpk Hvalid) as Hmono.
  split; [auto|]. split.
  - unfold uniqueTxnRef.
    rewrite (Forall2_fmap_eq merchantTxnRef evolves db (apply config op db));
      [done| |done].
    by intros x y (_ & ? & _).
  - assert (refundsWithinAmount (apply config op db)) as Hle.
    { apply Hwithin; [done|]. eapply Forall_impl; [exact Hamounts|].
      simpl. intros; lia. }
    unfold refundsWithinAmount in Hle.
    assert (Forall (λ t, 0 ≤ refundedAmount t) (apply config op db)) as Hge.
    { clear -Hmono Hamounts. induction Hmono as [|t t' l l' Ht Hl IH];
        [constructor|].
      apply Forall_cons in Hamounts as [? ?]. constructor; [lia|auto]. }
    clear -Hle Hge. induction Hle as [|t l Ht Hl IH]; [constructor|].
    apply Forall_cons in Hge as [? ?]. constructor; [lia|auto].
Qed.

Lemma createPayment_consistent paymentData clientIp env db :
  validCreatePaymentDto paymentData → consistent db →
  consistent (createPayment config paymentData clientIp env db).2.
Proof.
  intros Hvalid Hdb. unfold createPayment.
  destruct (bool_decide (create_id env ∈ id <$> db)) eqn:Hid; [done|].
  destruct (bool_decide (generateTxnRef env ∈ PaymentService.merchantTxnRef <$> db))
    eqn:Href; [done|].
  apply bool_decide_eq_false in Hid, Href.
  cbn [orb]. destruct (create_refusal env); [done|]. cbv zeta.
  destruct (generateSecureHash _ _ _) as [h|]; cbn [mbind Exc_bind]; [|done].
  cbn [inTransaction snd]. destruct Hdb as (Hpk & Huniq & Hamounts).
  unfold consistent, primaryKey, uniqueTxnRef in *. rewrite !fmap_app.
  split; [|split].
  - apply NoDup_app. split; [done|]. split; [|apply NoDup_singleton].
    intros x Hx ->%list_elem_of_singleton. done.
  - apply NoDup_app. split; [done|]. split; [|apply NoDup_singleton].
    intros x Hx ->%list_elem_of_singleton. done.
  - apply Forall_app. split; [done|]. constructor; [|constructor].
    unfold validCreatePaymentDto in Hvalid. simpl. lia.
Qed.

(** X20. The service keeps its table consistent: starting from a table
    with unique ids, unique merchant references and every refunded amount
    between zero and the amount of its payment, any sequence of validated
    creations, callbacks, cancellations, validated refunds and worker runs
    ends in such a table. *)
Theorem runSteps_consistent (steps : list Step) (db : Table) :
  Forall validStep steps → consistent db →
  consistent (runSteps config steps db).
Proof.
  unfold runSteps. revert db.
  induction steps as [|step steps IH]; intros db Hsteps Hdb; [done|].
  apply Forall_cons in Hsteps as [Hstep Hsteps]. cbn [foldl]. apply IH; [done|].
  destruct step as [paymentData clientIp env|op]; cbn [applyStep].
  - by apply createPayment_consistent.
  - by apply apply_consistent.
Qed.

End run_facts.

(* ===================================================================== *)
(** * Further properties: the controller *)
(* ===================================================================== *)

Section controller_facts.
Import Node MigsHashUtil PaymentService PaymentStatusSyncProcessor Lifecycle
       PaymentController.
Context `{crypto : Crypto} (config : MigsConfiguration).

Lemma queryPaymentByTxnRef_error_kinds merchantTxnRef gateway db e :
  queryPaymentByTxnRef config merchantTxnRef gateway db = Throw e →
  (∃ message, e = BadRequestException message)
  ∨ (∃ message, e = NotFoundException message)
  ∨ (∃ message, e = ServiceUnavailableException message)
  ∨ e = GatewayTimeoutException "Gateway request timed out".
Proof.
  unfold queryPaymentByTxnRef.
  destruct (negb _); [intros [= <-]; left; by eexists|]. cbv zeta.
  case_decide; [intros [= <-]; left; by eexists|].
  case_decide; [intros [= <-]; left; by eexists|].
  destruct (findOneByMerchantTxnRef _ _); [|intros [= <-]; right; left; by eexists].
  match goal with
  | |- context [generateSecureHash ?p ?s _] =>
      destruct (generateSecureHash_no_number p s) as [h Hh]
  end.
  { intros key Hkey. unfold Js.keys in Hkey. cbn [fmap list_fmap fst] in Hkey.
    repeat (apply elem_of_cons in Hkey as [->|Hkey]; [by vm_compute|]).
    by apply elem_of_nil in Hkey. }
  unfold vpcSecureAlgo. rewrite Hh. cbn [mbind Exc_bind].
  destruct (makeApiCall _ _ _) as [answer|e'] eqn:Hcall; cbn [mbind Exc_bind].
  - destruct answer as [r|].
    + rewrite processQueryResponse_Some. destruct (Js.truthy _); [|done].
      intros [= <-]. right; right; left. by eexists.
    + intros [= <-]. right; right; left. by eexists.
  - intros [= <-]. apply makeApiCall_error_kinds in Hcall as [[message ->]| ->].
    + right; right; left. by eexists.
    + by repeat right.
Qed.

(** X21. The errors of [GET /payments/query/:merchantTxnRef].  Whatever
    goes wrong, the handler raises a BadRequestException, a
    NotFoundException or a ServiceUnavailableException, never a
    GatewayTimeoutException or an InternalServerErrorException: a gateway
    timeout reaches the controller as "Gateway request timed out", which
    does not contain "timeout", and leaves it as
    ServiceUnavailableException("Gateway service temporarily
    unavailable"). *)
Theorem queryPayment_raises (merchantTxnRef : string) (gateway : Gateway)
    (db : Table) (raised : Raised) :
  queryPayment config merchantTxnRef gateway db = inr raised →
  (∃ message,
      raised = Service (BadRequestException message)
      ∨ raised = Service (NotFoundException message)
      ∨ raised = Service (ServiceUnavailableException message))
  ∧ (∀ message,
        queryPaymentByTxnRef config (Js.trim merchantTxnRef) gateway db
        = Throw (GatewayTimeoutException message) →
        raised = Service (ServiceUnavailableException
                            "Gateway service temporarily unavailable")).
Proof.
  unfold queryPayment.
  destruct (negb _ || _) eqn:Hcheck.
  - intros [= <-]. split; [eexists; by left|].
    intros message. unfold queryPaymentByTxnRef.
    apply orb_true_iff in Hcheck as [Hfalsy|Hblank].
    + destruct merchantTxnRef; [done|]. by simpl in Hfalsy.
    + apply bool_decide_eq_true in Hblank.
      destruct (negb _); [done|]. cbv zeta. rewrite trim_idempotent.
      by rewrite decide_True.
  - destruct (queryPaymentByTxnRef _ _ _ _) as [r|e] eqn:Hq; [done|].
    intros [= <-].
    apply queryPaymentByTxnRef_error_kinds in Hq
      as [[m ->]|[[m ->]|[[m ->]| ->]]].
    + split; [exists m; by left|done].
    + split; [exists m; right; by left|done].
    + split; [exists m; right; by right|done].
    + split; [eexists; right; by right|done].
Qed.

Lemma findOneByMerchantTxnRef_Some ref db t :
  findOneByMerchantTxnRef ref db = Some t → t ∈ db.
Proof.
  intros Hfind. apply find_some in Hfind as [? _]. by apply list_elem_of_In.
Qed.

Lemma findByPk_primaryKey db t :
  primaryKey db → t ∈ db → findByPk (id t) db = Some t.
Proof.
  intros Hpk Hin. destruct (findByPk_elem_of t db Hin) as [t' Hfind].
  rewrite Hfind. f_equal. apply findByPk_Some in Hfind as [Hin' Hid].
  by apply (primaryKey_unique db).
Qed.

(** X22. Where [handleCallback] sends the browser.  On a table with
    unique ids: when the secure hash verifies and the referenced
    transaction exists, the redirect goes to the success page if the
    response code is the string "0" and to the failure page otherwise,
    carrying the transaction's reference and id, and the table is the one
    [processPaymentResponse] leaves; in every other case (hash missing,
    wrong or not computable, transaction unknown) it goes to the error
    page and the table is as before. *)
Theorem handleCallback_redirects (FRONTEND_URL : option string)
    (responseData : jsobj) (env : Env) (db : Table) :
  primaryKey db →
  let frontendUrl := orElse FRONTEND_URL "http://localhost:5173" in
  match verifySecureHash responseData (secureSecret config) (hashTypeValue SHA256),
        findOneByMerchantTxnRef (Js.prop responseData "vpc_MerchTxnRef") db with
  | Ok true, Some t =>
      handleCallback config FRONTEND_URL responseData env db
      = (frontendUrl
           +:+ (if Js.strictEq (Js.prop responseData "vpc_TxnResponseCode")
                               (JString "0")
                then "/payment/success?ref=" else "/payment/failure?ref=")
           +:+ merchantTxnRef t +:+ "&id=" +:+ id t,
         (processPaymentResponse config responseData env db).2)
  | _, _ =>
      handleCallback config FRONTEND_URL responseData env db
      = (frontendUrl +:+ "/payment/error", db)
  end.
Proof.
  intros Hpk frontendUrl. unfold handleCallback, processPaymentResponse.
  fold frontendUrl. unfold vpcSecureAlgo.
  destruct (verifySecureHash _ _ _) as [[]|]; cbn [mbind Exc_bind negb]; try done.
  destruct (findOneByMerchantTxnRef _ db) as [t|] eqn:Hfind; [|done].
  cbv zeta. cbn [inTransaction]. unfold reload.
  apply findOneByMerchantTxnRef_Some in Hfind.
  rewrite findByPk_update by done.
  rewrite (findByPk_primaryKey db t Hpk Hfind). cbn [fmap option_fmap option_map default].
  destruct (decide (id t = id t)) as [_|?]; [|done].
  cbn [Datatypes.id status merchantTxnRef id].
  unfold transactionStatusOf.
  by destruct (Js.strictEq _ _).
Qed.

End controller_facts.

(* ===================================================================== *)
(** * Further properties: accepted Mashreq webhooks *)
(* ===================================================================== *)

Section webhook_facts.
Import Node Mashreq.
Context `{crypto : Crypto} (MASHREQ_WEBHOOK_SECRET : string).

(** X23. A Mashreq webhook whose signature verifies and whose
    [transaction_id] is a string is always answered with [ok]: exactly one
    log entry is added, the last one, and every log entry of that
    transaction id, old or new, ends up marked as processed; the
    transactions keep their ids and order; when a transaction has that
    Mashreq id, its status becomes the one the payload's status maps to,
    whatever it was, and the payload is stored as its response; when none
    has, the transactions are left as they were. *)
Theorem handleMashreqWebhook_accepted (rawBody signature : string)
    (payload : jsobj) (db : Database) (tid : string) :
  verifyWebhookSignature MASHREQ_WEBHOOK_SECRET rawBody signature = Ok true →
  Js.prop payload "transaction_id" = JString tid →
  ∃ db',
    handleMashreqWebhook MASHREQ_WEBHOOK_SECRET (Some rawBody) signature payload db
    = (Ok ReplyOk, db')
    ∧ length (webhook_logs db') = S (length (webhook_logs db))
    ∧ Forall (λ l, transaction_id l = JString tid → processed l = true)
             (webhook_logs db')
    ∧ last (webhook_logs db')
      = Some {| transaction_id := JString tid; payload := payload;
                signature := signature; processed := true |}
    ∧ id <$> transactions db' = id <$> transactions db
    ∧ match findOneByMashreqId (JString tid) (transactions db) with
      | None => transactions db' = transactions db
      | Some t =>
          findOneByMashreqId (JString tid) (transactions db')
          = Some {| id := id t; order_id := order_id t;
                    mashreq_transaction_id := mashreq_transaction_id t;
                    status := internalStatusOf (Js.prop payload "status");
                    mashreq_response := Some payload |}
      end.
Proof.
  intros Hsig Htid. unfold handleMashreqWebhook. rewrite Hsig, Htid.
  unfold updateTransactionStatus.
  destruct (findOneByMashreqId (JString tid) (transactions db)) as [t|] eqn:Hfind.
  - eexists. split; [reflexivity|]. cbn [webhook_logs transactions].
    split; [by rewrite length_map, length_app, Nat.add_1_r|].
    split; [|split; [|split]].
    + apply Forall_forall. intros l' Hl'. apply list_elem_of_fmap in Hl' as [l [-> _]].
      case_decide; [done|]. simpl. done.
    + rewrite map_app. cbn [map]. rewrite last_snoc. cbn [transaction_id].
      by rewrite decide_True.
    + rewrite <-list_fmap_compose. apply list_fmap_ext. intros i x _. simpl.
      by case_decide.
    + unfold findOneByMashreqId in *. rewrite find_map_stable.
      * rewrite Hfind. cbn. by rewrite decide_True.
      * intros x. by destruct (decide (id x = id t)).
  - eexists. split; [reflexivity|]. cbn [webhook_logs transactions].
    split; [by rewrite length_map, length_app, Nat.add_1_r|].
    split; [|split; [|done]].
    + apply Forall_forall. intros l' Hl'. apply list_elem_of_fmap in Hl' as [l [-> _]].
      case_decide; [done|]. simpl. done.
    + rewrite map_app. cbn [map]. rewrite last_snoc. cbn [transaction_id].
      by rewrite decide_True.
Qed.

End webhook_facts.

(* ===================================================================== *)
(** * Further properties: the payment URL *)
(* ===================================================================== *)

Section url_facts.
Import Node PaymentService.

Lemma append_cons c s1 s2 : String c s1 +:+ s2 = String c (s1 +:+ s2).
Proof. reflexivity. Qed.

Lemma append_nil_r s : s +:+ EmptyString = s.
Proof. induction s as [|c s IH]; [done|]. by rewrite append_cons, IH. Qed.

Lemma append_assoc s1 s2 s3 : (s1 +:+ s2) +:+ s3 = s1 +:+ s2 +:+ s3.
Proof. induction s1 as [|c s1 IH]; [done|]. by rewrite !append_cons, IH. Qed.

Lemma allEncoded_app s1 s2 :
  allEncoded (s1 +:+ s2) = allEncoded s1 && allEncoded s2.
Proof.
  induction s1 as [|c s1 IH]; [done|].
  rewrite append_cons. cbn [allEncoded]. by rewrite IH, andb_assoc.
Qed.

Lemma encodeURIComponent_unit c rest :
  isAscii c = true →
  allEncoded (encodeURIComponent (String c EmptyString)) = true
  ∧ percentDecode (encodeURIComponent (String c EmptyString) +:+ rest)
    = String c (percentDecode rest).
Proof.
  destruct c as [[] [] [] [] [] [] [] []]; intros Hc; try discriminate Hc;
    split; reflexivity.
Qed.

Lemma encodeURIComponent_cons c s :
  encodeURIComponent (String c s)
  = encodeURIComponent (String c EmptyString) +:+ encodeURIComponent s.
Proof.
  cbn [encodeURIComponent]. destruct (isUnreserved c); [done|].
  by rewrite append_nil_r.
Qed.

Lemma encodeURIComponent_ascii s rest :
  allAscii s = true →
  allEncoded (encodeURIComponent s) = true
  ∧ percentDecode (encodeURIComponent s +:+ rest) = s +:+ percentDecode rest.
Proof.
  induction s as [|c s IH]; [done|]. cbn [allAscii].
  intros [Hc Hs]%andb_true_iff. destruct (IH Hs) as [IH1 IH2].
  rewrite encodeURIComponent_cons, allEncoded_app, append_assoc.
  destruct (encodeURIComponent_unit c (encodeURIComponent s +:+ rest) Hc)
    as [-> ->].
  by rewrite IH1, IH2.
Qed.

Lemma isEncoded_not c :
  isEncoded c = true →
  c ≠ "&"%char ∧ c ≠ "="%char ∧ c ≠ "+"%char ∧ c ≠ "?"%char.
Proof. intros Hc. repeat split; by intros ->. Qed.

Lemma plusToSpace_encoded s : allEncoded s = true → plusToSpace s = s.
Proof.
  induction s as [|c s IH]; [done|]. cbn [allEncoded plusToSpace].
  intros [Hc Hs]%andb_true_iff. apply isEncoded_not in Hc as (_ & _ & Hc & _).
  rewrite IH by done. by rewrite decide_False.
Qed.

Lemma formDecode_encodeURIComponent s :
  allAscii s = true → formDecode (encodeURIComponent s) = s.
Proof.
  intros Hs. destruct (encodeURIComponent_ascii s EmptyString Hs) as [Henc Hdec].
  unfold formDecode. rewrite plusToSpace_encoded by done.
  rewrite append_nil_r in Hdec. rewrite Hdec. apply append_nil_r.
Qed.

Lemma splitFirst_encoded name rest :
  allEncoded name = true →
  Js.splitFirst "=" (name +:+ String "=" rest) = (name, Some rest).
Proof.
  induction name as [|c s IH]; cbn [allEncoded].
  - intros _. change (EmptyString +:+ String "=" rest) with (String "=" rest).
    cbn [Js.splitFirst]. by rewrite decide_True.
  - intros [Hc Hs]%andb_true_iff. apply isEncoded_not in Hc as (_ & Hc & _).
    rewrite append_cons. cbn [Js.splitFirst].
    rewrite decide_False by done. by rewrite IH.
Qed.

Lemma split_encoded segment :
  allEncoded segment = true → Js.split "&" segment = [segment].
Proof.
  induction segment as [|c s IH]; [done|]. cbn [allEncoded].
  intros [Hc Hs]%andb_true_iff. apply isEncoded_not in Hc as (Hc & _).
  simpl. rewrite decide_False by done. by rewrite IH.
Qed.

Lemma split_encoded_app segment rest :
  allEncoded segment = true →
  Js.split "&" (segment +:+ String "&" rest) = segment :: Js.split "&" rest.
Proof.
  induction segment as [|c s IH]; cbn [allEncoded].
  - intros _. change (EmptyString +:+ String "&" rest) with (String "&" rest).
    cbn [Js.split]. by rewrite decide_True.
  - intros [Hc Hs]%andb_true_iff. apply isEncoded_not in Hc as (Hc & _).
    rewrite append_cons. cbn [Js.split].
    rewrite decide_False by done. by rewrite IH.
Qed.

Lemma split_segment_last name value :
  allEncoded name = true → allEncoded value = true →
  Js.split "&" (name +:+ String "=" value) = [name +:+ String "=" value].
Proof.
  intros Hname Hvalue. induction name as [|c s IH]; cbn [allEncoded] in Hname.
  - change (EmptyString +:+ String "=" value) with (String "=" value).
    cbn [Js.split]. rewrite decide_False by done. by rewrite split_encoded.
  - apply andb_true_iff in Hname as [Hc Hs].
    apply isEncoded_not in Hc as (Hc & _).
    rewrite append_cons. cbn [Js.split].
    rewrite decide_False by done. by rewrite IH.
Qed.

Lemma split_segment name value rest :
  allEncoded name = true → allEncoded value = true →
  Js.split "&" ((name +:+ String "=" value) +:+ String "&" rest)
  = (name +:+ String "=" value) :: Js.split "&" rest.
Proof.
  intros Hname Hvalue. induction name as [|c s IH]; cbn [allEncoded] in Hname.
  - change (EmptyString +:+ String "=" value) with (String "=" value).
    rewrite append_cons. cbn [Js.split]. rewrite decide_False by done.
    by rewrite split_encoded_app.
  - apply andb_true_iff in Hname as [Hc Hs].
    apply isEncoded_not in Hc as (Hc & _).
    rewrite !append_cons. cbn [Js.split].
    rewrite decide_False by done. by rewrite IH.
Qed.

Lemma segment_nonempty name value : name +:+ String "=" value ≠ EmptyString.
Proof. by destruct name. Qed.

Lemma segment_head name value rest :
  allEncoded name = true → name +:+ String "=" value ≠ String "?" rest.
Proof.
  destruct name as [|c s]; [done|]. cbn [allEncoded].
  intros [Hc _]%andb_true_iff. apply isEncoded_not in Hc as (_ & _ & _ & Hc).
  rewrite append_cons. congruence.
Qed.

Lemma strip_question s :
  (∀ rest, s ≠ String "?" rest) →
  match s with
  | String "?" rest => rest
  | _ => s
  end = s.
Proof.
  intros Hs. destruct s as [|c s]; [done|].
  destruct (decide (c = "?"%char)) as [->|Hc]; [by destruct (Hs s)|].
  by destruct c as [[] [] [] [] [] [] [] []].
Qed.

Lemma join_cons sep x y l :
  Js.join sep (x :: y :: l) = x +:+ sep +:+ Js.join sep (y :: l).
Proof. reflexivity. Qed.

(** The query string of a list of entries, as [buildPaymentUrl] writes it. *)
Lemma URLSearchParams_query (entries : list (string * string)) :
  Forall (λ entry, allAscii entry.1 = true ∧ allAscii entry.2 = true) entries →
  URLSearchParams
    (Js.join "&"
       (map (λ entry, encodeURIComponent entry.1 +:+ "="
                        +:+ encodeURIComponent entry.2) entries))
  = entries.
Proof.
  intros Hentries. unfold URLSearchParams.
  set (segment := λ entry : string * string,
         encodeURIComponent entry.1 +:+ "=" +:+ encodeURIComponent entry.2).
  assert (∀ entry, allAscii entry.1 = true → allAscii entry.2 = true →
            ∃ name value,
              segment entry = name +:+ String "=" value
              ∧ allEncoded name = true ∧ allEncoded value = true
              ∧ formDecode name = entry.1 ∧ formDecode value = entry.2)
    as Hsegment.
  { intros [key value] Hkey Hvalue.
    exists (encodeURIComponent key), (encodeURIComponent value).
    split; [done|].
    destruct (encodeURIComponent_ascii key EmptyString Hkey) as [-> _].
    destruct (encodeURIComponent_ascii value EmptyString Hvalue) as [-> _].
    by rewrite !formDecode_encodeURIComponent. }
  rewrite strip_question.
  2:{ intros rest. destruct Hentries as [|entry entries [Hk Hv] Hentries]; [done|].
      destruct (Hsegment entry Hk Hv) as (name & value & Hseg & Hname & _).
      rewrite map_cons.
      destruct (map segment entries) as [|next segments];
        [cbn [Js.join]; rewrite Hseg; by apply segment_head|].
      rewrite join_cons, Hseg, append_assoc, append_cons.
      by apply segment_head. }
  induction Hentries as [|entry entries [Hk Hv] Hentries IH]; [done|].
  destruct (Hsegment entry Hk Hv)
    as (name & value & Hseg & Hname & Hvalue & Hdk & Hdv).
  assert (omap (λ segment : string,
                  if decide (segment = EmptyString) then None
                  else let '(name, value) := Js.splitFirst "=" segment in
                       Some (formDecode name, formDecode (default EmptyString value)))
               [name +:+ String "=" value] = [entry]) as Hone.
  { cbn [omap list_omap]. rewrite decide_False by apply segment_nonempty.
    rewrite splitFirst_encoded by done. cbv beta iota zeta.
    cbn [default Datatypes.id].
    rewrite Hdk, Hdv. by destruct entry. }
  destruct entries as [|entry' entries].
  - cbn [map Js.join]. by rewrite Hseg, split_segment_last.
  - rewrite !map_cons, join_cons in *. rewrite Hseg.
    change ("&" +:+ ?rest) with (String "&" rest).
    rewrite split_segment by done.
    change ((name +:+ String "=" value) :: ?l)
      with ([name +:+ String "=" value] ++ l).
    rewrite omap_app, Hone. cbn [app]. f_equal. exact IH.
Qed.

Context (config : MigsConfiguration).

(** X24. The payment URL can be read back: for parameters whose keys and
    values are ASCII text, [buildPaymentUrl] returns the gateway URL, a
    question mark and a query string that [URLSearchParams] (the parser of
    [parseResponse]) decodes into exactly the parameters that are neither
    null nor undefined, in their order, every value as its string. *)
Theorem buildPaymentUrl_parses (params : jsobj) :
  Forall (λ '(key, value),
            allAscii key = true ∧ allAscii (Js.toString value) = true) params →
  ∃ query,
    buildPaymentUrl config params = gatewayUrl config +:+ "?" +:+ query
    ∧ URLSearchParams query
      = (λ '(key, value), (key, Js.toString value))
          <$> filter (λ '(key, value), value ≠ JNull ∧ value ≠ JUndefined) params.
Proof.
  intros Hparams. eexists. split; [reflexivity|].
  set (kept := filter _ params).
  assert (Forall (λ '(key, value),
                    allAscii key = true ∧ allAscii (Js.toString value) = true)
                 kept) as Hkept.
  { apply Forall_forall. intros entry Hentry.
    apply list_elem_of_filter in Hentry as [_ Hentry].
    by apply (proj1 (Forall_forall _ _) Hparams). }
  clearbody kept. clear Hparams.
  rewrite <-(URLSearchParams_query
               ((λ '(key, value), (key, Js.toString value)) <$> kept)).
  - f_equal. f_equal. rewrite map_map. apply map_ext. by intros [key value].
  - apply Forall_fmap. eapply Forall_impl; [exact Hkept|]. by intros [key value].
Qed.

End url_facts.

(* ===================================================================== *)
(** * Further properties: the callback of a payment *)
(* ===================================================================== *)

Section callback_facts.
Import Node MigsHashUtil PaymentService PaymentStatusSyncProcessor Lifecycle.
Context `{crypto : Crypto} (config : MigsConfiguration).

(** After [instance.update(values)], [reload] returns the written row. *)
Lemma findByPk_update_found (t : PaymentTransaction)
    (values : PaymentTransaction → PaymentTransaction) (db : Table) :
  primaryKey db → t ∈ db → (∀ row, id (values row) = id row) →
  findByPk (id t) (update t values db) = Some (values t)
  ∧ reload t (update t values db) = values t.
Proof.
  intros Hpk Hin Hid.
  assert (findByPk (id t) (update t values db) = Some (values t)) as Hfind.
  { rewrite findByPk_update by done.
    rewrite (findByPk_primaryKey db t Hpk Hin).
    cbn [fmap option_fmap option_map].
    by destruct (decide (id t = id t)). }
  split; [done|]. unfold reload. by rewrite Hfind.
Qed.


Lemma primaryKey_snoc db t :
  primaryKey db → id t ∉ id <$> db → primaryKey (db ++ [t]).
Proof.
  intros Hpk Hid. unfold primaryKey. rewrite fmap_app.
  apply NoDup_app. split; [done|]. split; [|apply NoDup_singleton].
  intros x Hx ->%list_elem_of_singleton. done.
Qed.

Lemma findOneByMerchantTxnRef_snoc db t :
  merchantTxnRef t ∉ merchantTxnRef <$> db →
  findOneByMerchantTxnRef (JString (merchantTxnRef t)) (db ++ [t]) = Some t.
Proof.
  intros Href. unfold findOneByMerchantTxnRef. rewrite find_app_first.
  destruct (List.find _ db) as [t'|] eqn:Hfind.
  - apply find_some in Hfind as [Hin Ht]. apply bool_decide_eq_true in Ht.
    destruct Href. injection Ht as <-. apply list_elem_of_fmap. exists t'.
    split; [done|]. by apply list_elem_of_In.
  - simpl. by rewrite bool_decide_true.
Qed.

(** The row a successful [createPayment] has appended. *)
Lemma createPayment_row paymentData clientIp env db db' r :
  createPayment config paymentData clientIp env db = (Ok r, db') →
  db' = db ++ [transaction r]
  ∧ (id (transaction r) ∉ id <$> db)
  ∧ (merchantTxnRef (transaction r) ∉ merchantTxnRef <$> db)
  ∧ amount (transaction r) = dto_amount paymentData
  ∧ refundedAmount (transaction r) = 0
  ∧ Js.prop (vpcData (columns r)) "vpc_MerchTxnRef"
    = JString (merchantTxnRef (transaction r)).
Proof.
  unfold createPayment.
  destruct (bool_decide (create_id env ∈ id <$> db)) eqn:Hid; [done|].
  destruct (bool_decide (generateTxnRef env ∈ PaymentService.merchantTxnRef <$> db))
    eqn:Href; [done|].
  apply bool_decide_eq_false in Hid, Href.
  cbn [orb]. destruct (create_refusal env); [done|]. cbv zeta.
  destruct (generateSecureHash _ _ _) as [h|]; cbn [mbind Exc_bind]; [|done].
  unfold inTransaction. by intros [= <- <-].
Qed.

(** X26. A payment just created is settled by its callback: after a
    successful [createPayment] on a table with unique ids, a response that
    verifies and carries the reference sent to the gateway makes
    [processPaymentResponse] return the new payment, with its id and
    amount, nothing refunded, the status given by the response code and
    [processedAt] set; [getPaymentStatus] returns the same record, and the
    payments that were there before are untouched. *)
Theorem createPayment_then_callback (paymentData : CreatePaymentDto)
    (clientIp : option string) (createEnv : CreateEnv) (db db' : Table)
    (r : PaymentCreationResponse) (responseData : jsobj) (env : Env) :
  primaryKey db →
  createPayment config paymentData clientIp createEnv db = (Ok r, db') →
  verifySecureHash responseData (secureSecret config) (hashTypeValue SHA256)
  = Ok true →
  Js.prop responseData "vpc_MerchTxnRef"
  = Js.prop (vpcData (columns r)) "vpc_MerchTxnRef" →
  ∃ settled db'',
    processPaymentResponse config responseData env db' = (Ok settled, db'')
    ∧ getPaymentStatus (id (transaction r)) db'' = Ok settled
    ∧ id settled = id (transaction r)
    ∧ amount settled = dto_amount paymentData
    ∧ refundedAmount settled = 0
    ∧ status settled
      = (if Js.strictEq (Js.prop responseData "vpc_TxnResponseCode") (JString "0")
         then SUCCESS else FAILED)
    ∧ processedAt settled = Some (now env)
    ∧ ∀ other, other ≠ id (transaction r) →
               findByPk other db'' = findByPk other db.
Proof.
  intros Hpk Hcreate Hhash Href.
  apply createPayment_row in Hcreate
    as (-> & Hid & Hfresh & Hamount & Hrefunded & Hsent).
  rewrite Hsent in Href.
  pose proof (primaryKey_snoc db _ Hpk Hid) as Hpk'.
  pose proof (findOneByMerchantTxnRef_snoc db _ Hfresh) as Hfind.
  rewrite <-Href in Hfind.
  unfold processPaymentResponse, vpcSecureAlgo.
  rewrite Hhash. cbn [mbind Exc_bind negb]. rewrite Hfind. cbv zeta.
  cbn [inTransaction].
  apply findOneByMerchantTxnRef_Some in Hfind.
  match goal with
  | |- context [update ?t ?values ?table] =>
      destruct (findByPk_update_found t values table Hpk' Hfind)
        as [Hrow Hreload]; [done|]
  end.
  eexists _, _. split; [by rewrite Hreload|].
  split; [unfold getPaymentStatus; by rewrite Hrow|].
  do 5 (split; [done|]).
  intros other Hother. rewrite findByPk_update_other by done.
  unfold findByPk. rewrite find_app_first.
  destruct (List.find _ db); [done|]. simpl.
  rewrite bool_decide_false; [done|]. congruence.
Qed.

(** X27. [queryPaymentByTxnRef] looks up the trimmed reference before it
    turns to the gateway: when no transaction has it, the call fails with
    the same BadRequestException or NotFoundException whatever the gateway
    would do; and white space around a reference that is not blank does not
    matter to the result. *)
Theorem queryPaymentByTxnRef_validation (merchantTxnRef : string) (db : Table) :
  (findOneByMerchantTxnRef (JString (Js.trim merchantTxnRef)) db = None →
   ∃ message,
     ∀ gateway,
       queryPaymentByTxnRef config merchantTxnRef gateway db
       = Throw (BadRequestException message)
       ∨ queryPaymentByTxnRef config merchantTxnRef gateway db
         = Throw (NotFoundException message))
  ∧ (Js.trim merchantTxnRef ≠ EmptyString →
     ∀ gateway,
       queryPaymentByTxnRef config (Js.trim merchantTxnRef) gateway db
       = queryPaymentByTxnRef config merchantTxnRef gateway db).
Proof.
  split.
  - intros Hfind. unfold queryPaymentByTxnRef.
    destruct (negb _); [eexists; intros; by left|]. cbv zeta.
    case_decide; [eexists; intros; by left|].
    case_decide; [eexists; intros; by left|].
    rewrite Hfind. eexists; intros; by right.
  - intros Hne gateway. unfold queryPaymentByTxnRef.
    assert (Js.truthy (JString (Js.trim merchantTxnRef)) = true) as ->
      by (simpl; by rewrite bool_decide_false).
    assert (Js.truthy (JString merchantTxnRef) = true) as ->.
    { simpl. rewrite bool_decide_false; [done|]. by intros ->. }
    cbn [negb]. cbv zeta. by rewrite trim_idempotent.
Qed.

End callback_facts.

(* ===================================================================== *)
(** * The further theorems with hypotheses, at concrete inputs *)
(* ===================================================================== *)

Section further_instances.
Import Node MigsHashUtil PaymentService PaymentStatusSyncProcessor Lifecycle
       PaymentController.

Lemma processPaymentResponse_integrity_sample :
  ((processPaymentResponse (crypto := Sample.crypto) Sample.config
      Sample.signedCallback Sample.env [Sample.pendingTransaction]).2
   ≠ [Sample.pendingTransaction]
   ∧ verifySecureHash (crypto := Sample.crypto) Sample.signedCallback
       (secureSecret Sample.config) (hashTypeValue SHA256) = Ok true)
  ∧ (Js.truthy (Js.prop Sample.approvedCallback "vpc_SecureHash") = false
     ∧ processPaymentResponse (crypto := Sample.crypto) Sample.config
         Sample.approvedCallback Sample.env [Sample.pendingTransaction]
       = (Throw (BadRequestException
                   "Invalid secure hash - response integrity compromised"),
          [Sample.pendingTransaction])).
Proof.
  destruct (processPaymentResponse_integrity (crypto := Sample.crypto)
              Sample.config Sample.signedCallback Sample.env
              [Sample.pendingTransaction]) as [Hwritten _].
  destruct (processPaymentResponse_integrity (crypto := Sample.crypto)
              Sample.config Sample.approvedCallback Sample.env
              [Sample.pendingTransaction]) as [_ Hunsigned].
  assert ((processPaymentResponse (crypto := Sample.crypto) Sample.config
             Sample.signedCallback Sample.env [Sample.pendingTransaction]).2
          ≠ [Sample.pendingTransaction]) as Hne
    by (vm_compute; discriminate).
  split; [split; [exact Hne|exact (Hwritten Hne)]|].
  split; [reflexivity|exact (Hunsigned eq_refl)].
Defined.

Lemma makeApiCall_throws_sample :
  makeApiCall Sample.config [("vpc_Command", JString "queryDR")]
              Sample.unreachableGateway
  = Throw (ServiceUnavailableException "Gateway service is not reachable")
  ∧ isRetryableError
      (ServiceUnavailableException "Gateway service is not reachable") = true.
Proof.
  split; [reflexivity|].
  exact (proj2 (makeApiCall_throws Sample.config
                  [("vpc_Command", JString "queryDR")] Sample.unreachableGateway
                  (ServiceUnavailableException "Gateway service is not reachable")
                  eq_refl)).
Defined.

Lemma refundPayment_refusals_sample :
  ((refundPayment (crypto := Sample.crypto) Sample.config (Sample.refund 4000)
      Sample.env Sample.unreachableGateway [Sample.transaction SUCCESS 0]).1
   = Throw (BadRequestException "Refund processing failed")
   ∧ refundPayment (crypto := Sample.crypto) Sample.config (Sample.refund 4000)
       Sample.env Sample.unreachableGateway [Sample.transaction SUCCESS 0]
     = (Throw (BadRequestException "Refund processing failed"),
        [Sample.transaction SUCCESS 0]))
  ∧ (status (Sample.transaction CANCELLED 0) ≠ SUCCESS
     ∧ refundPayment (crypto := Sample.crypto) Sample.config (Sample.refund 4000)
         Sample.env Sample.approvingJsonGateway [Sample.transaction CANCELLED 0]
       = (Throw (BadRequestException "Refund processing failed"),
          [Sample.transaction CANCELLED 0])).
Proof.
  destruct (refundPayment_refusals (crypto := Sample.crypto) Sample.config
              (Sample.refund 4000) Sample.env Sample.unreachableGateway
              [Sample.transaction SUCCESS 0]) as [Hthrown _].
  destruct (refundPayment_refusals (crypto := Sample.crypto) Sample.config
              (Sample.refund 4000) Sample.env Sample.approvingJsonGateway
              [Sample.transaction CANCELLED 0]) as [_ Hstatus].
  assert (status (Sample.transaction CANCELLED 0) ≠ SUCCESS) as Hne
    by (simpl; discriminate).
  split; [split; [reflexivity|exact (Hthrown _ eq_refl)]|].
  split; [exact Hne|exact (Hstatus Hne)].
Defined.


Lemma refundPayment_text_gateway_sample :
  answersWithText Sample.approvingGateway
  ∧ (refundPayment (crypto := Sample.crypto) Sample.config (Sample.refund 4000)
       Sample.env Sample.approvingGateway [Sample.transaction SUCCESS 0]).2
    = [Sample.transaction SUCCESS 0].
Proof.
  assert (answersWithText Sample.approvingGateway) as Htext
    by (intros url form; exact I).
  split; [exact Htext|].
  exact (refundPayment_text_gateway (crypto := Sample.crypto) Sample.config
           (Sample.refund 4000) Sample.env Sample.approvingGateway
           [Sample.transaction SUCCESS 0] Htext).
Defined.

Lemma handlePaymentStatusSync_text_gateway_sample :
  answersWithText Sample.approvingGateway
  ∧ (handlePaymentStatusSync (crypto := Sample.crypto) Sample.config Sample.job
       Sample.env Sample.approvingGateway [Sample.pendingTransaction]).2
    = [Sample.pendingTransaction]
  ∧ updatedCount
      (handlePaymentStatusSync (crypto := Sample.crypto) Sample.config Sample.job
         Sample.env Sample.approvingGateway [Sample.pendingTransaction]).1
    = 0%nat.
Proof.
  assert (answersWithText Sample.approvingGateway) as Htext
    by (intros url form; exact I).
  split; [exact Htext|].
  exact (handlePaymentStatusSync_text_gateway (crypto := Sample.crypto)
           Sample.config Sample.job Sample.env Sample.approvingGateway
           [Sample.pendingTransaction] Htext).
Defined.

Lemma handlePaymentStatusSync_untouched_sample :
  primaryKey [Sample.transaction CANCELLED 0]
  ∧ Forall2 (λ t t', status t ≠ PENDING ∨ now Sample.env - 300000 ≤ createdAt t →
                     t' = t)
      [Sample.transaction CANCELLED 0]
      (handlePaymentStatusSync (crypto := Sample.crypto) Sample.config Sample.job
         Sample.env Sample.approvingJsonGateway [Sample.transaction CANCELLED 0]).2.
Proof.
  assert (primaryKey [Sample.transaction CANCELLED 0]) as Hpk
    by (apply (bool_decide_unpack _); vm_compute; exact I).
  split; [exact Hpk|].
  exact (handlePaymentStatusSync_untouched (crypto := Sample.crypto)
           Sample.config Sample.job Sample.env Sample.approvingJsonGateway
           [Sample.transaction CANCELLED 0] Hpk).
Defined.

Lemma handlePaymentStatusSync_updates_sample :
  updatedCount
    (handlePaymentStatusSync (crypto := Sample.crypto) Sample.config Sample.job
       Sample.env Sample.unreachableGateway [Sample.pendingTransaction]).1
  = 0%nat
  ∧ (handlePaymentStatusSync (crypto := Sample.crypto) Sample.config Sample.job
       Sample.env Sample.unreachableGateway [Sample.pendingTransaction]).2
    = [Sample.pendingTransaction].
Proof.
  split; [reflexivity|].
  exact (handlePaymentStatusSync_updates (crypto := Sample.crypto) Sample.config
           Sample.job Sample.env Sample.unreachableGateway
           [Sample.pendingTransaction] eq_refl).
Defined.

Lemma secureHash_format_sample :
  (∃ h, generateSecureHash (crypto := Sample.crypto) Sample.approvedCallback
          "0A1B2C3D" (hashTypeValue SHA256) = Ok h
        ∧ allUpperHex h = true ∧ String.length h = 64%nat)
  ∧ (verifySecureHash (crypto := Sample.crypto) Sample.signedCallback "0A1B2C3D"
       (hashTypeValue SHA256) = Ok true
     ∧ ∃ h, Js.prop Sample.signedCallback "vpc_SecureHash" = JString h
            ∧ allUpperHex h = true
            ∧ (String.length h = 32 ∨ String.length h = 64)%nat).
Proof.
  destruct (secureHash_format (crypto := Sample.crypto) Sample.approvedCallback
              "0A1B2C3D" (hashTypeValue SHA256)) as [Hformat _].
  destruct (secureHash_format (crypto := Sample.crypto) Sample.signedCallback
              "0A1B2C3D" (hashTypeValue SHA256)) as [_ Hverify].
  split.
  - destruct (generateSecureHash (crypto := Sample.crypto) Sample.approvedCallback
                "0A1B2C3D" (hashTypeValue SHA256)) as [h|e] eqn:Hh;
      [|vm_compute in Hh; discriminate Hh].
    exists h. split; [reflexivity|]. exact (Hformat h eq_refl).
  - assert (verifySecureHash (crypto := Sample.crypto) Sample.signedCallback
              "0A1B2C3D" (hashTypeValue SHA256) = Ok true) as Hok
      by (vm_compute; reflexivity).
    split; [exact Hok|exact (Hverify Hok)].
Defined.

Ltac all_valid :=
  repeat first
    [ apply Forall_nil_2
    | apply Forall_cons_2;
      [simpl;
       first [exact I
             |unfold validCreatePaymentDto; simpl; lia
             |unfold validRefundPaymentDto; simpl; lia]|] ].

Lemma createPayment_created_sample :
  ∃ r db',
    createPayment (crypto := Sample.crypto) Sample.config Sample.payment None
                  Sample.createEnv []
    = (Ok r, db')
    ∧ db' = [transaction r]
    ∧ status (transaction r) = PENDING
    ∧ row_returnUrl (columns r) = "https://shop.example/done"
    ∧ Js.prop (vpcData (columns r)) "vpc_ReturnURL"
      = JString "https://merchant.example/payment/callback"
    ∧ verifySecureHash (crypto := Sample.crypto) (vpcData (columns r))
        (secureSecret Sample.config)
        (Js.prop (vpcData (columns r)) "vpc_SecureHashType")
      = Ok true.
Proof.
  destruct (createPayment (crypto := Sample.crypto) Sample.config Sample.payment
              None Sample.createEnv []) as [[r|e] db'] eqn:Hcreate;
    [|vm_compute in Hcreate; discriminate Hcreate].
  exists r, db'. split; [reflexivity|].
  pose proof (createPayment_created (crypto := Sample.crypto) Sample.config
                Sample.payment None Sample.createEnv [] db' r Hcreate)
    as (Hdb & _ & _ & _ & Hstatus & _ & _ & _ & _ & Hreturn & Hverify & _).
  split; [exact Hdb|]. split; [exact Hstatus|].
  split; [|split; [exact Hreturn|exact Hverify]].
  vm_compute in Hcreate. injection Hcreate as <- _. reflexivity.
Defined.

Lemma run_refunded_monotone_sample :
  primaryKey [Sample.transaction SUCCESS 0]
  ∧ Forall validOperation
      [RefundPayment (Sample.refund 4000) Sample.env Sample.approvingJsonGateway;
       CancelPayment "7d9f0c1e-0001" Sample.env]
  ∧ Forall2 (λ t t', refundedAmount t ≤ refundedAmount t')
      [Sample.transaction SUCCESS 0]
      (run (crypto := Sample.crypto) Sample.config
         [RefundPayment (Sample.refund 4000) Sample.env Sample.approvingJsonGateway;
          CancelPayment "7d9f0c1e-0001" Sample.env]
         [Sample.transaction SUCCESS 0]).
Proof.
  assert (primaryKey [Sample.transaction SUCCESS 0]) as Hpk
    by (apply (bool_decide_unpack _); vm_compute; exact I).
  assert (Forall validOperation
            [RefundPayment (Sample.refund 4000) Sample.env
               Sample.approvingJsonGateway;
             CancelPayment "7d9f0c1e-0001" Sample.env]) as Hops
    by all_valid.
  split; [exact Hpk|]. split; [exact Hops|].
  exact (run_refunded_monotone (crypto := Sample.crypto) Sample.config _ _ Hpk Hops).
Defined.

Lemma run_settled_sample :
  primaryKey [Sample.transaction PARTIALLY_REFUNDED 4000]
  ∧ Forall notCallback
      [RefundPayment (Sample.refund 6000) Sample.env Sample.approvingJsonGateway;
       CancelPayment "7d9f0c1e-0001" Sample.env;
       SyncPendingPayments Sample.job Sample.env Sample.approvingJsonGateway]
  ∧ Forall2 (λ t t', settled t → t' = t)
      [Sample.transaction PARTIALLY_REFUNDED 4000]
      (run (crypto := Sample.crypto) Sample.config
         [RefundPayment (Sample.refund 6000) Sample.env Sample.approvingJsonGateway;
          CancelPayment "7d9f0c1e-0001" Sample.env;
          SyncPendingPayments Sample.job Sample.env Sample.approvingJsonGateway]
         [Sample.transaction PARTIALLY_REFUNDED 4000]).
Proof.
  assert (primaryKey [Sample.transaction PARTIALLY_REFUNDED 4000]) as Hpk
    by (apply (bool_decide_unpack _); vm_compute; exact I).
  assert (Forall notCallback
            [RefundPayment (Sample.refund 6000) Sample.env
               Sample.approvingJsonGateway;
             CancelPayment "7d9f0c1e-0001" Sample.env;
             SyncPendingPayments Sample.job Sample.env
               Sample.approvingJsonGateway]) as Hops
    by all_valid.
  split; [exact Hpk|]. split; [exact Hops|].
  exact (run_settled (crypto := Sample.crypto) Sample.config _ _ Hpk Hops).
Defined.

Lemma runSteps_consistent_sample :
  Forall validStep
    [CreatePayment Sample.payment None Sample.createEnv;
     Operate (ProcessPaymentResponse Sample.signedCallback Sample.env);
     Operate (RefundPayment (Sample.refund 4000) Sample.env
                Sample.approvingJsonGateway)]
  ∧ consistent []
  ∧ consistent
      (runSteps (crypto := Sample.crypto) Sample.config
         [CreatePayment Sample.payment None Sample.createEnv;
          Operate (ProcessPaymentResponse Sample.signedCallback Sample.env);
          Operate (RefundPayment (Sample.refund 4000) Sample.env
                     Sample.approvingJsonGateway)]
         []).
Proof.
  assert (Forall validStep
            [CreatePayment Sample.payment None Sample.createEnv;
             Operate (ProcessPaymentResponse Sample.signedCallback Sample.env);
             Operate (RefundPayment (Sample.refund 4000) Sample.env
                        Sample.approvingJsonGateway)]) as Hsteps
    by all_valid.
  assert (consistent []) as Hdb by (repeat constructor).
  split; [exact Hsteps|]. split; [exact Hdb|].
  exact (runSteps_consistent (crypto := Sample.crypto) Sample.config _ _
           Hsteps Hdb).
Defined.

Lemma queryPayment_raises_sample :
  queryPayment (crypto := Sample.crypto) Sample.config
    "MIGS_1700000000000_AB12CD34" Sample.timingOutGateway
    [Sample.pendingTransaction]
  = inr (Service (ServiceUnavailableException
                    "Gateway service temporarily unavailable"))
  ∧ queryPaymentByTxnRef (crypto := Sample.crypto) Sample.config
      (Js.trim "MIGS_1700000000000_AB12CD34") Sample.timingOutGateway
      [Sample.pendingTransaction]
    = Throw (GatewayTimeoutException "Gateway request timed out")
  ∧ ∃ message,
      Service (ServiceUnavailableException
                 "Gateway service temporarily unavailable")
      = Service (BadRequestException message)
      ∨ Service (ServiceUnavailableException
                   "Gateway service temporarily unavailable")
        = Service (NotFoundException message)
      ∨ Service (ServiceUnavailableException
                   "Gateway service temporarily unavailable")
        = Service (ServiceUnavailableException message).
Proof.
  split; [vm_compute; reflexivity|]. split; [vm_compute; reflexivity|].
  exact (proj1 (queryPayment_raises (crypto := Sample.crypto) Sample.config
                  "MIGS_1700000000000_AB12CD34" Sample.timingOutGateway
                  [Sample.pendingTransaction]
                  (Service (ServiceUnavailableException
                              "Gateway service temporarily unavailable"))
                  ltac:(vm_compute; reflexivity))).
Defined.

Lemma handleCallback_redirects_sample :
  primaryKey [Sample.pendingTransaction]
  ∧ handleCallback (crypto := Sample.crypto) Sample.config None
      Sample.signedCallback Sample.env [Sample.pendingTransaction]
    = ("http://localhost:5173/payment/success?ref=MIGS_1700000000000_AB12CD34&id=7d9f0c1e-0001",
       (processPaymentResponse (crypto := Sample.crypto) Sample.config
          Sample.signedCallback Sample.env [Sample.pendingTransaction]).2).
Proof.
  assert (primaryKey [Sample.pendingTransaction]) as Hpk
    by (apply (bool_decide_unpack _); vm_compute; exact I).
  split; [exact Hpk|].
  exact (handleCallback_redirects (crypto := Sample.crypto) Sample.config None
           Sample.signedCallback Sample.env [Sample.pendingTransaction] Hpk).
Defined.

Lemma handleMashreqWebhook_accepted_sample :
  Mashreq.verifyWebhookSignature (crypto := Sample.crypto) Sample.webhookSecret
    Sample.webhookBody Sample.webhookSignature = Ok true
  ∧ Js.prop Sample.webhookPayload "transaction_id" = JString "MSQ-1001"
  ∧ ∃ db',
      Mashreq.handleMashreqWebhook (crypto := Sample.crypto) Sample.webhookSecret
        (Some Sample.webhookBody) Sample.webhookSignature Sample.webhookPayload
        Sample.mashreqDatabase
      = (Ok Mashreq.ReplyOk, db')
      ∧ length (Mashreq.webhook_logs db') = 1%nat
      ∧ Forall (λ l, Mashreq.transaction_id l = JString "MSQ-1001" →
                     Mashreq.processed l = true)
               (Mashreq.webhook_logs db').
Proof.
  assert (Mashreq.verifyWebhookSignature (crypto := Sample.crypto)
            Sample.webhookSecret Sample.webhookBody Sample.webhookSignature
          = Ok true) as Hsig by (vm_compute; reflexivity).
  split; [exact Hsig|]. split; [reflexivity|].
  destruct (handleMashreqWebhook_accepted (crypto := Sample.crypto)
              Sample.webhookSecret Sample.webhookBody Sample.webhookSignature
              Sample.webhookPayload Sample.mashreqDatabase "MSQ-1001"
              Hsig eq_refl) as (db' & Hreply & Hlength & Hprocessed & _).
  exists db'. split; [exact Hreply|]. split; [exact Hlength|exact Hprocessed].
Defined.

Lemma buildPaymentUrl_parses_sample :
  Forall (λ '(key, value),
            allAscii key = true ∧ allAscii (Js.toString value) = true)
         Sample.queryParams
  ∧ ∃ query,
      buildPaymentUrl Sample.config Sample.queryParams
      = "https://migs.example/vpcpay?" +:+ query
      ∧ URLSearchParams query
        = [("vpc_Version", "1"); ("vpc_Command", "queryDR");
           ("vpc_MerchTxnRef", " MIGS_1700000000000_AB12CD34 ")].
Proof.
  assert (Forall (λ '(key, value),
                    allAscii key = true ∧ allAscii (Js.toString value) = true)
                 Sample.queryParams) as Hascii
    by (repeat constructor).
  split; [exact Hascii|].
  destruct (buildPaymentUrl_parses Sample.config Sample.queryParams Hascii)
    as (query & Hurl & Hparse).
  exists query. split; [exact Hurl|exact Hparse].
Defined.


Lemma createPayment_then_callback_sample :
  primaryKey []
  ∧ ∃ r db',
      createPayment (crypto := Sample.crypto) Sample.config Sample.payment None
                    Sample.createEnv []
      = (Ok r, db')
      ∧ verifySecureHash (crypto := Sample.crypto) Sample.signedCallback
          (secureSecret Sample.config) (hashTypeValue SHA256) = Ok true
      ∧ Js.prop Sample.signedCallback "vpc_MerchTxnRef"
        = Js.prop (vpcData (columns r)) "vpc_MerchTxnRef"
      ∧ ∃ settled db'',
          processPaymentResponse (crypto := Sample.crypto) Sample.config
            Sample.signedCallback Sample.env db'
          = (Ok settled, db'')
          ∧ getPaymentStatus (id (transaction r)) db'' = Ok settled
          ∧ status settled = SUCCESS.
Proof.
  assert (primaryKey []) as Hpk by apply NoDup_nil_2.
  split; [exact Hpk|].
  destruct (createPayment (crypto := Sample.crypto) Sample.config Sample.payment
              None Sample.createEnv []) as [[r|e] db'] eqn:Hcreate;
    [|vm_compute in Hcreate; discriminate Hcreate].
  assert (verifySecureHash (crypto := Sample.crypto) Sample.signedCallback
            (secureSecret Sample.config) (hashTypeValue SHA256) = Ok true)
    as Hhash by (vm_compute; reflexivity).
  assert (Js.prop Sample.signedCallback "vpc_MerchTxnRef"
          = Js.prop (vpcData (columns r)) "vpc_MerchTxnRef") as Href.
  { pose proof Hcreate as Hr. vm_compute in Hr. injection Hr as <- _.
    vm_compute. reflexivity. }
  exists r, db'. split; [reflexivity|]. split; [exact Hhash|].
  split; [exact Href|].
  destruct (createPayment_then_callback (crypto := Sample.crypto) Sample.config
              Sample.payment None Sample.createEnv [] db' r
              Sample.signedCallback Sample.env Hpk Hcreate Hhash Href)
    as (settled & db'' & Hrun & Hstatus & _ & _ & _ & Hcode & _).
  exists settled, db''. split; [exact Hrun|]. split; [exact Hstatus|].
  exact Hcode.
Defined.

Lemma queryPaymentByTxnRef_validation_sample :
  (findOneByMerchantTxnRef (JString (Js.trim " MIGS_1700000000000_AB12CD34 ")) []
   = None
   ∧ ∃ message,
       ∀ gateway,
         queryPaymentByTxnRef (crypto := Sample.crypto) Sample.config
           " MIGS_1700000000000_AB12CD34 " gateway []
         = Throw (BadRequestException message)
         ∨ queryPaymentByTxnRef (crypto := Sample.crypto) Sample.config
             " MIGS_1700000000000_AB12CD34 " gateway []
           = Throw (NotFoundException message))
  ∧ (Js.trim " MIGS_1700000000000_AB12CD34 " ≠ EmptyString
     ∧ ∀ gateway,
         queryPaymentByTxnRef (crypto := Sample.crypto) Sample.config
           (Js.trim " MIGS_1700000000000_AB12CD34 ") gateway
           [Sample.pendingTransaction]
         = queryPaymentByTxnRef (crypto := Sample.crypto) Sample.config
             " MIGS_1700000000000_AB12CD34 " gateway [Sample.pendingTransaction]).
Proof.
  destruct (queryPaymentByTxnRef_validation (crypto := Sample.crypto)
              Sample.config " MIGS_1700000000000_AB12CD34 " [])
    as [Hunknown _].
  destruct (queryPaymentByTxnRef_validation (crypto := Sample.crypto)
              Sample.config " MIGS_1700000000000_AB12CD34 "
              [Sample.pendingTransaction]) as [_ Htrim].
  assert (Js.trim " MIGS_1700000000000_AB12CD34 " ≠ EmptyString) as Hne
    by (vm_compute; discriminate).
  split; [split; [reflexivity|exact (Hunknown eq_refl)]|].
  split; [exact Hne|exact (Htrim Hne)].
Defined.

End further_instances.
